(** * WorkStudyPro: the automatic cycle-detection engine of [VideoAnalyzer]

    A shallow embedding of the engine in [components/VideoAnalyzer.tsx]
    (with [types.ts] and [utils/geometry.ts]): the anchor tracker, the
    change scorer, the hysteresis logic controller, the pose-based motion
    classifier and the mouse handlers that edit zones.

    Conventions of the embedding.
    - A JavaScript [number] is an exact rational ([Q]); every literal of
      the source ([0.35], [0.02], [0.6], [1.5], ...) is the same decimal
      here.  NaN and the infinities are outside the model.
    - A React ref ([useRef]) or state cell ([useState]) is a record field;
      a function of the component that reads and writes them is a function
      from the record to the new record, together with the callbacks it
      fires ([onCycleComplete], [onStatusUpdate]) as a list of events.
    - A [try { ... } catch] block whose body can throw is an [option]
      inside and the handler's value outside.
    - An OpenCV matrix is its size, its pixel function and its [isDeleted]
      flag.  What the host computes numerically and the source only calls
      ([cv.GaussianBlur], [cv.matchTemplate]/[cv.minMaxLoc], [Math.hypot])
      is a parameter: a [Section] variable or a field of the frame. *)

From Stdlib Require Import QArith Qminmax Qround Qabs Qpower ZArith List Bool String Lia Lqa.
Import ListNotations.
Open Scope Q_scope.

(** ** Numbers *)

Definition Qltb (a b : Q) : bool := negb (Qle_bool b a).

Notation "a <? b" := (Qltb a b) (at level 70, no associativity) : Q_scope.
Notation "a >? b" := (Qltb b a) (at level 70, no associativity) : Q_scope.

(** ** types.ts *)

Record Point := { x : Q; y : Q }.

Record Rect := { rect_x : Q; rect_y : Q; width : Q; height : Q }.

Inductive CycleStatus := ok | over | abnormal.

Inductive AILabel := Operation | Transport | Idle | Unknown.

Record Cycle := {
  id : Z;
  startTime : Q;
  endTime : Q;
  duration : Q;
  status : CycleStatus;
  aiLabel : option AILabel
}.

Record TriggerStep := {
  step_id : string;
  name : string;
  rect : Rect;
  isActive : bool;
  hitCount : Z
}.

Module AIAction.
Inductive AIActionType := IDLE | OPERATION | TRANSPORT | SETUP.
End AIAction.

(** ** utils/geometry.ts *)

Definition Qleb (a b : Q) : bool := Qle_bool a b.

Definition isPointInRect (point : Point) (r : Rect) : bool :=
  Qleb (rect_x r) (x point) &&
  Qleb (x point) (rect_x r + width r) &&
  Qleb (rect_y r) (y point) &&
  Qleb (y point) (rect_y r + height r).

(** ** CV_CONFIG and POSE_LM *)

Module CV_CONFIG.
Definition BLUR_SIZE : Z := 5.
Definition DIFF_THRESHOLD : Z := 25.
Definition EMA_ALPHA : Q := 0.2.
Definition MIN_CYCLE_TIME : Q := 1.0.
End CV_CONFIG.

Module POSE_LM.
Definition NOSE : nat := 0.
Definition LEFT_WRIST : nat := 15.
Definition RIGHT_WRIST : nat := 16.
End POSE_LM.

Inductive LogicState := IDLE | TRIGGERED | COOLDOWN.

(** ** OpenCV matrices *)

Record Mat := {
  rows : Z;
  cols : Z;
  px : Z -> Z -> Z;       (* px row col *)
  isDeleted : bool
}.

(** [safeDelete]: deletes a live matrix, leaves anything else alone. *)
Definition safeDelete (mat : option Mat) : option Mat :=
  match mat with
  | Some m =>
      if negb (isDeleted m)
      then Some {| rows := rows m; cols := cols m; px := px m; isDeleted := true |}
      else Some m
  | None => None
  end.

(** [sourceMat.roi(new cv.Rect(x, y, w, h)).clone()] *)
Definition roi_clone (sourceMat : Mat) (x0 y0 w h : Z) : Mat :=
  {| rows := h; cols := w;
     px := fun r c => px sourceMat (y0 + r)%Z (x0 + c)%Z;
     isDeleted := false |}.

(** [cv.absdiff(a, b, diff)] throws when the sizes differ. *)
Definition absdiff (a b : Mat) : option Mat :=
  if ((rows a =? rows b) && (cols a =? cols b))%Z
  then Some {| rows := rows a; cols := cols a;
               px := fun r c => Z.abs (px a r c - px b r c);
               isDeleted := false |}
  else None.

(** [cv.threshold(src, dst, thresh, maxval, cv.THRESH_BINARY)] *)
Definition threshold (src : Mat) (thresh maxval : Z) : Mat :=
  {| rows := rows src; cols := cols src;
     px := fun r c => if (px src r c >? thresh)%Z then maxval else 0%Z;
     isDeleted := false |}.

Fixpoint sum_upto (n : nat) (f : Z -> Z) : Z :=
  match n with
  | O => 0%Z
  | S k => (sum_upto k f + f (Z.of_nat k))%Z
  end.

(** [cv.countNonZero(m)] *)
Definition countNonZero (m : Mat) : Z :=
  sum_upto (Z.to_nat (rows m)) (fun r =>
    sum_upto (Z.to_nat (cols m)) (fun c =>
      if (px m r c =? 0)%Z then 0%Z else 1%Z)).

(** ** extractRoiMat *)

Definition extractRoiMat (r : Rect) (sourceMat : Mat) : option Mat :=
  let x0 := Qfloor (rect_x r) in
  let y0 := Qfloor (rect_y r) in
  let w0 := Qfloor (width r) in
  let h0 := Qfloor (height r) in
  let '(w1, x1) := if (x0 <? 0)%Z then ((w0 + x0)%Z, 0%Z) else (w0, x0) in
  let '(h1, y1) := if (y0 <? 0)%Z then ((h0 + y0)%Z, 0%Z) else (h0, y0) in
  let w2 := if (x1 + w1 >? cols sourceMat)%Z then (cols sourceMat - x1)%Z else w1 in
  let h2 := if (y1 + h1 >? rows sourceMat)%Z then (rows sourceMat - y1)%Z else h1 in
  if ((w2 <=? 1) || (h2 <=? 1))%Z then None
  else Some (roi_clone sourceMat x1 y1 w2 h2).

(** ** calculateChangeScore *)

(** [{ ...rect, x: rect.x + offset.x, y: rect.y + offset.y }] *)
Definition adjustRect (r : Rect) (offset : Point) : Rect :=
  {| rect_x := rect_x r + x offset; rect_y := rect_y r + y offset;
     width := width r; height := height r |}.

Section ChangeScorer.

(** The pixel values [cv.GaussianBlur] computes for a source matrix and
    a kernel size; the result has the size of the source. *)
Variable blurPx : Z -> Mat -> Z -> Z -> Z.

Definition GaussianBlur (src : Mat) (ksize : Z) : Mat :=
  {| rows := rows src; cols := cols src;
     px := blurPx ksize src;
     isDeleted := false |}.

Definition calculateChangeScore
    (currentFrameGray : Mat) (refMat : option Mat) (r : Rect) (offset : Point) : Q :=
  match refMat with
  | None => 0
  | Some ref =>
      if isDeleted ref then 0
      else
        let adjustedRect := adjustRect r offset in
        match extractRoiMat adjustedRect currentFrameGray with
        | None => 0
        | Some roi =>
            let blurred := GaussianBlur roi CV_CONFIG.BLUR_SIZE in
            match absdiff blurred ref with
            | None => 0 (* thrown by cv.absdiff, caught *)
            | Some diff =>
                let thresholded := threshold diff CV_CONFIG.DIFF_THRESHOLD 255 in
                let nonZero := countNonZero thresholded in
                let totalPixels := width r * height r in
                if totalPixels >? 0 then inject_Z nonZero / totalPixels else 0
            end
        end
  end.

End ChangeScorer.

(** ** The engine's cells *)

(** The result of [cv.minMaxLoc] that the tracker reads. *)
Record MinMax := { maxVal : Q; maxLoc : Point }.

(** One video frame as the engine sees it, with the host values read
    while it is processed. *)
Record Frame := {
  now : Q;                 (* performance.now(), in ms *)
  clock : Z;               (* Date.now() *)
  videoTime : Q;           (* video.currentTime, in s *)
  paused : bool;           (* video.paused *)
  gray : Mat;              (* the frame after cv.cvtColor(.., COLOR_RGBA2GRAY) *)
  (* cv.matchTemplate(frame.roi(searchRect), template, TM_CCOEFF_NORMED)
     followed by cv.minMaxLoc; None when OpenCV throws *)
  matchTemplate : Rect -> Mat -> option MinMax;
  dataUrl : Mat -> string  (* matToDataUrl of a captured patch *)
}.

Record Tracker := { trackingOffset : Point; isTrackingLost : bool }.

Record SignalState := { raw : Q; smooth : Q; prevSmooth : Q }.

Inductive VisualState :=
| Ready
| ReadyAfterReset
| WorkStarted
| CycleFinished (d : Q)
| FalseTrigger
| Working (d : Q).

Record Controller := {
  logicState : LogicState;
  cycleStartTime : Q;
  cooldownTimer : Q;
  visualState : VisualState
}.

Record Landmark := { lm_x : Q; lm_y : Q; visibility : Q }.

Record LastPos := { lx : Q; ly : Q; rx : Q; ry : Q }.

Record AiState := {
  currentAction : AIAction.AIActionType;
  confidence : Q;
  landmarks : list Landmark;
  leftHandVel : Q;
  rightHandVel : Q;
  lastPos : option LastPos
}.

Inductive Target := target_start | target_end | target_anchor.

Inductive StatusMsg :=
| SystemReset
| AnchorCaptured
| ReferenceCaptured (t : Target)
| CycleStarted
| CycleLogged (d : Q).

Inductive Event :=
| OnStatusUpdate (m : StatusMsg)
| OnCycleComplete (c : Cycle)
| Alert (m : string).

Fixpoint cyclesOf (evs : list Event) : list Cycle :=
  match evs with
  | [] => []
  | OnCycleComplete c :: rest => c :: cyclesOf rest
  | _ :: rest => cyclesOf rest
  end.

(** ** trackAnchor *)

(** The window [trackAnchor] searches: the anchor's last known position,
    widened by [margin] on every side and cut at the frame. *)
Definition searchWindow (ar : Rect) (offset : Point) (f : Frame) : Rect :=
  let margin := 50 in
  let lastX := rect_x ar + x offset in
  let lastY := rect_y ar + y offset in
  let searchX := Qmax 0 (lastX - margin) in
  let searchY := Qmax 0 (lastY - margin) in
  let searchW := Qmin (inject_Z (cols (gray f)) - searchX) (width ar + (margin * 2)) in
  let searchH := Qmin (inject_Z (rows (gray f)) - searchY) (height ar + (margin * 2)) in
  {| rect_x := searchX; rect_y := searchY; width := searchW; height := searchH |}.

Definition trackAnchor (anchorMat : option Mat) (anchorRect : option Rect)
    (f : Frame) (tr : Tracker) : Tracker :=
  match anchorMat, anchorRect with
  | Some template, Some ar =>
      let searchRect := searchWindow ar (trackingOffset tr) f in
      match matchTemplate f searchRect template with
      | None => tr (* "Tracking failed": caught, nothing written *)
      | Some minMax =>
          if maxVal minMax >? 0.6 then
            let foundX := rect_x searchRect + x (maxLoc minMax) in
            let foundY := rect_y searchRect + y (maxLoc minMax) in
            {| trackingOffset := {| x := foundX - rect_x ar; y := foundY - rect_y ar |};
               isTrackingLost := false |}
          else
            {| trackingOffset := trackingOffset tr; isTrackingLost := true |}
      end
  | _, _ => tr
  end.

(** ** onPoseResults *)

Section MotionClassifier.

(** [Math.hypot] of the host. *)
Variable hypot : Q -> Q -> Q.

Definition moveThreshold : Q := 0.005.
Definition reachThreshold : Q := 0.02.

Definition classify (avgVel avgDist : Q) : AIAction.AIActionType :=
  if avgVel <? moveThreshold then AIAction.IDLE
  else if (avgDist >? 0.4) && (avgVel >? reachThreshold) then AIAction.TRANSPORT
  else AIAction.OPERATION.

Definition onPoseResults (ai : AiState) (poseLandmarks : option (list Landmark)) : AiState :=
  match poseLandmarks with
  | None => ai
  | Some lm =>
      match nth_error lm POSE_LM.LEFT_WRIST, nth_error lm POSE_LM.RIGHT_WRIST with
      | Some leftWrist, Some rightWrist =>
          let lVel := match lastPos ai with
                      | Some lp => hypot (lm_x leftWrist - lx lp) (lm_y leftWrist - ly lp)
                      | None => 0
                      end in
          let rVel := match lastPos ai with
                      | Some lp => hypot (lm_x rightWrist - rx lp) (lm_y rightWrist - ry lp)
                      | None => 0
                      end in
          let lastPos' := Some {| lx := lm_x leftWrist; ly := lm_y leftWrist;
                                  rx := lm_x rightWrist; ry := lm_y rightWrist |} in
          let leftHandVel' := (leftHandVel ai * 0.7) + (lVel * 0.3) in
          let rightHandVel' := (rightHandVel ai * 0.7) + (rVel * 0.3) in
          let avgVel := (leftHandVel' + rightHandVel') / 2 in
          match nth_error lm POSE_LM.NOSE with
          | Some nose =>
              let leftDist := hypot (lm_x leftWrist - lm_x nose) (lm_y leftWrist - lm_y nose) in
              let rightDist := hypot (lm_x rightWrist - lm_x nose) (lm_y rightWrist - lm_y nose) in
              let avgDist := (leftDist + rightDist) / 2 in
              {| currentAction := classify avgVel avgDist;
                 confidence := Qmin 1.0 (avgVel * 50);
                 landmarks := lm;
                 leftHandVel := leftHandVel';
                 rightHandVel := rightHandVel';
                 lastPos := lastPos' |}
          | None =>
              (* reading [nose.x] throws after the velocities were stored *)
              {| currentAction := currentAction ai;
                 confidence := confidence ai;
                 landmarks := lm;
                 leftHandVel := leftHandVel';
                 rightHandVel := rightHandVel';
                 lastPos := lastPos' |}
          end
      | _, _ =>
          (* reading a missing wrist throws right after [landmarks] was stored *)
          {| currentAction := currentAction ai;
             confidence := confidence ai;
             landmarks := lm;
             leftHandVel := leftHandVel ai;
             rightHandVel := rightHandVel ai;
             lastPos := lastPos ai |}
      end
  end.

End MotionClassifier.

(** ** The logic controller *)

Section LogicController.

Variables (sensitivity taktTime : Q).

Definition highThreshold : Q := Qmax 0.01 (0.35 - (sensitivity * 0.02)).
Definition lowThreshold : Q := highThreshold * 0.6.

Definition cycleLabel (a : AIAction.AIActionType) : AILabel :=
  match a with
  | AIAction.IDLE => Operation
  | AIAction.TRANSPORT => Transport
  | _ => Operation
  end.

Definition processLogic (ai : AiState) (dateNow : Z) (c : Controller)
    (score timestamp : Q) : Controller * list Event :=
  match logicState c with
  | COOLDOWN =>
      if timestamp >? cooldownTimer c then
        ({| logicState := IDLE; cycleStartTime := cycleStartTime c;
            cooldownTimer := cooldownTimer c; visualState := Ready |}, [])
      else (c, [])
  | IDLE =>
      if score >? highThreshold then
        ({| logicState := TRIGGERED; cycleStartTime := timestamp;
            cooldownTimer := cooldownTimer c; visualState := WorkStarted |},
         [OnStatusUpdate CycleStarted])
      else (c, [])
  | TRIGGERED =>
      if score <? lowThreshold then
        let duration := timestamp - cycleStartTime c in
        if duration >? CV_CONFIG.MIN_CYCLE_TIME then
          let status := if duration >? taktTime then over else ok in
          let aiLabel := currentAction ai in
          ({| logicState := COOLDOWN; cycleStartTime := cycleStartTime c;
              cooldownTimer := timestamp + 1.5;
              visualState := CycleFinished duration |},
           [OnCycleComplete {| id := dateNow;
                               startTime := cycleStartTime c;
                               endTime := timestamp;
                               duration := duration;
                               status := status;
                               aiLabel := Some (cycleLabel aiLabel) |};
            OnStatusUpdate (CycleLogged duration)])
        else
          ({| logicState := IDLE; cycleStartTime := cycleStartTime c;
              cooldownTimer := cooldownTimer c; visualState := FalseTrigger |}, [])
      else
        ({| logicState := TRIGGERED; cycleStartTime := cycleStartTime c;
            cooldownTimer := cooldownTimer c;
            visualState := Working (timestamp - cycleStartTime c) |}, [])
  end.

End LogicController.

(** ** The component's state *)

Inductive Mode := setup | running.

Inductive SetupSubMode := start_roi | end_roi | anchor | none.

Record RefImages := {
  ref_start : option string;
  ref_end : option string;
  ref_anchor : option string
}.

(** React state, props and the drag refs. *)
Record UI := {
  isCvReady : bool;
  mode : Mode;
  setupSubMode : SetupSubMode;
  refImages : RefImages;
  drawingRect : option Rect;
  dragStart : option Point;
  draggingStepId : option string;
  dragOffset : Point;
  anchorRect : option Rect;
  triggerSteps : list TriggerStep
}.

(** The refs of the CV engine. *)
Record Engine := {
  startRefMat : option Mat;
  endRefMat : option Mat;
  anchorMat : option Mat;
  tracker : Tracker;
  signalState : SignalState;
  controller : Controller;
  lastProcessTime : Q;
  aiState : AiState
}.

Record Analyzer := { ui : UI; engine : Engine }.

Definition initialAiState : AiState :=
  {| currentAction := AIAction.IDLE; confidence := 0; landmarks := [];
     leftHandVel := 0; rightHandVel := 0; lastPos := None |}.

Definition initialEngine : Engine :=
  {| startRefMat := None; endRefMat := None; anchorMat := None;
     tracker := {| trackingOffset := {| x := 0; y := 0 |}; isTrackingLost := false |};
     signalState := {| raw := 0; smooth := 0; prevSmooth := 0 |};
     controller := {| logicState := IDLE; cycleStartTime := 0;
                      cooldownTimer := 0; visualState := Ready |};
     lastProcessTime := 0;
     aiState := initialAiState |}.

Definition initialUI (steps : list TriggerStep) : UI :=
  {| isCvReady := false; mode := setup; setupSubMode := none;
     refImages := {| ref_start := None; ref_end := None; ref_anchor := None |};
     drawingRect := None; dragStart := None; draggingStepId := None;
     dragOffset := {| x := 0; y := 0 |};
     anchorRect := None; triggerSteps := steps |}.

(** JavaScript truthiness of a [string | null]. *)
Definition truthy (s : option string) : bool :=
  match s with
  | Some EmptyString => false
  | Some _ => true
  | None => false
  end.

Definition set_refImages (u : UI) (r : RefImages) : UI :=
  {| isCvReady := isCvReady u; mode := mode u; setupSubMode := setupSubMode u;
     refImages := r;
     drawingRect := drawingRect u; dragStart := dragStart u;
     draggingStepId := draggingStepId u; dragOffset := dragOffset u;
     anchorRect := anchorRect u; triggerSteps := triggerSteps u |}.

Definition set_mode (u : UI) (m : Mode) : UI :=
  {| isCvReady := isCvReady u; mode := m; setupSubMode := setupSubMode u;
     refImages := refImages u;
     drawingRect := drawingRect u; dragStart := dragStart u;
     draggingStepId := draggingStepId u; dragOffset := dragOffset u;
     anchorRect := anchorRect u; triggerSteps := triggerSteps u |}.

Definition set_triggerSteps (u : UI) (steps : list TriggerStep) : UI :=
  {| isCvReady := isCvReady u; mode := mode u; setupSubMode := setupSubMode u;
     refImages := refImages u;
     drawingRect := drawingRect u; dragStart := dragStart u;
     draggingStepId := draggingStepId u; dragOffset := dragOffset u;
     anchorRect := anchorRect u; triggerSteps := steps |}.

Definition clear_start (r : RefImages) : RefImages :=
  {| ref_start := None; ref_end := ref_end r; ref_anchor := ref_anchor r |}.

(** ** The video-source reset effect *)

Definition resetOnVideoSrc (videoSrc : option string) (st : Analyzer)
  : Analyzer * list Event :=
  let u := ui st in
  let e := engine st in
  ({| ui := {| isCvReady := isCvReady u; mode := setup; setupSubMode := none;
               refImages := {| ref_start := None; ref_end := None; ref_anchor := None |};
               drawingRect := drawingRect u; dragStart := dragStart u;
               draggingStepId := draggingStepId u; dragOffset := dragOffset u;
               anchorRect := None; triggerSteps := triggerSteps u |};
      engine := {| startRefMat := None; endRefMat := None; anchorMat := None;
                   tracker := {| trackingOffset := {| x := 0; y := 0 |};
                                 isTrackingLost := isTrackingLost (tracker e) |};
                   signalState := {| raw := 0; smooth := 0; prevSmooth := 0 |};
                   controller := {| logicState := IDLE; cycleStartTime := 0;
                                    cooldownTimer := cooldownTimer (controller e);
                                    visualState := ReadyAfterReset |};
                   lastProcessTime := lastProcessTime e;
                   aiState := aiState e |} |},
   if truthy videoSrc then [OnStatusUpdate SystemReset] else []).

(** ** Mouse handlers; [pt] is the pointer already mapped to video pixels *)

Definition handleMouseDown (st : Analyzer) (pt : Point) : Analyzer :=
  let u := ui st in
  match setupSubMode u with
  | none =>
      match mode u with
      | setup =>
          match find (fun s => isPointInRect pt (rect s)) (triggerSteps u) with
          | Some clickedStep =>
              {| ui := {| isCvReady := isCvReady u; mode := mode u;
                          setupSubMode := setupSubMode u;
                          refImages := clear_start (refImages u);
                          drawingRect := drawingRect u; dragStart := dragStart u;
                          draggingStepId := Some (step_id clickedStep);
                          dragOffset := {| x := x pt - rect_x (rect clickedStep);
                                           y := y pt - rect_y (rect clickedStep) |};
                          anchorRect := anchorRect u; triggerSteps := triggerSteps u |};
                 engine := engine st |}
          | None => st
          end
      | running => st
      end
  | _ =>
      {| ui := {| isCvReady := isCvReady u; mode := mode u;
                  setupSubMode := setupSubMode u; refImages := refImages u;
                  drawingRect := Some {| rect_x := x pt; rect_y := y pt;
                                         width := 0; height := 0 |};
                  dragStart := Some pt;
                  draggingStepId := draggingStepId u; dragOffset := dragOffset u;
                  anchorRect := anchorRect u; triggerSteps := triggerSteps u |};
         engine := engine st |}
  end.

Definition moveStep (did : string) (pt off : Point) (s : TriggerStep) : TriggerStep :=
  if String.eqb (step_id s) did then
    {| step_id := step_id s; name := name s;
       rect := {| rect_x := x pt - x off; rect_y := y pt - y off;
                  width := width (rect s); height := height (rect s) |};
       isActive := isActive s; hitCount := hitCount s |}
  else s.

Definition handleMouseMove (st : Analyzer) (pt : Point) : Analyzer :=
  let u := ui st in
  if truthy (draggingStepId u) then
    match draggingStepId u with
    | Some did =>
        {| ui := set_triggerSteps u (map (moveStep did pt (dragOffset u)) (triggerSteps u));
           engine := engine st |}
    | None => st
    end
  else
    match dragStart u with
    | Some ds =>
        {| ui := {| isCvReady := isCvReady u; mode := mode u;
                    setupSubMode := setupSubMode u; refImages := refImages u;
                    drawingRect := Some {| rect_x := Qmin (x pt) (x ds);
                                           rect_y := Qmin (y pt) (y ds);
                                           width := Qabs (x pt - x ds);
                                           height := Qabs (y pt - y ds) |};
                    dragStart := dragStart u;
                    draggingStepId := draggingStepId u; dragOffset := dragOffset u;
                    anchorRect := anchorRect u; triggerSteps := triggerSteps u |};
           engine := engine st |}
    | None => st
    end.

Definition set_anchorMat (e : Engine) (m : option Mat) : Engine :=
  {| startRefMat := startRefMat e; endRefMat := endRefMat e; anchorMat := m;
     tracker := tracker e; signalState := signalState e;
     controller := controller e; lastProcessTime := lastProcessTime e;
     aiState := aiState e |}.

Definition set_startRefMat (e : Engine) (m : option Mat) : Engine :=
  {| startRefMat := m; endRefMat := endRefMat e; anchorMat := anchorMat e;
     tracker := tracker e; signalState := signalState e;
     controller := controller e; lastProcessTime := lastProcessTime e;
     aiState := aiState e |}.

Definition endDrag (u : UI) (steps : list TriggerStep) (imgs : RefImages)
    (ar : option Rect) (did : option string) : UI :=
  {| isCvReady := isCvReady u; mode := mode u; setupSubMode := none;
     refImages := imgs; drawingRect := None; dragStart := None;
     draggingStepId := did; dragOffset := dragOffset u;
     anchorRect := ar; triggerSteps := steps |}.

Definition handleMouseUp (st : Analyzer) : Analyzer :=
  let u := ui st in
  if truthy (draggingStepId u) then
    {| ui := endDrag u (triggerSteps u) (refImages u) (anchorRect u) None;
       engine := engine st |}
  else
    match dragStart u, drawingRect u with
    | Some _, Some r =>
        if width r >? 10 then
          match setupSubMode u with
          | start_roi =>
              let newSteps := [{| step_id := "start"; name := "Work Zone"; rect := r;
                                  isActive := false; hitCount := 0 |}] in
              {| ui := endDrag u newSteps (clear_start (refImages u)) (anchorRect u)
                               (draggingStepId u);
                 engine := engine st |}
          | anchor =>
              {| ui := endDrag u (triggerSteps u) (refImages u) (Some r) (draggingStepId u);
                 engine := set_anchorMat (engine st) None |}
          | _ =>
              {| ui := endDrag u (triggerSteps u) (refImages u) (anchorRect u)
                               (draggingStepId u);
                 engine := engine st |}
          end
        else
          {| ui := endDrag u (triggerSteps u) (refImages u) (anchorRect u) (draggingStepId u);
             engine := engine st |}
    | _, _ =>
        {| ui := endDrag u (triggerSteps u) (refImages u) (anchorRect u) (draggingStepId u);
           engine := engine st |}
    end.

(** The ARM SYSTEM / STOP & EDIT button. *)
Definition onArmClick (st : Analyzer) : Analyzer * list Event :=
  let u := ui st in
  let e := engine st in
  match mode u with
  | setup =>
      match triggerSteps u with
      | [] => (st, [Alert "Please draw a Work Zone"])
      | _ :: _ =>
          if negb (truthy (ref_start (refImages u)))
          then (st, [Alert "Please capture Empty State Reference"])
          else ({| ui := set_mode u running; engine := e |}, [])
      end
  | running =>
      ({| ui := set_mode u setup;
          engine := {| startRefMat := startRefMat e; endRefMat := endRefMat e;
                       anchorMat := anchorMat e; tracker := tracker e;
                       signalState := signalState e;
                       controller := {| logicState := IDLE;
                                        cycleStartTime := cycleStartTime (controller e);
                                        cooldownTimer := cooldownTimer (controller e);
                                        visualState := visualState (controller e) |};
                       lastProcessTime := lastProcessTime e;
                       aiState := aiState e |} |}, [])
  end.

(** ** captureReference and processFrame *)

(** Reading the current frame of the video into a matrix
    ([drawImage], [getImageData], [cv.matFromImageData]): the frame, or
    the message of the error thrown on the way. *)
Inductive FrameRead :=
| FrameOk (f : Frame)
| FrameError (message : string).

Section Analyzer.

Variable blurPx : Z -> Mat -> Z -> Z -> Z.
Variables (sensitivity taktTime : Q).

(** What [captureReference(target)] does once the frame the video shows
    was read into a matrix.  The colour frame is represented by its gray
    version, so the [cv.cvtColor] of the extracted patch is the patch
    itself. *)
Definition captureFrom (target : Target) (st : Analyzer) (f : Frame)
  : Analyzer * list Event :=
  let u := ui st in
  let e := engine st in
  let fullFrameMat := gray f in
  match target with
  | target_anchor =>
      match anchorRect u with
      | None => (st, [Alert "Draw anchor box first"])
      | Some ar =>
          match extractRoiMat ar fullFrameMat with
          | Some roi =>
              let thumbUrl := dataUrl f roi in
              ({| ui := set_refImages u
                          {| ref_start := ref_start (refImages u);
                             ref_end := ref_end (refImages u);
                             ref_anchor := Some thumbUrl |};
                  engine := set_anchorMat e (Some roi) |},
               [OnStatusUpdate AnchorCaptured])
          | None => (st, [])
          end
      end
  | _ =>
      let stepIndex := match target with target_start => 0%nat | _ => 1%nat end in
      match nth_error (triggerSteps u) stepIndex with
      | None =>
          (st, [Alert (match target with
                       | target_start => "Draw start zone first"
                       | _ => "Draw end zone first"
                       end)])
      | Some step =>
          match extractRoiMat (rect step) fullFrameMat with
          | Some roi =>
              let thumbUrl := dataUrl f roi in
              let blurred := GaussianBlur blurPx roi CV_CONFIG.BLUR_SIZE in
              match target with
              | target_start =>
                  ({| ui := set_refImages u
                              {| ref_start := Some thumbUrl;
                                 ref_end := ref_end (refImages u);
                                 ref_anchor := ref_anchor (refImages u) |};
                      engine := set_startRefMat e (Some blurred) |},
                   [OnStatusUpdate (ReferenceCaptured target)])
              | _ => (st, [OnStatusUpdate (ReferenceCaptured target)])
              end
          | None => (st, [])
          end
      end
  end.

(** [captureReference(target)]: the frame is read first, inside the
    [try]; when that throws ("No Context", "Frame read failed": OpenCV
    not loaded yet, a video without metadata) the handler alerts and
    nothing is stored. *)
Definition captureReference (target : Target) (st : Analyzer) (read : FrameRead)
  : Analyzer * list Event :=
  match read with
  | FrameError message => (st, [Alert ("Capture failed: " ++ message)])
  | FrameOk f => captureFrom target st f
  end.

(** The body of [processFrame] once the frame passed the throttle test
    [isCvReady && !video.paused && now - lastProcessTime >= 50]. *)
Definition processFrameBody (st : Analyzer) (f : Frame) : Analyzer * list Event :=
  let u := ui st in
  let e := engine st in
  let tracker1 :=
    match anchorMat e with
    | Some _ => trackAnchor (anchorMat e) (anchorRect u) f (tracker e)
    | None => tracker e
    end in
  match startRefMat e, nth_error (triggerSteps u) 0 with
  | Some _, Some step0 =>
      if negb (isTrackingLost tracker1) then
        let rawScore :=
          calculateChangeScore blurPx (gray f) (startRefMat e) (rect step0)
                               (trackingOffset tracker1) in
        let alpha := CV_CONFIG.EMA_ALPHA in
        let smoothScore := (alpha * rawScore) + ((1 - alpha) * prevSmooth (signalState e)) in
        let '(controller1, evs) :=
          processLogic sensitivity taktTime (aiState e) (clock f) (controller e)
                       smoothScore (videoTime f) in
        ({| ui := u;
            engine := {| startRefMat := startRefMat e; endRefMat := endRefMat e;
                         anchorMat := anchorMat e; tracker := tracker1;
                         signalState := {| raw := rawScore; smooth := smoothScore;
                                           prevSmooth := smoothScore |};
                         controller := controller1;
                         lastProcessTime := now f;
                         aiState := aiState e |} |}, evs)
      else
        ({| ui := u;
            engine := {| startRefMat := startRefMat e; endRefMat := endRefMat e;
                         anchorMat := anchorMat e; tracker := tracker1;
                         signalState := signalState e;
                         controller := controller e;
                         lastProcessTime := now f;
                         aiState := aiState e |} |}, [])
  | _, _ =>
      ({| ui := u;
          engine := {| startRefMat := startRefMat e; endRefMat := endRefMat e;
                       anchorMat := anchorMat e; tracker := tracker1;
                       signalState := signalState e;
                       controller := controller e;
                       lastProcessTime := now f;
                       aiState := aiState e |} |}, [])
  end.

Definition processed (st : Analyzer) (f : Frame) : bool :=
  negb (negb (isCvReady (ui st)) || paused f
        || (now f - lastProcessTime (engine st) <? 50)).

Definition processFrame (st : Analyzer) (f : Frame) : Analyzer * list Event :=
  if processed st f then processFrameBody st f else (st, []).

(** A run of the animation loop over a list of frames. *)
Fixpoint runFrames (st : Analyzer) (fs : list Frame) : Analyzer * list Event :=
  match fs with
  | [] => (st, [])
  | f :: rest =>
      let '(st1, evs1) := processFrame st f in
      let '(st2, evs2) := runFrames st1 rest in
      (st2, evs1 ++ evs2)
  end.

(** A run of the logic controller alone over the (score, timestamp)
    pairs it is fed; the classifier's state and the wall clock may
    differ from frame to frame. *)
Record LogicInput := {
  in_ai : AiState;
  in_clock : Z;
  in_score : Q;
  in_time : Q
}.

Fixpoint runLogic (c : Controller) (ins : list LogicInput) : Controller * list Event :=
  match ins with
  | [] => (c, [])
  | i :: rest =>
      let '(c1, evs1) :=
        processLogic sensitivity taktTime (in_ai i) (in_clock i) c
                     (in_score i) (in_time i) in
      let '(c2, evs2) := runLogic c1 rest in
      (c2, evs1 ++ evs2)
  end.

End Analyzer.

(** A run of the tracker over consecutive frames. *)
Fixpoint runTracker (anchorMat : option Mat) (anchorRect : option Rect)
    (tr : Tracker) (fs : list Frame) : Tracker :=
  match fs with
  | [] => tr
  | f :: rest => runTracker anchorMat anchorRect (trackAnchor anchorMat anchorRect f tr) rest
  end.

(** ** The specification's wording, for comparison with the code *)

Definition spec_highThreshold (sensitivity : Q) : Q :=
  Qmax 0.01 (0.35 - sensitivity * 0.02).

Definition spec_lowThreshold (sensitivity : Q) : Q :=
  0.6 * spec_highThreshold sensitivity.

(** The three transitions of the controller that fire on a threshold or
    timer test and move forward in IDLE -> TRIGGERED -> COOLDOWN -> IDLE. *)
Definition forwardTransition (sensitivity : Q) (c : Controller) (s t : Q) : Prop :=
  (logicState c = IDLE /\ highThreshold sensitivity < s) \/
  (logicState c = TRIGGERED /\ s < lowThreshold sensitivity /\
   CV_CONFIG.MIN_CYCLE_TIME < t - cycleStartTime c) \/
  (logicState c = COOLDOWN /\ cooldownTimer c < t).

(** The false trigger: a TRIGGERED episode that ends too early. *)
Definition falseTrigger (sensitivity : Q) (c : Controller) (s t : Q) : Prop :=
  logicState c = TRIGGERED /\ s < lowThreshold sensitivity /\
  t - cycleStartTime c <= CV_CONFIG.MIN_CYCLE_TIME.

(** Timestamps that never go back. *)
Fixpoint nondecreasing (ts : list Q) : Prop :=
  match ts with
  | [] => True
  | t :: rest => (forall t', In t' rest -> t <= t') /\ nondecreasing rest
  end.

(** Consecutive cycles are ordered and separated by the cooldown. *)
Fixpoint spaced (cs : list Cycle) : Prop :=
  match cs with
  | [] => True
  | a :: rest =>
      match rest with
      | [] => True
      | b :: _ => startTime a < startTime b /\ endTime a + 1.5 < startTime b
      end /\ spaced rest
  end.

(** The instantaneous wrist speeds [onPoseResults] computes. *)
Definition instantLeft (hypot : Q -> Q -> Q) (ai : AiState) (leftWrist : Landmark) : Q :=
  match lastPos ai with
  | Some lp => hypot (lm_x leftWrist - lx lp) (lm_y leftWrist - ly lp)
  | None => 0
  end.

Definition instantRight (hypot : Q -> Q -> Q) (ai : AiState) (rightWrist : Landmark) : Q :=
  match lastPos ai with
  | Some lp => hypot (lm_x rightWrist - rx lp) (lm_y rightWrist - ry lp)
  | None => 0
  end.

(** ** Concrete inputs used by the examples *)

(** A matrix whose pixels all have one value. *)
Definition flat (h w v : Z) : Mat :=
  {| rows := h; cols := w; px := fun _ _ => v; isDeleted := false |}.

(** A blur with a 1x1 kernel: every pixel keeps its value. *)
Definition noBlur : Z -> Mat -> Z -> Z -> Z := fun _ m => px m.

Definition controllerIn (s : LogicState) (start timer : Q) : Controller :=
  {| logicState := s; cycleStartTime := start; cooldownTimer := timer;
     visualState := Ready |}.

Definition feed (s t : Q) : LogicInput :=
  {| in_ai := initialAiState; in_clock := 0; in_score := s; in_time := t |}.

(** What the controller's state promises about the start of the next
    cycle it can emit, when no later timestamp is below [lo]. *)
Definition nextStartAfter (c : Controller) (lo : Q) (cs : list Cycle) : Prop :=
  match cs with
  | [] => True
  | b :: _ =>
      match logicState c with
      | IDLE => lo <= startTime b
      | TRIGGERED => cycleStartTime c <= startTime b \/ lo <= startTime b
      | COOLDOWN => cooldownTimer c < startTime b
      end
  end.


(** Two work cycles: the score rises at 1 s and 4.2 s and falls at 2.5 s
    and 5.5 s. *)
Definition twoCycles : list LogicInput :=
  [feed 0.5 1; feed 0 2.5; feed 0 4.1; feed 0.5 4.2; feed 0 5.5].

(** A frame at video time [t] showing [g], on which template matching
    answers [m] wherever it searches. *)
Definition frameWith (t : Q) (g : Mat) (m : option MinMax) : Frame :=
  {| now := t * 1000; clock := 0; videoTime := t; paused := false; gray := g;
     matchTemplate := fun _ _ => m; dataUrl := fun _ => "thumb"%string |}.

Definition anchorBox : Rect := {| rect_x := 100; rect_y := 80; width := 20; height := 20 |}.

Definition weakMatch : option MinMax :=
  Some {| maxVal := 0.5; maxLoc := {| x := 3; y := 4 |} |}.

Definition goodMatch : option MinMax :=
  Some {| maxVal := 0.9; maxLoc := {| x := 53; y := 48 |} |}.

Definition trackerAt (ox oy : Q) (lost : bool) : Tracker :=
  {| trackingOffset := {| x := ox; y := oy |}; isTrackingLost := lost |}.

Definition zone : Rect := {| rect_x := 10; rect_y := 10; width := 4; height := 4 |}.

Definition origin : Point := {| x := 0; y := 0 |}.

(** A frame that is dark except for a bright block of 2 x 4 pixels in the
    upper half of [zone]. *)
Definition halfLit : Mat :=
  {| rows := 48; cols := 64;
     px := fun r c => if ((10 <=? r) && (r <? 12) && (10 <=? c) && (c <? 14))%Z
                      then 200%Z else 0%Z;
     isDeleted := false |}.

(** The sum of the absolute coordinates; it is the Euclidean length that
    [Math.hypot] returns whenever one of the two coordinates is 0. *)
Definition hypotOnAxis (a b : Q) : Q := Qabs a + Qabs b.

Definition landmark (px py : Q) : Landmark := {| lm_x := px; lm_y := py; visibility := 1 |}.

(** A pose with the nose at the centre of the image and both wrists at
    the height of the nose, at the given abscissas. *)
Definition poseWith (leftX rightX : Q) : list Landmark :=
  landmark 0.5 0.5 :: repeat (landmark 0.5 0.5) 14
    ++ [landmark leftX 0.5; landmark rightX 0.5].

Definition aiAfter (leftX rightX : Q) : AiState :=
  {| currentAction := AIAction.IDLE; confidence := 0; landmarks := [];
     leftHandVel := 0; rightHandVel := 0;
     lastPos := Some {| lx := leftX; ly := 0.5; rx := rightX; ry := 0.5 |} |}.

Definition zoneStep : TriggerStep :=
  {| step_id := "start"; name := "Work Zone"; rect := zone;
     isActive := false; hitCount := 0 |}.

(** The analyzer in running mode on [zoneStep], with a dark reference
    model and an anchor template, tracking at [tr]. *)
Definition armed (tr : Tracker) : Analyzer :=
  {| ui := {| isCvReady := true; mode := running; setupSubMode := none;
              refImages := {| ref_start := Some "thumb"%string; ref_end := None;
                              ref_anchor := Some "thumb"%string |};
              drawingRect := None; dragStart := None; draggingStepId := None;
              dragOffset := origin; anchorRect := Some anchorBox;
              triggerSteps := [zoneStep] |};
     engine := {| startRefMat := Some (flat 4 4 0); endRefMat := None;
                  anchorMat := Some (flat 20 20 0);
                  tracker := tr;
                  signalState := {| raw := 0; smooth := 0; prevSmooth := 0 |};
                  controller := controllerIn IDLE 0 0;
                  lastProcessTime := 0;
                  aiState := initialAiState |} |}.

(** The analyzer in setup mode right after the zone was drawn. *)
Definition zoneDrawn : Analyzer :=
  {| ui := {| isCvReady := true; mode := setup; setupSubMode := none;
              refImages := {| ref_start := None; ref_end := None; ref_anchor := None |};
              drawingRect := None; dragStart := None; draggingStepId := None;
              dragOffset := origin; anchorRect := None;
              triggerSteps := [zoneStep] |};
     engine := initialEngine |}.

(** The reference is captured on a dark frame. *)
Definition referenceCaptured : Analyzer :=
  fst (captureReference noBlur target_start zoneDrawn
         (FrameOk (frameWith 0 (flat 48 64 0) None))).

(** The user presses the mouse inside the zone to drag it. *)
Definition dragStarted : Analyzer :=
  handleMouseDown referenceCaptured {| x := 12; y := 12 |}.

(** A frame at wall-clock time [ms] and video time [t]. *)
Definition frameAt (ms t : Q) (g : Mat) (m : option MinMax) : Frame :=
  {| now := ms; clock := 0; videoTime := t; paused := false; gray := g;
     matchTemplate := fun _ _ => m; dataUrl := fun _ => "thumb"%string |}.

(** Scores in the unit interval. *)
Definition unitSignal (s : SignalState) : Prop :=
  (0 <= raw s /\ raw s <= 1) /\
  (0 <= smooth s /\ smooth s <= 1) /\
  (0 <= prevSmooth s /\ prevSmooth s <= 1).

(** * Further code of the repository

    [mapScreenToVideo] of [utils/geometry.ts], the risk score and the
    history sampling of [components/ErgonomicsAnalysis.tsx], the cycle
    handler of [App.tsx], and the analyzer's handlers assembled into
    sessions. *)

(** ** utils/geometry.ts: mapScreenToVideo *)

(** The video element: its bounding client rectangle and the size of the
    video it shows. *)
Record VideoElement := {
  el_left : Q;
  el_top : Q;
  el_width : Q;
  el_height : Q;
  videoWidth : Q;
  videoHeight : Q
}.

(** The displayed size of the video content and its letterbox offsets,
    as [mapScreenToVideo] computes them: (displayWidth, displayHeight,
    offsetX, offsetY). *)
Definition displayBox (videoElement : VideoElement) : Q * Q * Q * Q :=
  let videoRatio := videoWidth videoElement / videoHeight videoElement in
  let elementRatio := el_width videoElement / el_height videoElement in
  if elementRatio >? videoRatio then
    let displayWidth := el_height videoElement * videoRatio in
    (displayWidth, el_height videoElement,
     (el_width videoElement - displayWidth) / 2, 0)
  else
    let displayHeight := el_width videoElement / videoRatio in
    (el_width videoElement, displayHeight,
     0, (el_height videoElement - displayHeight) / 2).

Definition mapScreenToVideo (screenX screenY : Q) (videoElement : VideoElement) : Point :=
  let '(displayWidth, displayHeight, offsetX, offsetY) := displayBox videoElement in
  let relativeX := screenX - el_left videoElement - offsetX in
  let relativeY := screenY - el_top videoElement - offsetY in
  let scaleX := videoWidth videoElement / displayWidth in
  let scaleY := videoHeight videoElement / displayHeight in
  {| x := Qmax 0 (Qmin (videoWidth videoElement) (relativeX * scaleX));
     y := Qmax 0 (Qmin (videoHeight videoElement) (relativeY * scaleY)) |}.

(** ** components/ErgonomicsAnalysis.tsx *)

Inductive RiskLevel := Low | Medium | High | VeryHigh.

Record ErgoFrame := {
  timestamp : Q;
  neckAngle : Q;
  trunkAngle : Q;
  upperArmAngle : Q;
  score : Z;
  riskLevel : RiskLevel
}.

(** [Math.round]: the nearest integer, halves upwards. *)
Definition Math_round (q : Q) : Z := Qfloor (q + 0.5).

Definition neckScoreOf (neck : Q) : Z :=
  if (neck >? 10) && Qleb neck 20 then 2%Z
  else if neck >? 20 then 3%Z
  else 1%Z.

Definition trunkScoreOf (trunk : Q) : Z :=
  if (trunk >? 0) && Qleb trunk 20 then 2%Z
  else if (trunk >? 20) && Qleb trunk 60 then 3%Z
  else if trunk >? 60 then 4%Z
  else 1%Z.

Definition armScoreOf (upperArm : Q) : Z :=
  if (upperArm >? 20) && Qleb upperArm 45 then 2%Z
  else if (upperArm >? 45) && Qleb upperArm 90 then 3%Z
  else if upperArm >? 90 then 4%Z
  else 1%Z.

Definition levelOf (total : Z) : RiskLevel :=
  let level := Low in
  let level := if ((3 <=? total) && (total <=? 4))%Z then Medium else level in
  let level := if ((5 <=? total) && (total <=? 6))%Z then High else level in
  let level := if (7 <=? total)%Z then VeryHigh else level in
  level.

Definition calculateRiskScore (neck trunk upperArm : Q) : Z * RiskLevel :=
  let neckScore := neckScoreOf neck in
  let trunkScore := trunkScoreOf trunk in
  let armScore := armScoreOf upperArm in
  let total :=
    Z.min 7 (Math_round ((inject_Z neckScore * 1.5) + inject_Z trunkScore
                         + (inject_Z armScore * 1.2))) in
  (total, levelOf total).

(** The updater [onResults] passes to [setErgoData] while the video
    plays: a frame closer than 0.2 s to the last recorded one is dropped. *)
Definition recordSample (prev : list ErgoFrame) (frameData : ErgoFrame) : list ErgoFrame :=
  match prev with
  | [] => prev ++ [frameData]
  | _ :: _ =>
      if Qabs (timestamp (last prev frameData) - timestamp frameData) <? 0.2
      then prev
      else prev ++ [frameData]
  end.

(** ** App.tsx: handleCycleComplete *)

Module Activity.
Inductive ActivityType := Operation | Transport | Inspection | Delay | Hold.
End Activity.

Record WorkStudyRound := {
  ht : Q;
  wt : Q;
  mt : Q;
  total : Q;
  round_startTime : option Q;
  round_endTime : option Q
}.

Record WorkStudyTask := {
  task_id : string;
  task_name : string;
  description : option string;
  rounds : list (option WorkStudyRound);
  activity : Activity.ActivityType;
  rating : Q;
  allowance : Q;
  thumbnail : option string
}.

Record AppState := {
  cycles : list Cycle;
  workStudyTasks : list WorkStudyTask;
  activeStationMapping : nat
}.

(** [arr.slice(-n)] *)
Definition sliceLast {A} (n : nat) (l : list A) : list A :=
  skipn (List.length l - n) l.

(** [r => r !== null && r !== undefined] *)
Definition present {A} (r : option A) : bool :=
  match r with Some _ => true | None => false end.

Fixpoint replaceAt {A} (i : nat) (v : A) (l : list A) : list A :=
  match l, i with
  | [], _ => []
  | _ :: rest, O => v :: rest
  | a :: rest, S j => a :: replaceAt j v rest
  end.

Definition roundOfCycle (cycle : Cycle) : WorkStudyRound :=
  {| ht := duration cycle; wt := 0; mt := 0; total := duration cycle;
     round_startTime := Some (startTime cycle);
     round_endTime := Some (endTime cycle) |}.

Definition handleCycleComplete (app : AppState) (cycle : Cycle) : AppState :=
  {| cycles := cycles app ++ [cycle];
     workStudyTasks :=
       match nth_error (workStudyTasks app) (activeStationMapping app) with
       | Some task =>
           let newRound := roundOfCycle cycle in
           let currentRounds := filter present (rounds task) in
           let updatedRounds := sliceLast 20 (currentRounds ++ [Some newRound]) in
           replaceAt (activeStationMapping app)
             {| task_id := task_id task; task_name := task_name task;
                description := description task;
                rounds := updatedRounds;
                activity := activity task; rating := rating task;
                allowance := allowance task; thumbnail := thumbnail task |}
             (workStudyTasks app)
       | None => workStudyTasks app
       end;
     activeStationMapping := activeStationMapping app |}.

(** The analyzer's [onCycleComplete] events delivered to the application. *)
Definition deliverCycles (app : AppState) (cs : list Cycle) : AppState :=
  fold_left handleCycleComplete cs app.

(** ** A session of the component *)

(** What can happen to a mounted [VideoAnalyzer]: an animation frame, a
    pose result, the three mouse events on the canvas, the toolbar
    buttons, OpenCV becoming available and a change of the video source. *)
Inductive Action :=
| Tick (f : Frame)
| PoseResult (poseLandmarks : option (list Landmark))
| MouseDown (pt : Point)
| MouseMove (pt : Point)
| MouseUp
| CaptureClick (t : Target) (read : FrameRead)
| SubModeClick (m : SetupSubMode)
| ArmClick
| CvLoaded
| VideoSrcChange (videoSrc : option string).

Definition set_aiState (e : Engine) (a : AiState) : Engine :=
  {| startRefMat := startRefMat e; endRefMat := endRefMat e; anchorMat := anchorMat e;
     tracker := tracker e; signalState := signalState e;
     controller := controller e; lastProcessTime := lastProcessTime e;
     aiState := a |}.

Definition set_setupSubMode (u : UI) (m : SetupSubMode) : UI :=
  {| isCvReady := isCvReady u; mode := mode u; setupSubMode := m;
     refImages := refImages u;
     drawingRect := drawingRect u; dragStart := dragStart u;
     draggingStepId := draggingStepId u; dragOffset := dragOffset u;
     anchorRect := anchorRect u; triggerSteps := triggerSteps u |}.

Definition set_isCvReady (u : UI) (b : bool) : UI :=
  {| isCvReady := b; mode := mode u; setupSubMode := setupSubMode u;
     refImages := refImages u;
     drawingRect := drawingRect u; dragStart := dragStart u;
     draggingStepId := draggingStepId u; dragOffset := dragOffset u;
     anchorRect := anchorRect u; triggerSteps := triggerSteps u |}.

Section Session.

Variable hypot : Q -> Q -> Q.
Variable blurPx : Z -> Mat -> Z -> Z -> Z.
Variables (sensitivity taktTime : Q).

(** The capture and sub-mode buttons are rendered in setup mode only. *)
Definition step (st : Analyzer) (a : Action) : Analyzer * list Event :=
  match a with
  | Tick f => processFrame blurPx sensitivity taktTime st f
  | PoseResult lm =>
      ({| ui := ui st;
          engine := set_aiState (engine st) (onPoseResults hypot (aiState (engine st)) lm) |},
       [])
  | MouseDown pt => (handleMouseDown st pt, [])
  | MouseMove pt => (handleMouseMove st pt, [])
  | MouseUp => (handleMouseUp st, [])
  | CaptureClick t read =>
      match mode (ui st) with
      | setup => captureReference blurPx t st read
      | running => (st, [])
      end
  | SubModeClick m =>
      match mode (ui st) with
      | setup => ({| ui := set_setupSubMode (ui st) m; engine := engine st |}, [])
      | running => (st, [])
      end
  | ArmClick => onArmClick st
  | CvLoaded => ({| ui := set_isCvReady (ui st) true; engine := engine st |}, [])
  | VideoSrcChange videoSrc => resetOnVideoSrc videoSrc st
  end.

Fixpoint session (st : Analyzer) (acts : list Action) : Analyzer * list Event :=
  match acts with
  | [] => (st, [])
  | a :: rest =>
      let '(st1, evs1) := step st a in
      let '(st2, evs2) := session st1 rest in
      (st2, evs1 ++ evs2)
  end.

End Session.

Definition initialAnalyzer (steps : list TriggerStep) : Analyzer :=
  {| ui := initialUI steps; engine := initialEngine |}.

Definition isAnchorCapture (a : Action) : bool :=
  match a with
  | CaptureClick target_anchor _ => true
  | _ => false
  end.

(** The thumbnail of the reference stands for a live reference matrix. *)
Definition thumbnailBacked (st : Analyzer) : Prop :=
  truthy (ref_start (refImages (ui st))) = true ->
  exists m, startRefMat (engine st) = Some m /\ isDeleted m = false.

(** Tracking is lost and there is no template to find it again with. *)
Definition lostForGood (st : Analyzer) : Prop :=
  anchorMat (engine st) = None /\ isTrackingLost (tracker (engine st)) = true.

(** ** Concrete sessions used by the examples *)

(** The armed analyzer after the video source changed while tracking was
    lost. *)
Definition lostThenReset : Analyzer :=
  fst (resetOnVideoSrc (Some "b.mp4"%string) (armed (trackerAt 0 0 true))).

(** Drawing a zone on the new video, capturing its reference, arming and
    playing a frame that changes the whole zone, then frames that show the
    reference again. *)
Definition reconfigure : list Action :=
  [SubModeClick start_roi;
   MouseDown {| x := 10; y := 10 |}; MouseMove {| x := 30; y := 30 |}; MouseUp;
   CaptureClick target_start (FrameOk (frameAt 0 0 (flat 480 640 0) None));
   ArmClick;
   Tick (frameAt 1000 1 (flat 480 640 200) None);
   Tick (frameAt 3000 3 (flat 480 640 0) None);
   Tick (frameAt 4000 4 (flat 480 640 0) None);
   Tick (frameAt 5000 5 (flat 480 640 0) None);
   Tick (frameAt 6000 6 (flat 480 640 0) None)].

(** Five frames one second apart: the zone is changed on the first one
    and back to the reference afterwards. *)
Definition oneWorkCycle : list Action :=
  [Tick (frameAt 1000 1 (flat 480 640 200) None);
   Tick (frameAt 2000 2 (flat 480 640 0) None);
   Tick (frameAt 3000 3 (flat 480 640 0) None);
   Tick (frameAt 4000 4 (flat 480 640 0) None);
   Tick (frameAt 5000 5 (flat 480 640 0) None)].

(** The analyzer in running mode on [zoneStep] with a dark reference
    model and no anchor. *)
Definition armedPlain : Analyzer :=
  {| ui := {| isCvReady := true; mode := running; setupSubMode := none;
              refImages := {| ref_start := Some "thumb"%string; ref_end := None;
                              ref_anchor := None |};
              drawingRect := None; dragStart := None; draggingStepId := None;
              dragOffset := origin; anchorRect := None;
              triggerSteps := [zoneStep] |};
     engine := {| startRefMat := Some (flat 4 4 0); endRefMat := None;
                  anchorMat := None;
                  tracker := trackerAt 0 0 false;
                  signalState := {| raw := 0; smooth := 0; prevSmooth := 0 |};
                  controller := controllerIn IDLE 0 0;
                  lastProcessTime := 0;
                  aiState := initialAiState |} |}.

Definition theWorkCycle : Cycle :=
  {| id := 0; startTime := 1; endTime := 5; duration := 5 - 1;
     status := ok; aiLabel := Some Operation |}.

(** The rectangle spanned by the point where a drawing gesture started
    and the pointer. *)
Definition spanned (p q : Point) : Rect :=
  {| rect_x := Qmin (x q) (x p); rect_y := Qmin (y q) (y p);
     width := Qabs (x q - x p); height := Qabs (y q - y p) |}.

(** The grip of a drag: where inside the zone the mouse was pressed. *)
Definition grip (p : Point) (s : TriggerStep) : Point :=
  {| x := x p - rect_x (rect s); y := y p - rect_y (rect s) |}.

(** A zone drawn with a horizontal drag: 30 px wide and 0 px high. *)
Definition flatStep : TriggerStep :=
  {| step_id := "start"; name := "Work Zone";
     rect := spanned {| x := 10; y := 10 |} {| x := 40; y := 10 |};
     isActive := false; hitCount := 0 |}.

Definition flatZoneDrawn : Analyzer :=
  handleMouseUp
    (handleMouseMove
       (handleMouseDown
          {| ui := set_setupSubMode (initialUI []) start_roi; engine := initialEngine |}
          {| x := 10; y := 10 |})
       {| x := 40; y := 10 |}).

(** The anchor's last known position. *)
Definition lastKnown (ar : Rect) (offset : Point) : Point :=
  {| x := rect_x ar + x offset; y := rect_y ar + y offset |}.

(** A 1280 x 720 video shown in an 800 x 600 element at (100, 50). *)
Definition letterboxed : VideoElement :=
  {| el_left := 100; el_top := 50; el_width := 800; el_height := 600;
     videoWidth := 1280; videoHeight := 720 |}.

(** Where the video pixel (vx, vy) is drawn on the screen. *)
Definition screenOf (videoElement : VideoElement) (vx vy : Q) : Q * Q :=
  let '(displayWidth, displayHeight, offsetX, offsetY) := displayBox videoElement in
  (el_left videoElement + offsetX + vx * displayWidth / videoWidth videoElement,
   el_top videoElement + offsetY + vy * displayHeight / videoHeight videoElement).

Definition positiveSize (videoElement : VideoElement) : Prop :=
  0 < el_width videoElement /\ 0 < el_height videoElement /\
  0 < videoWidth videoElement /\ 0 < videoHeight videoElement.

(** What the classifier needs of [Math.hypot]: it is never negative, and
    it is 0 at (0, 0). *)
Definition hypotLike (hypot : Q -> Q -> Q) : Prop :=
  (forall a b, 0 <= hypot a b) /\
  (forall a b, a == 0 -> b == 0 -> hypot a b == 0).

Definition saneAi (ai : AiState) : Prop :=
  0 <= leftHandVel ai /\ 0 <= rightHandVel ai /\
  0 <= confidence ai /\ confidence ai <= 1.

(** The same pose reported [n] more times. *)
Fixpoint repeatPose (hypot : Q -> Q -> Q) (n : nat) (lm : list Landmark) (ai : AiState)
  : AiState :=
  match n with
  | O => ai
  | S k => repeatPose hypot k lm (onPoseResults hypot ai (Some lm))
  end.

(** Recorded samples are at least 0.2 s apart. *)
Fixpoint gapped (l : list ErgoFrame) : Prop :=
  match l with
  | [] => True
  | a :: rest =>
      match rest with
      | [] => True
      | b :: _ => 0.2 <= Qabs (timestamp a - timestamp b)
      end /\ gapped rest
  end.

Definition sampleAt (t : Q) : ErgoFrame :=
  {| timestamp := t; neckAngle := 0; trunkAngle := 0; upperArmAngle := 0;
     score := 4; riskLevel := Medium |}.

Definition taskWith (rs : list (option WorkStudyRound)) : WorkStudyTask :=
  {| task_id := "t1"; task_name := "Task 1"; description := None; rounds := rs;
     activity := Activity.Operation; rating := 100; allowance := 10;
     thumbnail := None |}.

Definition cycleOf (s e : Q) : Cycle :=
  {| id := 0; startTime := s; endTime := e; duration := e - s;
     status := ok; aiLabel := Some Operation |}.

(** The rounds the application derives from a list of cycles. *)
Definition roundsOf (cs : list Cycle) : list (option WorkStudyRound) :=
  map (fun c => Some (roundOfCycle c)) cs.

(** A drag that never ended: the mouse was pressed on the zone and
    released outside the canvas, then a drawing tool was selected. *)
Definition stuckDrag (tool : SetupSubMode) : Analyzer :=
  {| ui := set_setupSubMode (ui dragStarted) tool; engine := engine dragStarted |}.

(** * Properties *)

(** ** Comparisons *)

Lemma Qltb_true (a b : Q) : (a <? b) = true <-> a < b.
Proof.
  unfold Qltb. rewrite negb_true_iff. split.
  - intros H. apply Qnot_le_lt. intros Hle.
    apply Qle_bool_iff in Hle. congruence.
  - intros H. destruct (Qle_bool b a) eqn:E; [|reflexivity].
    apply Qle_bool_iff in E. exfalso. apply (Qlt_not_le _ _ H E).
Qed.

Lemma Qltb_false (a b : Q) : (a <? b) = false <-> b <= a.
Proof.
  unfold Qltb. rewrite negb_false_iff. apply Qle_bool_iff.
Qed.

Lemma Qltb_spec (a b : Q) : BoolSpec (a < b) (b <= a) (a <? b).
Proof.
  destruct (a <? b) eqn:E; constructor.
  - now apply Qltb_true.
  - now apply Qltb_false.
Qed.

(** ** Thresholds *)

Lemma highThreshold_floor (sensitivity : Q) : 0.01 <= highThreshold sensitivity.
Proof. unfold highThreshold. apply Q.le_max_l. Qed.

(** C3: for every sensitivity the thresholds the component computes are
    the ones of the specification, [max(0.01, 0.35 - sensitivity*0.02)]
    and [0.6] times it, and [0 < lowThreshold < highThreshold]. *)
Theorem thresholds_hysteresis (sensitivity : Q) :
  highThreshold sensitivity == spec_highThreshold sensitivity /\
  lowThreshold sensitivity == spec_lowThreshold sensitivity /\
  0 < lowThreshold sensitivity /\
  lowThreshold sensitivity < highThreshold sensitivity.
Proof.
  pose proof (highThreshold_floor sensitivity) as Hf.
  unfold spec_lowThreshold, spec_highThreshold, lowThreshold in *.
  fold (highThreshold sensitivity).
  repeat split; try reflexivity; lra.
Qed.

Example thresholds_at_6 :
  Qred (highThreshold 6) = 0.23 /\ Qred (lowThreshold 6) = Qred 0.138.
Proof. split; reflexivity. Qed.

Example thresholds_at_20 :
  Qred (highThreshold 20) = Qred 0.01 /\ Qred (lowThreshold 20) = Qred 0.006.
Proof. split; reflexivity. Qed.

(** ** The logic controller, one frame *)

Ltac step_logic :=
  unfold processLogic;
  repeat match goal with
         | |- context [match logicState ?c with _ => _ end] =>
             destruct (logicState c) eqn:?
         | |- context [if ?a <? ?b then _ else _] =>
             destruct (Qltb_spec a b)
         end; cbn [fst snd cyclesOf logicState cycleStartTime cooldownTimer].

(** What one frame does, by the state it finds. *)
Lemma processLogic_idle sens takt ai clk c s t :
  logicState c = IDLE ->
  processLogic sens takt ai clk c s t =
    if s >? highThreshold sens
    then ({| logicState := TRIGGERED; cycleStartTime := t;
             cooldownTimer := cooldownTimer c; visualState := WorkStarted |},
          [OnStatusUpdate CycleStarted])
    else (c, []).
Proof. intros H. unfold processLogic. now rewrite H. Qed.

Lemma processLogic_cooldown sens takt ai clk c s t :
  logicState c = COOLDOWN ->
  processLogic sens takt ai clk c s t =
    if t >? cooldownTimer c
    then ({| logicState := IDLE; cycleStartTime := cycleStartTime c;
             cooldownTimer := cooldownTimer c; visualState := Ready |}, [])
    else (c, []).
Proof. intros H. unfold processLogic. now rewrite H. Qed.

(** Every cycle a frame emits comes from the TRIGGERED state, on a score
    below the low threshold after more than the minimum cycle time, and
    is built from the controller's start time and the frame's timestamp. *)
Lemma processLogic_emits sens takt ai clk c s t cy :
  In cy (cyclesOf (snd (processLogic sens takt ai clk c s t))) ->
  logicState c = TRIGGERED /\
  s < lowThreshold sens /\
  CV_CONFIG.MIN_CYCLE_TIME < t - cycleStartTime c /\
  cy = {| id := clk; startTime := cycleStartTime c; endTime := t;
          duration := t - cycleStartTime c;
          status := if (t - cycleStartTime c) >? takt then over else ok;
          aiLabel := Some (cycleLabel (currentAction ai)) |} /\
  cyclesOf (snd (processLogic sens takt ai clk c s t)) = [cy] /\
  logicState (fst (processLogic sens takt ai clk c s t)) = COOLDOWN /\
  cooldownTimer (fst (processLogic sens takt ai clk c s t)) = t + 1.5.
Proof.
  step_logic; cbn; intros Hin; try contradiction;
    destruct Hin as [<- | []]; repeat split; assumption.
Qed.

(** C1 (as amended): the controller is the machine of the specification.
    IDLE and a score above the high threshold: TRIGGERED, start time
    recorded, nothing emitted.  TRIGGERED, a score below the low threshold
    and more than MIN_CYCLE_TIME elapsed: exactly one cycle with the
    recorded start, the frame's time as end and their difference as
    duration, then COOLDOWN with the timer at t + 1.5.  COOLDOWN past the
    timer: IDLE, nothing emitted.  TRIGGERED, a score below the low
    threshold and at most MIN_CYCLE_TIME elapsed: back to IDLE, nothing
    emitted.  Any other frame keeps the state and emits nothing. *)
Theorem processLogic_machine sens takt ai clk c s t :
  let r := processLogic sens takt ai clk c s t in
  (logicState c = IDLE -> highThreshold sens < s ->
     logicState (fst r) = TRIGGERED /\ cycleStartTime (fst r) = t /\
     cyclesOf (snd r) = []) /\
  (logicState c = TRIGGERED -> s < lowThreshold sens ->
   CV_CONFIG.MIN_CYCLE_TIME < t - cycleStartTime c ->
     (exists cy, cyclesOf (snd r) = [cy] /\
        startTime cy = cycleStartTime c /\ endTime cy = t /\
        duration cy = t - cycleStartTime c) /\
     logicState (fst r) = COOLDOWN /\ cooldownTimer (fst r) = t + 1.5) /\
  (logicState c = COOLDOWN -> cooldownTimer c < t ->
     logicState (fst r) = IDLE /\ cyclesOf (snd r) = []) /\
  (falseTrigger sens c s t ->
     logicState (fst r) = IDLE /\ cyclesOf (snd r) = []) /\
  (~ forwardTransition sens c s t -> ~ falseTrigger sens c s t ->
     logicState (fst r) = logicState c /\ cyclesOf (snd r) = []).
Proof.
  unfold forwardTransition, falseTrigger. cbv zeta.
  step_logic; cbn; repeat split; intros;
    repeat match goal with
           | H : _ /\ _ |- _ => destruct H
           end;
    try congruence; try (exfalso; lra); try reflexivity;
    try solve [eexists; repeat split];
    try solve [exfalso;
               match goal with
               | H : ~ _ |- _ => apply H; solve [auto 6]
               end].
Qed.

Lemma processLogic_machine_witness :
  let c := controllerIn TRIGGERED 1 0 in
  let r := processLogic 6 10 initialAiState 7 c 0 3 in
  (exists cy, cyclesOf (snd r) = [cy] /\
     startTime cy = 1 /\ endTime cy = 3 /\ duration cy = 3 - 1) /\
  logicState (fst r) = COOLDOWN /\ cooldownTimer (fst r) = 3 + 1.5.
Proof.
  exact (proj1 (proj2 (processLogic_machine 6 10 initialAiState 7
                         (controllerIn TRIGGERED 1 0) 0 3))
               eq_refl eq_refl eq_refl).
Defined.

(** C1 (as stated) fails: a TRIGGERED frame whose score is below the low
    threshold only 0.5 s after the start is none of the three listed
    transitions, and it changes the state (to IDLE). *)
Lemma false_trigger_changes_state :
  let c := controllerIn TRIGGERED 0 0 in
  ~ forwardTransition 6 c 0 0.5 /\
  logicState (fst (processLogic 6 10 initialAiState 0 c 0 0.5)) = IDLE /\
  logicState (fst (processLogic 6 10 initialAiState 0 c 0 0.5)) <> logicState c.
Proof.
  cbv zeta. split; [|split].
  - unfold forwardTransition. cbn.
    intros [[H _] | [[_ [_ H]] | [H _]]]; discriminate.
  - reflexivity.
  - discriminate.
Qed.

(** ** The logic controller, whole runs *)

Lemma cyclesOf_app (a b : list Event) : cyclesOf (a ++ b) = cyclesOf a ++ cyclesOf b.
Proof.
  induction a as [|e a IH]; [reflexivity|].
  destruct e; cbn; now rewrite IH.
Qed.

Lemma runLogic_cons sens takt c i rest :
  runLogic sens takt c (i :: rest) =
    let p := processLogic sens takt (in_ai i) (in_clock i) c (in_score i) (in_time i) in
    let q := runLogic sens takt (fst p) rest in
    (fst q, snd p ++ snd q).
Proof.
  cbn [runLogic].
  destruct (processLogic sens takt (in_ai i) (in_clock i) c (in_score i) (in_time i))
    as [c1 evs1].
  cbn. now destruct (runLogic sens takt c1 rest).
Qed.

(** A cycle of a run was emitted by one of its frames. *)
Lemma runLogic_emitted sens takt ins : forall c cy,
  In cy (cyclesOf (snd (runLogic sens takt c ins))) ->
  exists c1 i, In i ins /\
    In cy (cyclesOf (snd (processLogic sens takt (in_ai i) (in_clock i) c1
                                       (in_score i) (in_time i)))).
Proof.
  induction ins as [|i rest IH]; intros c cy Hin.
  - contradiction.
  - rewrite runLogic_cons in Hin. cbn [snd] in Hin.
    rewrite cyclesOf_app in Hin. apply in_app_or in Hin as [Hin | Hin].
    + exists c, i. split; [now left | exact Hin].
    + destruct (IH _ _ Hin) as (c1 & j & Hj & Hcy).
      exists c1, j. split; [now right | exact Hcy].
Qed.

(** C2: whatever the frames, no emitted cycle is shorter than
    MIN_CYCLE_TIME (each is longer); and a TRIGGERED frame whose score is
    below the low threshold with at most MIN_CYCLE_TIME elapsed returns
    the controller to IDLE and emits no cycle. *)
Theorem minimum_duration sens takt :
  (forall c ins cy,
     In cy (cyclesOf (snd (runLogic sens takt c ins))) ->
     ~ duration cy < CV_CONFIG.MIN_CYCLE_TIME /\
     CV_CONFIG.MIN_CYCLE_TIME < duration cy) /\
  (forall ai clk c s t,
     logicState c = TRIGGERED ->
     s < lowThreshold sens ->
     t - cycleStartTime c <= CV_CONFIG.MIN_CYCLE_TIME ->
     logicState (fst (processLogic sens takt ai clk c s t)) = IDLE /\
     snd (processLogic sens takt ai clk c s t) = []).
Proof.
  split.
  - intros c ins cy Hin.
    apply runLogic_emitted in Hin as (c1 & i & _ & Hin).
    apply processLogic_emits in Hin as (_ & _ & Hd & -> & _).
    cbn [duration]. split; [apply Qle_not_lt, Qlt_le_weak|]; exact Hd.
  - intros ai clk c s t Hst Hs Hd.
    unfold processLogic. rewrite Hst.
    destruct (Qltb_spec s (lowThreshold sens)); [|exfalso; lra].
    destruct (Qltb_spec CV_CONFIG.MIN_CYCLE_TIME (t - cycleStartTime c));
      [exfalso; lra|].
    split; reflexivity.
Qed.

Lemma minimum_duration_witness :
  let run := runLogic 6 10 (controllerIn IDLE 0 0)
               [feed 0.5 1; feed 0.5 2; feed 0 3.2] in
  (exists cy, In cy (cyclesOf (snd run)) /\
              ~ duration cy < CV_CONFIG.MIN_CYCLE_TIME /\
              CV_CONFIG.MIN_CYCLE_TIME < duration cy) /\
  logicState (fst (processLogic 6 10 initialAiState 0
                                (controllerIn TRIGGERED 1 0) 0 1.3)) = IDLE /\
  snd (processLogic 6 10 initialAiState 0 (controllerIn TRIGGERED 1 0) 0 1.3) = [].
Proof.
  cbv zeta. split.
  - eexists. split; [left; reflexivity|].
    apply (proj1 (minimum_duration 6 10) (controllerIn IDLE 0 0)
                 [feed 0.5 1; feed 0.5 2; feed 0 3.2]).
    left. reflexivity.
  - apply (proj2 (minimum_duration 6 10) initialAiState 0%Z
                 (controllerIn TRIGGERED 1 0) 0 1.3);
      reflexivity || (vm_compute; discriminate).
Defined.

(** C10: every emitted cycle has status ok or over, over exactly when its
    duration exceeds the takt time, and label Operation or Transport; a
    classification of IDLE when the cycle completes is recorded as
    Operation. *)
Theorem cycle_status_and_label sens takt :
  (forall c ins cy,
     In cy (cyclesOf (snd (runLogic sens takt c ins))) ->
     (status cy = ok \/ status cy = over) /\
     (status cy = over <-> takt < duration cy) /\
     (aiLabel cy = Some Operation \/ aiLabel cy = Some Transport)) /\
  (forall ai clk c s t cy,
     In cy (cyclesOf (snd (processLogic sens takt ai clk c s t))) ->
     currentAction ai = AIAction.IDLE ->
     aiLabel cy = Some Operation).
Proof.
  split.
  - intros c ins cy Hin.
    apply runLogic_emitted in Hin as (c1 & i & _ & Hin).
    apply processLogic_emits in Hin as (_ & _ & _ & -> & _).
    cbn [status duration aiLabel].
    destruct (Qltb_spec takt (in_time i - cycleStartTime c1)) as [Hlt | Hle].
    + repeat split; auto.
      destruct (currentAction (in_ai i)); cbn; auto.
    + repeat split; auto.
      * discriminate.
      * intros Hlt. exfalso. lra.
      * destruct (currentAction (in_ai i)); cbn; auto.
  - intros ai clk c s t cy Hin Hai.
    apply processLogic_emits in Hin as (_ & _ & _ & -> & _).
    cbn [aiLabel]. now rewrite Hai.
Qed.

Lemma cycle_status_and_label_witness :
  let run := runLogic 6 2 (controllerIn IDLE 0 0)
               [feed 0.5 1; feed 0.5 2; feed 0 3.2] in
  exists cy, In cy (cyclesOf (snd run)) /\
    (status cy = ok \/ status cy = over) /\
    (status cy = over <-> 2 < duration cy) /\
    (aiLabel cy = Some Operation \/ aiLabel cy = Some Transport) /\
    aiLabel cy = Some Operation.
Proof.
  cbv zeta. eexists. split; [left; reflexivity|].
  pose proof (proj1 (cycle_status_and_label 6 2) (controllerIn IDLE 0 0)
                [feed 0.5 1; feed 0.5 2; feed 0 3.2] _ (or_introl eq_refl)) as H.
  destruct H as (H1 & H2 & H3).
  split; [exact H1|]. split; [exact H2|]. split; [exact H3|].
  apply (proj2 (cycle_status_and_label 6 2) initialAiState 0%Z
               (controllerIn TRIGGERED 1 0) 0 3.2 _ (or_introl eq_refl) eq_refl).
Defined.

(** ** Ordering of the emitted cycles *)

Lemma nondecreasing_map_cons (i : LogicInput) (rest : list LogicInput) :
  nondecreasing (map in_time (i :: rest)) ->
  (forall j, In j rest -> in_time i <= in_time j) /\
  nondecreasing (map in_time rest).
Proof.
  cbn. intros [Hall Hrest]. split; [|exact Hrest].
  intros j Hj. apply Hall. now apply in_map.
Qed.

(** One frame, seen from the next cycle: either nothing is emitted and
    the promise of the new state (from the frame's time on) gives back the
    promise of the old one, or one cycle is emitted that keeps the old
    promise and lies a cooldown before whatever the new state emits. *)
Lemma processLogic_next sens takt ai clk c s t lo :
  lo <= t ->
  let r := processLogic sens takt ai clk c s t in
  (cyclesOf (snd r) = [] /\
   forall cs, nextStartAfter (fst r) t cs -> nextStartAfter c lo cs) \/
  (exists a, cyclesOf (snd r) = [a] /\
     nextStartAfter c lo [a] /\
     forall b rest, nextStartAfter (fst r) t (b :: rest) ->
       startTime a < startTime b /\ endTime a + 1.5 < startTime b).
Proof.
  intros Hlo. cbv zeta.
  step_logic; cbn [fst snd cyclesOf];
    unfold nextStartAfter;
    repeat match goal with
           | H : logicState _ = _ |- _ => rewrite H
           end;
    cbn [logicState cycleStartTime cooldownTimer startTime endTime];
    unfold CV_CONFIG.MIN_CYCLE_TIME in *.
  all: try (left; split; [reflexivity|];
            intros [|b rest]; [trivial|]; intros; intuition lra).
  all: right; eexists; split; [reflexivity|];
       cbn [startTime endTime];
       split; [left; lra | intros; lra].
Qed.

Lemma runLogic_spaced sens takt ins : forall c lo,
  nondecreasing (map in_time ins) ->
  (forall i, In i ins -> lo <= in_time i) ->
  spaced (cyclesOf (snd (runLogic sens takt c ins))) /\
  nextStartAfter c lo (cyclesOf (snd (runLogic sens takt c ins))).
Proof.
  induction ins as [|i rest IH]; intros c lo Hnd Hlo.
  - cbn. auto.
  - apply nondecreasing_map_cons in Hnd as [Hhead Hrest].
    assert (Hi : lo <= in_time i) by (apply Hlo; now left).
    rewrite runLogic_cons. cbv zeta. cbn [snd]. rewrite cyclesOf_app.
    pose proof (processLogic_next sens takt (in_ai i) (in_clock i) c
                  (in_score i) (in_time i) lo Hi) as Hstep.
    cbv zeta in Hstep.
    destruct (processLogic sens takt (in_ai i) (in_clock i) c (in_score i) (in_time i))
      as [c1 evs1]. cbn [fst snd] in *.
    destruct (IH c1 (in_time i) Hrest Hhead) as [Hsp Hnx].
    destruct Hstep as [[-> Hkeep] | (a & -> & Ha & Hgap)].
    + cbn [app]. split; [exact Hsp | now apply Hkeep].
    + cbn [app]. split; [|exact Ha].
      cbn [spaced]. split; [|exact Hsp].
      destruct (cyclesOf (snd (runLogic sens takt c1 rest))) as [|b more];
        [trivial | now apply (Hgap b more)].
Qed.

Lemma spaced_nth (cs : list Cycle) : spaced cs ->
  forall n a b, nth_error cs n = Some a -> nth_error cs (S n) = Some b ->
  startTime a < startTime b /\ endTime a + 1.5 < startTime b.
Proof.
  induction cs as [|c0 rest IH]; intros Hsp n a b Ha Hb.
  - destruct n; discriminate.
  - destruct Hsp as [Hhead Hsp]. destruct n as [|n].
    + cbn in Ha, Hb. injection Ha as <-.
      destruct rest as [|c1 rest']; [discriminate|].
      cbn in Hb. injection Hb as <-. exact Hhead.
    + cbn in Ha. apply (IH Hsp n a b Ha). exact Hb.
Qed.

(** C7: on a run whose timestamps never decrease, consecutive emitted
    cycles have strictly increasing start times, and the later one starts
    more than 1.5 s after the earlier one ended. *)
Theorem cycles_ordered sens takt c ins :
  nondecreasing (map in_time ins) ->
  forall n a b,
    nth_error (cyclesOf (snd (runLogic sens takt c ins))) n = Some a ->
    nth_error (cyclesOf (snd (runLogic sens takt c ins))) (S n) = Some b ->
    startTime a < startTime b /\ endTime a + 1.5 < startTime b.
Proof.
  intros Hnd.
  destruct ins as [|i rest].
  - intros n a b Ha. destruct n; discriminate.
  - apply spaced_nth.
    apply (runLogic_spaced sens takt (i :: rest) c (in_time i) Hnd).
    apply nondecreasing_map_cons in Hnd as [Hhead _].
    intros j [<- | Hj]; [apply Qle_refl | now apply Hhead].
Qed.

Lemma twoCycles_nondecreasing : nondecreasing (map in_time twoCycles).
Proof.
  cbn. repeat split; intros t' H;
    repeat (destruct H as [<- | H]; [vm_compute; discriminate|]);
    contradiction.
Defined.

Lemma cycles_ordered_witness :
  exists a b,
    nth_error (cyclesOf (snd (runLogic 6 10 (controllerIn IDLE 0 0) twoCycles))) 0
      = Some a /\
    nth_error (cyclesOf (snd (runLogic 6 10 (controllerIn IDLE 0 0) twoCycles))) 1
      = Some b /\
    startTime a < startTime b /\ endTime a + 1.5 < startTime b.
Proof.
  eexists. eexists. split; [reflexivity|]. split; [reflexivity|].
  apply (cycles_ordered 6 10 (controllerIn IDLE 0 0) twoCycles
           twoCycles_nondecreasing 0%nat); reflexivity.
Defined.

(** Scenario B of the specification: the score steps up at 1.0 s, is held
    until 3.0 s and drops; one cycle of 2.0 s comes out, ok for a takt
    time of 2.0 and over for a shorter one. *)
Example scenario_step_function :
  cyclesOf (snd (runLogic 7.5 2 (controllerIn IDLE 0 0)
                   [feed 0 0.5; feed 0.5 1; feed 0.5 2; feed 0 3; feed 0 4])) =
    [{| id := 0; startTime := 1; endTime := 3; duration := 3 - 1;
        status := ok; aiLabel := Some Operation |}] /\
  map status (cyclesOf (snd (runLogic 7.5 1.9 (controllerIn IDLE 0 0)
                   [feed 0 0.5; feed 0.5 1; feed 0.5 2; feed 0 3; feed 0 4]))) =
    [over].
Proof. split; reflexivity. Qed.

(** Scenario C: a spike of 0.3 s is a false trigger. *)
Example scenario_spike :
  runLogic 6 10 (controllerIn IDLE 0 0) [feed 0.5 1; feed 0 1.3] =
    ({| logicState := IDLE; cycleStartTime := 1; cooldownTimer := 0;
        visualState := FalseTrigger |}, [OnStatusUpdate CycleStarted]).
Proof. reflexivity. Qed.

(** ** The anchor tracker *)

Lemma trackAnchor_weak template ar f tr mm :
  matchTemplate f (searchWindow ar (trackingOffset tr) f) template = Some mm ->
  maxVal mm <= 0.6 ->
  trackAnchor (Some template) (Some ar) f tr =
    {| trackingOffset := trackingOffset tr; isTrackingLost := true |}.
Proof.
  intros Hm Hv. unfold trackAnchor. rewrite Hm.
  destruct (Qltb_spec 0.6 (maxVal mm)); [exfalso; lra | reflexivity].
Qed.

Lemma trackAnchor_good template ar f tr mm :
  matchTemplate f (searchWindow ar (trackingOffset tr) f) template = Some mm ->
  0.6 < maxVal mm ->
  trackAnchor (Some template) (Some ar) f tr =
    {| trackingOffset :=
         {| x := rect_x (searchWindow ar (trackingOffset tr) f) + x (maxLoc mm) - rect_x ar;
            y := rect_y (searchWindow ar (trackingOffset tr) f) + y (maxLoc mm) - rect_y ar |};
       isTrackingLost := false |}.
Proof.
  intros Hm Hv. unfold trackAnchor. rewrite Hm.
  destruct (Qltb_spec 0.6 (maxVal mm)); [reflexivity | exfalso; lra].
Qed.

Lemma runTracker_frozen template ar fs : forall tr off,
  trackingOffset tr = off ->
  (forall f, In f fs -> exists mm,
      matchTemplate f (searchWindow ar off f) template = Some mm /\ maxVal mm <= 0.6) ->
  trackingOffset (runTracker (Some template) (Some ar) tr fs) = off /\
  (fs <> [] -> isTrackingLost (runTracker (Some template) (Some ar) tr fs) = true).
Proof.
  induction fs as [|f rest IH]; intros tr off Hoff Hall.
  - split; [exact Hoff | congruence].
  - cbn [runTracker].
    destruct (Hall f (or_introl eq_refl)) as (mm & Hm & Hv).
    rewrite <- Hoff in Hm.
    rewrite (trackAnchor_weak _ _ _ _ _ Hm Hv).
    destruct (IH {| trackingOffset := trackingOffset tr; isTrackingLost := true |} off)
      as [Ho Hl]; [exact Hoff | intros g Hg; apply Hall; now right |].
    split; [exact Ho|]. intros _.
    destruct rest as [|g rest']; [reflexivity | apply Hl; discriminate].
Qed.

(** C5: on a frame whose best correlation does not exceed 0.6 the tracker
    keeps the offset it had and raises the lost flag; on a frame whose
    correlation exceeds 0.6 the offset becomes the found position minus
    the anchor's original position and the flag is cleared; after any
    number of consecutive frames below the threshold the offset is still
    the one before them, and the flag is up. *)
Theorem tracking_fallback template ar :
  (forall f tr mm,
     matchTemplate f (searchWindow ar (trackingOffset tr) f) template = Some mm ->
     (maxVal mm <= 0.6 ->
        trackingOffset (trackAnchor (Some template) (Some ar) f tr) = trackingOffset tr /\
        isTrackingLost (trackAnchor (Some template) (Some ar) f tr) = true) /\
     (0.6 < maxVal mm ->
        trackingOffset (trackAnchor (Some template) (Some ar) f tr) =
          {| x := rect_x (searchWindow ar (trackingOffset tr) f) + x (maxLoc mm) - rect_x ar;
             y := rect_y (searchWindow ar (trackingOffset tr) f) + y (maxLoc mm) - rect_y ar |} /\
        isTrackingLost (trackAnchor (Some template) (Some ar) f tr) = false)) /\
  (forall fs tr,
     fs <> [] ->
     (forall f, In f fs -> exists mm,
         matchTemplate f (searchWindow ar (trackingOffset tr) f) template = Some mm /\
         maxVal mm <= 0.6) ->
     trackingOffset (runTracker (Some template) (Some ar) tr fs) = trackingOffset tr /\
     isTrackingLost (runTracker (Some template) (Some ar) tr fs) = true).
Proof.
  split.
  - intros f tr mm Hm. split; intros Hv.
    + now rewrite (trackAnchor_weak _ _ _ _ _ Hm Hv).
    + now rewrite (trackAnchor_good _ _ _ _ _ Hm Hv).
  - intros fs tr Hne Hall.
    destruct (runTracker_frozen template ar fs tr (trackingOffset tr) eq_refl Hall)
      as [Ho Hl].
    split; [exact Ho | now apply Hl].
Qed.

Lemma tracking_fallback_witness :
  let g := flat 480 640 0 in
  let tr := trackerAt 3 (-2) false in
  (trackingOffset (trackAnchor (Some g) (Some anchorBox) (frameWith 1 g weakMatch) tr)
     = trackingOffset tr /\
   isTrackingLost (trackAnchor (Some g) (Some anchorBox) (frameWith 1 g weakMatch) tr)
     = true) /\
  (trackingOffset (trackAnchor (Some g) (Some anchorBox) (frameWith 1 g goodMatch) tr)
     = {| x := rect_x (searchWindow anchorBox (trackingOffset tr) (frameWith 1 g goodMatch))
                + 53 - 100;
          y := rect_y (searchWindow anchorBox (trackingOffset tr) (frameWith 1 g goodMatch))
                + 48 - 80 |} /\
   isTrackingLost (trackAnchor (Some g) (Some anchorBox) (frameWith 1 g goodMatch) tr)
     = false) /\
  (trackingOffset (runTracker (Some g) (Some anchorBox) tr
                     [frameWith 1 g weakMatch; frameWith 2 g weakMatch;
                      frameWith 3 g weakMatch]) = trackingOffset tr /\
   isTrackingLost (runTracker (Some g) (Some anchorBox) tr
                     [frameWith 1 g weakMatch; frameWith 2 g weakMatch;
                      frameWith 3 g weakMatch]) = true).
Proof.
  cbv zeta.
  pose proof (tracking_fallback (flat 480 640 0) anchorBox) as [Hone Hrun].
  split; [|split].
  - apply (proj1 (Hone (frameWith 1 (flat 480 640 0) weakMatch) (trackerAt 3 (-2) false)
                       _ eq_refl)).
    vm_compute. discriminate.
  - apply (proj2 (Hone (frameWith 1 (flat 480 640 0) goodMatch) (trackerAt 3 (-2) false)
                       _ eq_refl)).
    reflexivity.
  - apply Hrun; [discriminate|].
    intros f Hf. eexists. split.
    + repeat (destruct Hf as [<- | Hf]; [reflexivity|]). contradiction.
    + vm_compute. discriminate.
Defined.

Example tracking_offset_value :
  let g := flat 480 640 0 in
  let tr := trackAnchor (Some g) (Some anchorBox) (frameWith 1 g goodMatch)
                        (trackerAt 3 (-2) false) in
  x (trackingOffset tr) == 6 /\ y (trackingOffset tr) == - 4.
Proof. split; reflexivity. Qed.

(** ** The change scorer *)

Lemma sum_upto_bounds (f : Z -> Z) (b : Z) (n : nat) :
  (forall k, 0 <= f k <= b)%Z ->
  (0 <= sum_upto n f <= Z.of_nat n * b)%Z.
Proof.
  intros Hf. induction n as [|n IH].
  - cbn. lia.
  - cbn [sum_upto]. specialize (Hf (Z.of_nat n)). nia.
Qed.

Lemma countNonZero_bounds (m : Mat) :
  (0 <= countNonZero m <= Z.of_nat (Z.to_nat (rows m)) * Z.of_nat (Z.to_nat (cols m)))%Z.
Proof.
  unfold countNonZero. apply sum_upto_bounds. intros r.
  pose proof (sum_upto_bounds
                (fun c => if (px m r c =? 0)%Z then 0%Z else 1%Z) 1
                (Z.to_nat (cols m))) as H.
  rewrite Z.mul_1_r in H. apply H.
  intros c. destruct (px m r c =? 0)%Z; lia.
Qed.

(** A patch that [extractRoiMat] returns is more than one pixel wide and
    high and no larger than the floored rectangle asked for. *)
Lemma extractRoiMat_Some (r : Rect) (src roi : Mat) :
  extractRoiMat r src = Some roi ->
  (1 < cols roi /\ cols roi <= Qfloor (width r) /\
   1 < rows roi /\ rows roi <= Qfloor (height r))%Z.
Proof.
  unfold extractRoiMat.
  destruct (Qfloor (rect_x r) <? 0)%Z eqn:Ex;
  destruct (Qfloor (rect_y r) <? 0)%Z eqn:Ey;
  cbv zeta;
  repeat match goal with
         | |- context [(?a >? ?b)%Z] => destruct (Z.gtb_spec a b)
         end;
  match goal with
  | |- context [((?a <=? 1) || (?b <=? 1))%Z] =>
      destruct (Z.leb_spec a 1); destruct (Z.leb_spec b 1)
  end; cbn [orb]; intros Hroi; try discriminate;
  injection Hroi as <-; cbn [rows cols roi_clone];
  apply Z.ltb_lt in Ex || apply Z.ltb_ge in Ex;
  apply Z.ltb_lt in Ey || apply Z.ltb_ge in Ey; lia.
Qed.

Lemma fraction_in_unit (n w h : Z) (W H : Q) :
  (0 <= n <= Z.of_nat (Z.to_nat h) * Z.of_nat (Z.to_nat w))%Z ->
  (1 < w)%Z -> (1 < h)%Z ->
  inject_Z w <= W -> inject_Z h <= H ->
  0 < W * H /\ 0 <= inject_Z n / (W * H) /\ inject_Z n / (W * H) <= 1.
Proof.
  intros Hn Hw Hh HW HH.
  rewrite !Z2Nat.id in Hn by lia.
  assert (Hw1 : 1 < inject_Z w)
    by (change 1 with (inject_Z 1); rewrite <- Zlt_Qlt; exact Hw).
  assert (Hh1 : 1 < inject_Z h)
    by (change 1 with (inject_Z 1); rewrite <- Zlt_Qlt; exact Hh).
  assert (Hn0 : 0 <= inject_Z n) by (change 0 with (inject_Z 0); rewrite <- Zle_Qle; lia).
  assert (Hnb : inject_Z n <= inject_Z h * inject_Z w).
  { rewrite <- inject_Z_mult, <- Zle_Qle. lia. }
  assert (Hpos : 0 < W * H) by nra.
  assert (Hmul : inject_Z h * inject_Z w <= W * H) by nra.
  split; [exact Hpos|]. split.
  - apply Qle_shift_div_l; [exact Hpos|]. lra.
  - apply Qle_shift_div_r; [exact Hpos|]. lra.
Qed.

(** C6: the change scorer always returns a value in [0,1]; it is the
    number of changed pixels over the zone's pixel count, 0 when that
    count is not positive, and 0 whenever the reference model is missing
    or deleted or no patch can be extracted for the offset zone. *)
Theorem changeScore_range blurPx (g : Mat) (refMat : option Mat) (r : Rect) (offset : Point) :
  let s := calculateChangeScore blurPx g refMat r offset in
  (0 <= s /\ s <= 1) /\
  (refMat = None -> s = 0) /\
  (forall m, refMat = Some m -> isDeleted m = true -> s = 0) /\
  (extractRoiMat (adjustRect r offset) g = None -> s = 0) /\
  (width r * height r <= 0 -> s = 0) /\
  (forall ref roi diff,
     refMat = Some ref -> isDeleted ref = false ->
     extractRoiMat (adjustRect r offset) g = Some roi ->
     absdiff (GaussianBlur blurPx roi CV_CONFIG.BLUR_SIZE) ref = Some diff ->
     s = inject_Z (countNonZero (threshold diff CV_CONFIG.DIFF_THRESHOLD 255))
         / (width r * height r)).
Proof.
  cbv zeta. unfold calculateChangeScore.
  destruct refMat as [ref|]; [|repeat split; intros; try reflexivity; discriminate].
  destruct (isDeleted ref) eqn:Hdel;
    [repeat split; intros; try reflexivity; try discriminate; congruence|].
  destruct (extractRoiMat (adjustRect r offset) g) as [roi|] eqn:Hroi;
    [|repeat split; intros; try reflexivity; discriminate].
  destruct (absdiff (GaussianBlur blurPx roi CV_CONFIG.BLUR_SIZE) ref) as [diff|] eqn:Hdiff;
    [|repeat split; intros; try reflexivity; try discriminate; congruence].
  apply extractRoiMat_Some in Hroi as Hdims. cbn [width height adjustRect] in Hdims.
  destruct Hdims as (Hc1 & Hc2 & Hr1 & Hr2).
  assert (Hrows : rows diff = rows roi /\ cols diff = cols roi).
  { unfold absdiff in Hdiff.
    destruct ((rows (GaussianBlur blurPx roi CV_CONFIG.BLUR_SIZE) =? rows ref)
              && (cols (GaussianBlur blurPx roi CV_CONFIG.BLUR_SIZE) =? cols ref))%Z;
      [|discriminate].
    injection Hdiff as <-. split; reflexivity. }
  destruct Hrows as [Hrows Hcols].
  pose proof (countNonZero_bounds (threshold diff CV_CONFIG.DIFF_THRESHOLD 255)) as Hn.
  cbn [rows cols threshold] in Hn. rewrite Hrows, Hcols in Hn.
  destruct (fraction_in_unit _ (cols roi) (rows roi) (width r) (height r) Hn Hc1 Hr1)
    as (Hpos & Hlo & Hhi).
  { apply Qle_trans with (inject_Z (Qfloor (width r))); [|apply Qfloor_le].
    now rewrite <- Zle_Qle. }
  { apply Qle_trans with (inject_Z (Qfloor (height r))); [|apply Qfloor_le].
    now rewrite <- Zle_Qle. }
  destruct (Qltb_spec 0 (width r * height r)) as [_ | Hle]; [|exfalso; lra].
  repeat split; intros; try assumption; try discriminate; try congruence;
    exfalso; lra.
Qed.

Lemma changeScore_range_witness :
  calculateChangeScore noBlur halfLit (Some (flat 4 4 0)) zone origin
    = inject_Z (countNonZero (threshold
                  {| rows := 4; cols := 4;
                     px := fun r c => Z.abs (px halfLit (10 + r) (10 + c) - 0);
                     isDeleted := false |} CV_CONFIG.DIFF_THRESHOLD 255))
      / (width zone * height zone) /\
  calculateChangeScore noBlur halfLit None zone origin = 0 /\
  calculateChangeScore noBlur halfLit (Some (flat 4 4 0)) zone {| x := 100; y := 0 |} = 0.
Proof.
  split; [|split].
  - apply (proj2 (proj2 (proj2 (proj2 (proj2
             (changeScore_range noBlur halfLit (Some (flat 4 4 0)) zone origin))))))
      with (ref := flat 4 4 0) (roi := roi_clone halfLit 10 10 4 4); reflexivity.
  - apply (proj1 (proj2 (changeScore_range noBlur halfLit None zone origin))).
    reflexivity.
  - apply (proj1 (proj2 (proj2 (proj2
             (changeScore_range noBlur halfLit (Some (flat 4 4 0)) zone
                                {| x := 100; y := 0 |}))))).
    reflexivity.
Defined.

Example changeScore_half :
  calculateChangeScore noBlur halfLit (Some (flat 4 4 0)) zone origin == 0.5.
Proof. reflexivity. Qed.

(** A reference of another size than the patch makes [cv.absdiff] throw;
    the score is 0. *)
Example changeScore_size_mismatch :
  calculateChangeScore noBlur halfLit (Some (flat 5 4 0)) zone origin = 0.
Proof. reflexivity. Qed.

(** ** The motion classifier *)

Lemma classify_cases (avgVel avgDist : Q) :
  (avgVel < moveThreshold -> classify avgVel avgDist = AIAction.IDLE) /\
  (reachThreshold < avgVel -> 0.4 < avgDist ->
     classify avgVel avgDist = AIAction.TRANSPORT) /\
  (moveThreshold <= avgVel -> ~ (reachThreshold < avgVel /\ 0.4 < avgDist) ->
     classify avgVel avgDist = AIAction.OPERATION).
Proof.
  unfold classify, moveThreshold, reachThreshold.
  destruct (Qltb_spec avgVel 0.005); destruct (Qltb_spec 0.4 avgDist);
    destruct (Qltb_spec 0.02 avgVel); cbn [andb];
    repeat split; intros; try reflexivity; try (exfalso; lra);
    exfalso; intuition.
Qed.

(** C9: on a pose result the classifier smooths each hand's velocity as
    0.7 times the old value plus 0.3 times the instantaneous wrist
    displacement, and labels the frame IDLE when the average of the two
    smoothed velocities is below 0.005, TRANSPORT when that average exceeds
    0.02 and the average wrist-to-nose distance exceeds 0.4, and OPERATION
    in every other moving case.  The displacement is measured from the
    previous result: the wrists' positions are recorded, and on the next
    result the instantaneous velocity of each hand is the distance of its
    wrist from the recorded position. *)
Theorem motion_classifier (hypot : Q -> Q -> Q) (ai : AiState) (lm : list Landmark)
    (leftWrist rightWrist nose : Landmark) :
  nth_error lm POSE_LM.LEFT_WRIST = Some leftWrist ->
  nth_error lm POSE_LM.RIGHT_WRIST = Some rightWrist ->
  nth_error lm POSE_LM.NOSE = Some nose ->
  let ai' := onPoseResults hypot ai (Some lm) in
  let avgVel := (leftHandVel ai' + rightHandVel ai') / 2 in
  let avgDist :=
    (hypot (lm_x leftWrist - lm_x nose) (lm_y leftWrist - lm_y nose) +
     hypot (lm_x rightWrist - lm_x nose) (lm_y rightWrist - lm_y nose)) / 2 in
  leftHandVel ai' == 0.7 * leftHandVel ai + 0.3 * instantLeft hypot ai leftWrist /\
  rightHandVel ai' == 0.7 * rightHandVel ai + 0.3 * instantRight hypot ai rightWrist /\
  (avgVel < 0.005 -> currentAction ai' = AIAction.IDLE) /\
  (0.02 < avgVel -> 0.4 < avgDist -> currentAction ai' = AIAction.TRANSPORT) /\
  (0.005 <= avgVel -> ~ (0.02 < avgVel /\ 0.4 < avgDist) ->
     currentAction ai' = AIAction.OPERATION) /\
  lastPos ai' = Some {| lx := lm_x leftWrist; ly := lm_y leftWrist;
                        rx := lm_x rightWrist; ry := lm_y rightWrist |} /\
  (forall lm2 leftWrist2 rightWrist2,
     nth_error lm2 POSE_LM.LEFT_WRIST = Some leftWrist2 ->
     nth_error lm2 POSE_LM.RIGHT_WRIST = Some rightWrist2 ->
     let ai2 := onPoseResults hypot ai' (Some lm2) in
     leftHandVel ai2 ==
       0.7 * leftHandVel ai'
       + 0.3 * hypot (lm_x leftWrist2 - lm_x leftWrist) (lm_y leftWrist2 - lm_y leftWrist) /\
     rightHandVel ai2 ==
       0.7 * rightHandVel ai'
       + 0.3 * hypot (lm_x rightWrist2 - lm_x rightWrist)
                     (lm_y rightWrist2 - lm_y rightWrist)).
Proof.
  intros Hl Hr Hn. cbv zeta.
  assert (Hlast : lastPos (onPoseResults hypot ai (Some lm))
                  = Some {| lx := lm_x leftWrist; ly := lm_y leftWrist;
                            rx := lm_x rightWrist; ry := lm_y rightWrist |}).
  { unfold onPoseResults. rewrite Hl, Hr, Hn. reflexivity. }
  repeat match goal with |- _ /\ _ => split end.
  6: exact Hlast.
  6: { intros lm2 lw2 rw2 Hl2 Hr2.
       set (a1 := onPoseResults hypot ai (Some lm)) in *. clearbody a1.
       unfold onPoseResults. rewrite Hl2, Hr2, Hlast.
       destruct (nth_error lm2 POSE_LM.NOSE);
         cbn [leftHandVel rightHandVel lx ly rx ry]; split; ring. }
  all: unfold onPoseResults; rewrite Hl, Hr, Hn;
       cbn [leftHandVel rightHandVel currentAction];
       fold (instantLeft hypot ai leftWrist); fold (instantRight hypot ai rightWrist).
  1, 2: ring.
  all: apply classify_cases.
Qed.

Lemma motion_classifier_witness :
  let ai' := onPoseResults hypotOnAxis (aiAfter 0.15 0.85) (Some (poseWith 0.05 0.95)) in
  let ai2 := onPoseResults hypotOnAxis ai' (Some (poseWith 0.45 0.55)) in
  leftHandVel ai' == 0.7 * 0 + 0.3 * 0.1 /\
  rightHandVel ai' == 0.7 * 0 + 0.3 * 0.1 /\
  currentAction ai' = AIAction.TRANSPORT /\
  lastPos ai' = Some {| lx := 0.05; ly := 0.5; rx := 0.95; ry := 0.5 |} /\
  leftHandVel ai2 == 0.7 * leftHandVel ai' + 0.3 * 0.4 /\
  rightHandVel ai2 == 0.7 * rightHandVel ai' + 0.3 * 0.4.
Proof.
  cbv zeta.
  pose proof (motion_classifier hypotOnAxis (aiAfter 0.15 0.85) (poseWith 0.05 0.95)
                (landmark 0.05 0.5) (landmark 0.95 0.5) (landmark 0.5 0.5)
                eq_refl eq_refl eq_refl) as H.
  cbv zeta in H. destruct H as (Hl & Hr & _ & Ht & _ & Hp & Hnext).
  destruct (Hnext (poseWith 0.45 0.55) (landmark 0.45 0.5) (landmark 0.55 0.5)
                  eq_refl eq_refl) as [Hl2 Hr2].
  split; [rewrite Hl; reflexivity|].
  split; [rewrite Hr; reflexivity|].
  split; [apply Ht; reflexivity|].
  split; [exact Hp|].
  split; [rewrite Hl2 | rewrite Hr2]; reflexivity.
Defined.

(** A pose result without landmarks changes nothing; the first one with
    landmarks has no previous position and counts as no displacement. *)
Example pose_without_landmarks (hypot : Q -> Q -> Q) (ai : AiState) :
  onPoseResults hypot ai None = ai.
Proof. reflexivity. Qed.

Example pose_first_result :
  let ai' := onPoseResults hypotOnAxis initialAiState (Some (poseWith 0.05 0.95)) in
  leftHandVel ai' == 0 /\ rightHandVel ai' == 0 /\ currentAction ai' = AIAction.IDLE.
Proof. repeat split. Qed.

(** ** Frames while tracking is lost *)

(** The lost flag a frame leaves behind is the one its scoring guard read. *)
Lemma processFrameBody_tracker blurPx sens takt st f :
  tracker (engine (fst (processFrameBody blurPx sens takt st f))) =
    match anchorMat (engine st) with
    | Some _ => trackAnchor (anchorMat (engine st)) (anchorRect (ui st)) f
                            (tracker (engine st))
    | None => tracker (engine st)
    end.
Proof.
  unfold processFrameBody.
  destruct (startRefMat (engine st)); [|reflexivity].
  destruct (nth_error (triggerSteps (ui st)) 0); [|reflexivity].
  match goal with
  | |- context [negb (isTrackingLost ?t)] => destruct (isTrackingLost t)
  end; cbn [negb]; [reflexivity|].
  match goal with
  | |- context [processLogic ?a ?b ?c ?d ?e ?g ?h] =>
      destruct (processLogic a b c d e g h)
  end.
  reflexivity.
Qed.

(** C4 (as amended): on every processed frame on which tracking is lost,
    the change scorer is not run and the controller is not stepped: the
    signal state and the controller keep their values and nothing is
    emitted.  Cycle detection is paused while tracking is lost. *)
Theorem scoring_paused_while_lost blurPx sens takt st f :
  processed st f = true ->
  isTrackingLost (tracker (engine (fst (processFrame blurPx sens takt st f)))) = true ->
  signalState (engine (fst (processFrame blurPx sens takt st f)))
    = signalState (engine st) /\
  controller (engine (fst (processFrame blurPx sens takt st f)))
    = controller (engine st) /\
  snd (processFrame blurPx sens takt st f) = [].
Proof.
  unfold processFrame. intros -> Hlost.
  rewrite processFrameBody_tracker in Hlost.
  unfold processFrameBody.
  destruct (startRefMat (engine st)); [|repeat split].
  destruct (nth_error (triggerSteps (ui st)) 0); [|repeat split].
  rewrite Hlost. cbn [negb]. repeat split.
Qed.

Lemma scoring_paused_while_lost_witness :
  let st := armed (trackerAt 0 0 false) in
  let f := frameWith 1 (flat 480 640 200) weakMatch in
  signalState (engine (fst (processFrame noBlur 10 10 st f))) = signalState (engine st) /\
  controller (engine (fst (processFrame noBlur 10 10 st f))) = controller (engine st) /\
  snd (processFrame noBlur 10 10 st f) = [].
Proof.
  cbv zeta.
  apply (scoring_paused_while_lost noBlur 10 10 (armed (trackerAt 0 0 false))
           (frameWith 1 (flat 480 640 200) weakMatch)); reflexivity.
Defined.

(** C4 (as stated) fails: on a processed frame with a weak template
    match the zone is entirely changed, so the scorer would return 1 for
    the retained offset, the smoothed score 0.2 would exceed the high
    threshold 0.15 and the controller would trigger; the frame leaves the
    smoothed score at 0 and the controller in IDLE. *)
Lemma lost_frame_is_not_scored :
  let st := armed (trackerAt 0 0 false) in
  let f := frameWith 1 (flat 480 640 200) weakMatch in
  let st' := fst (processFrame noBlur 10 10 st f) in
  let rawScore :=
    calculateChangeScore noBlur (gray f) (startRefMat (engine st)) zone
                         (trackingOffset (tracker (engine st'))) in
  let smoothScore :=
    CV_CONFIG.EMA_ALPHA * rawScore
    + (1 - CV_CONFIG.EMA_ALPHA) * prevSmooth (signalState (engine st)) in
  processed st f = true /\
  isTrackingLost (tracker (engine st')) = true /\
  trackingOffset (tracker (engine st')) = trackingOffset (tracker (engine st)) /\
  rawScore == 1 /\
  logicState (fst (processLogic 10 10 (aiState (engine st)) (clock f)
                                (controller (engine st)) smoothScore (videoTime f)))
    = TRIGGERED /\
  ~ smooth (signalState (engine st')) == smoothScore /\
  logicState (controller (engine st')) = IDLE.
Proof.
  cbv zeta. repeat split. vm_compute. discriminate.
Qed.

(** With a good match on the same frame the score is taken and fed. *)
Example tracked_frame_is_scored :
  let st' := fst (processFrame noBlur 10 10 (armed (trackerAt 0 0 false))
                               (frameWith 1 (flat 480 640 200) goodMatch)) in
  smooth (signalState (engine st')) == 0.2 /\
  logicState (controller (engine st')) = TRIGGERED.
Proof. split; reflexivity. Qed.

(** ** Dragging a zone *)

Lemma handleMouseDown_engine (st : Analyzer) (pt : Point) :
  engine (handleMouseDown st pt) = engine st.
Proof.
  unfold handleMouseDown.
  destruct (setupSubMode (ui st)); try reflexivity.
  destruct (mode (ui st)); try reflexivity.
  destruct (find _ _); reflexivity.
Qed.

Lemma handleMouseMove_engine (st : Analyzer) (pt : Point) :
  engine (handleMouseMove st pt) = engine st.
Proof.
  unfold handleMouseMove.
  destruct (truthy (draggingStepId (ui st))).
  - destruct (draggingStepId (ui st)); reflexivity.
  - destruct (dragStart (ui st)); reflexivity.
Qed.

(** C8, on the code: pressing the mouse on a zone whose reference was
    captured clears the thumbnail [refImages.start] and starts the drag,
    but the reference matrix [startRefMat] is the one captured before, and
    the scorer still compares against it: on a frame that lights half of
    the zone the score is 0.5, not 0. *)
Theorem drag_keeps_reference_model :
  ref_start (refImages (ui referenceCaptured)) = Some "thumb"%string /\
  draggingStepId (ui dragStarted) = Some "start"%string /\
  ref_start (refImages (ui dragStarted)) = None /\
  startRefMat (engine dragStarted) = startRefMat (engine referenceCaptured) /\
  startRefMat (engine dragStarted) <> None /\
  calculateChangeScore noBlur halfLit (startRefMat (engine dragStarted))
                       (rect zoneStep) origin == 0.5 /\
  ~ calculateChangeScore noBlur halfLit (startRefMat (engine dragStarted))
                         (rect zoneStep) origin == 0 /\
  raw (signalState (engine (fst (processFrame noBlur 6 10 dragStarted
                                              (frameWith 1 halfLit None))))) == 0.5.
Proof.
  repeat split; try discriminate.
Qed.

(** The sibling paths do drop the matrix: a change of the video source
    clears [startRefMat], and redrawing the anchor clears [anchorMat]. *)
Example reset_clears_reference :
  startRefMat (engine (fst (resetOnVideoSrc (Some "b.mp4"%string) referenceCaptured)))
    = None.
Proof. reflexivity. Qed.

Example anchor_redraw_clears_template (st : Analyzer) (p : Point) (r : Rect) :
  draggingStepId (ui st) = None ->
  dragStart (ui st) = Some p ->
  drawingRect (ui st) = Some r ->
  10 < width r ->
  setupSubMode (ui st) = anchor ->
  anchorMat (engine (handleMouseUp st)) = None.
Proof.
  intros Hd Hs Hr Hw Hm. unfold handleMouseUp.
  rewrite Hd, Hs, Hr, Hm. cbn [truthy].
  destruct (Qltb_spec 10 (width r)); [reflexivity | exfalso; lra].
Qed.

(** ** The animation loop *)

Lemma processFrame_emitted blurPx sens takt st f cy :
  In cy (cyclesOf (snd (processFrame blurPx sens takt st f))) ->
  exists s,
    In cy (cyclesOf (snd (processLogic sens takt (aiState (engine st)) (clock f)
                                       (controller (engine st)) s (videoTime f)))).
Proof.
  unfold processFrame, processFrameBody.
  destruct (processed st f); [|contradiction].
  destruct (startRefMat (engine st)); [|contradiction].
  destruct (nth_error (triggerSteps (ui st)) 0); [|contradiction].
  match goal with
  | |- context [negb (isTrackingLost ?t)] => destruct (isTrackingLost t)
  end; cbn [negb]; [contradiction|].
  match goal with
  | |- context [processLogic ?a ?b ?c ?d ?e ?g ?h] =>
      intros Hin; exists g; destruct (processLogic a b c d e g h)
  end.
  exact Hin.
Qed.

Lemma runFrames_emitted blurPx sens takt fs : forall st cy,
  In cy (cyclesOf (snd (runFrames blurPx sens takt st fs))) ->
  exists st1 f, In f fs /\
    In cy (cyclesOf (snd (processFrame blurPx sens takt st1 f))).
Proof.
  induction fs as [|f rest IH]; intros st cy Hin.
  - contradiction.
  - cbn [runFrames] in Hin.
    destruct (processFrame blurPx sens takt st f) as [st1 evs1] eqn:Hstep.
    destruct (runFrames blurPx sens takt st1 rest) as [st2 evs2] eqn:Hrun.
    cbn [snd] in Hin. rewrite cyclesOf_app in Hin.
    apply in_app_or in Hin as [Hin | Hin].
    + exists st, f. split; [now left | now rewrite Hstep].
    + destruct (IH st1 cy) as (st3 & g & Hg & Hcy); [now rewrite Hrun|].
      exists st3, g. split; [now right | exact Hcy].
Qed.

(** Whatever the frames of a session, the cycles the analyzer reports are
    longer than the minimum cycle time, ok or over, and labelled Operation
    or Transport. *)
Corollary runFrames_cycles blurPx sens takt st fs cy :
  In cy (cyclesOf (snd (runFrames blurPx sens takt st fs))) ->
  CV_CONFIG.MIN_CYCLE_TIME < duration cy /\
  (status cy = ok \/ status cy = over) /\
  (aiLabel cy = Some Operation \/ aiLabel cy = Some Transport).
Proof.
  intros Hin.
  apply runFrames_emitted in Hin as (st1 & f & _ & Hin).
  apply processFrame_emitted in Hin as (s & Hin).
  apply processLogic_emits in Hin as (_ & _ & Hd & -> & _).
  cbn [duration status aiLabel]. split; [exact Hd|]. split.
  - destruct (_ >? takt); auto.
  - destruct (currentAction (aiState (engine st1))); cbn; auto.
Qed.

(** * Further properties of the code *)

(** ** Runs of the logic controller *)

Lemma runLogic_app sens takt a : forall b c,
  runLogic sens takt c (a ++ b) =
    let p := runLogic sens takt c a in
    let q := runLogic sens takt (fst p) b in
    (fst q, snd p ++ snd q).
Proof.
  induction a as [|i a IH]; intros b c.
  - cbn. now destruct (runLogic sens takt c b).
  - rewrite <- app_comm_cons, !runLogic_cons. cbv zeta. rewrite IH. cbv zeta.
    cbn [fst snd]. now rewrite app_assoc.
Qed.

(** X1: a controller in IDLE that is fed scores none of which exceeds the
    high threshold never leaves IDLE: state, start time and timer are
    untouched and no event is fired. *)
Theorem idle_run_stays_idle sens takt c ins :
  logicState c = IDLE ->
  (forall i, In i ins -> in_score i <= highThreshold sens) ->
  runLogic sens takt c ins = (c, []).
Proof.
  intros Hst. induction ins as [|i rest IH]; intros Hall; [reflexivity|].
  rewrite runLogic_cons, processLogic_idle by exact Hst.
  destruct (Qltb_spec (highThreshold sens) (in_score i)) as [Hgt | _].
  - exfalso. specialize (Hall i (or_introl eq_refl)). lra.
  - cbv zeta. cbn [fst snd]. rewrite IH; [reflexivity|].
    intros j Hj. apply Hall. now right.
Qed.

Lemma idle_run_stays_idle_witness :
  runLogic 6 10 (controllerIn IDLE 0 0) [feed 0.1 1; feed 0.23 2; feed 0 9]
    = (controllerIn IDLE 0 0, []).
Proof.
  apply idle_run_stays_idle; [reflexivity|].
  intros i Hi.
  repeat (destruct Hi as [<- | Hi]; [vm_compute; discriminate|]).
  contradiction.
Defined.

Lemma runLogic_triggered sens takt ins : forall c,
  logicState c = TRIGGERED ->
  (forall i, In i ins -> lowThreshold sens <= in_score i) ->
  logicState (fst (runLogic sens takt c ins)) = TRIGGERED /\
  cycleStartTime (fst (runLogic sens takt c ins)) = cycleStartTime c /\
  cooldownTimer (fst (runLogic sens takt c ins)) = cooldownTimer c /\
  snd (runLogic sens takt c ins) = [].
Proof.
  induction ins as [|i rest IH]; intros c Hst Hall.
  - cbn. auto.
  - rewrite runLogic_cons. cbv zeta.
    assert (Hstep : processLogic sens takt (in_ai i) (in_clock i) c (in_score i) (in_time i)
                    = ({| logicState := TRIGGERED; cycleStartTime := cycleStartTime c;
                          cooldownTimer := cooldownTimer c;
                          visualState := Working (in_time i - cycleStartTime c) |}, [])).
    { unfold processLogic. rewrite Hst.
      destruct (Qltb_spec (in_score i) (lowThreshold sens)) as [Hlt | _]; [|reflexivity].
      exfalso. specialize (Hall i (or_introl eq_refl)). lra. }
    rewrite Hstep. cbn [fst snd app].
    match goal with
    | |- context [runLogic sens takt ?c1 rest] =>
        apply (IH c1); [reflexivity | intros j Hj; apply Hall; now right]
    end.
Qed.

(** X2: once TRIGGERED, scores that stay at or above the low threshold
    keep the controller TRIGGERED with the start time it recorded, and
    nothing is emitted, however long this lasts and whatever the
    timestamps are. *)
Theorem triggered_run_holds sens takt c ins :
  logicState c = TRIGGERED ->
  (forall i, In i ins -> lowThreshold sens <= in_score i) ->
  logicState (fst (runLogic sens takt c ins)) = TRIGGERED /\
  cycleStartTime (fst (runLogic sens takt c ins)) = cycleStartTime c /\
  cooldownTimer (fst (runLogic sens takt c ins)) = cooldownTimer c /\
  snd (runLogic sens takt c ins) = [].
Proof. apply runLogic_triggered. Qed.

Lemma triggered_run_holds_witness :
  let r := runLogic 6 10 (controllerIn TRIGGERED 1 0)
             [feed 0.5 2; feed 0.138 30; feed 0.2 31] in
  logicState (fst r) = TRIGGERED /\ cycleStartTime (fst r) = 1 /\
  cooldownTimer (fst r) = 0 /\ snd r = [].
Proof.
  cbv zeta. apply triggered_run_holds; [reflexivity|].
  intros i Hi.
  repeat (destruct Hi as [<- | Hi]; [vm_compute; discriminate|]).
  contradiction.
Defined.

(** X3: during the cooldown nothing happens: as long as no timestamp
    passes the cooldown timer the controller is unchanged and silent,
    whatever the scores are. *)
Theorem cooldown_run_is_dead sens takt c ins :
  logicState c = COOLDOWN ->
  (forall i, In i ins -> in_time i <= cooldownTimer c) ->
  runLogic sens takt c ins = (c, []).
Proof.
  intros Hst. induction ins as [|i rest IH]; intros Hall; [reflexivity|].
  rewrite runLogic_cons, processLogic_cooldown by exact Hst.
  destruct (Qltb_spec (cooldownTimer c) (in_time i)) as [Hgt | _].
  - exfalso. specialize (Hall i (or_introl eq_refl)). lra.
  - cbv zeta. cbn [fst snd]. rewrite IH; [reflexivity|].
    intros j Hj. apply Hall. now right.
Qed.

Lemma cooldown_run_is_dead_witness :
  runLogic 6 10 (controllerIn COOLDOWN 1 4.5) [feed 1 3.1; feed 0 4; feed 1 4.5]
    = (controllerIn COOLDOWN 1 4.5, []).
Proof.
  apply cooldown_run_is_dead; [reflexivity|].
  intros i Hi.
  repeat (destruct Hi as [<- | Hi]; [vm_compute; discriminate|]).
  contradiction.
Defined.

(** X4: a clean pulse gives exactly one cycle.  From IDLE, a frame above
    the high threshold at time t0, then any frames at or above the low
    threshold, then a frame below the low threshold at a time t1 more
    than MIN_CYCLE_TIME after t0: the run emits the single cycle from t0
    to t1 and ends in COOLDOWN until t1 + 1.5. *)
Theorem pulse_gives_one_cycle sens takt c rise hold fall :
  logicState c = IDLE ->
  highThreshold sens < in_score rise ->
  (forall i, In i hold -> lowThreshold sens <= in_score i) ->
  in_score fall < lowThreshold sens ->
  CV_CONFIG.MIN_CYCLE_TIME < in_time fall - in_time rise ->
  let r := runLogic sens takt c (rise :: hold ++ [fall]) in
  cyclesOf (snd r) =
    [{| id := in_clock fall; startTime := in_time rise; endTime := in_time fall;
        duration := in_time fall - in_time rise;
        status := if (in_time fall - in_time rise) >? takt then over else ok;
        aiLabel := Some (cycleLabel (currentAction (in_ai fall))) |}] /\
  logicState (fst r) = COOLDOWN /\
  cooldownTimer (fst r) = in_time fall + 1.5.
Proof.
  intros Hst Hrise Hhold Hfall Hlong. cbv zeta.
  rewrite runLogic_cons, processLogic_idle by exact Hst.
  destruct (Qltb_spec (highThreshold sens) (in_score rise)) as [_ | Hle];
    [|exfalso; lra].
  cbv zeta. cbn [fst snd]. rewrite runLogic_app. cbv zeta.
  match goal with
  | |- context [runLogic sens takt ?c1 hold] =>
      destruct (runLogic_triggered sens takt hold c1 eq_refl Hhold)
        as (Hs & Hstart & Htimer & Hev);
      destruct (runLogic sens takt c1 hold) as [c2 evs2]
  end.
  cbn [fst snd cycleStartTime cooldownTimer] in *. subst evs2.
  cbn [runLogic]. unfold processLogic. rewrite Hs, Hstart.
  destruct (Qltb_spec (in_score fall) (lowThreshold sens)) as [_ | Hge];
    [|exfalso; lra].
  destruct (Qltb_spec CV_CONFIG.MIN_CYCLE_TIME (in_time fall - in_time rise)) as [_ | Hge];
    [|exfalso; lra].
  cbn. auto.
Qed.

Lemma pulse_gives_one_cycle_witness :
  let r := runLogic 6 10 (controllerIn IDLE 0 0)
             (feed 0.5 1 :: [feed 0.4 2; feed 0.2 2.5] ++ [feed 0.1 3]) in
  cyclesOf (snd r) =
    [{| id := 0; startTime := 1; endTime := 3; duration := 3 - 1;
        status := if (3 - 1) >? 10 then over else ok;
        aiLabel := Some (cycleLabel AIAction.IDLE) |}] /\
  logicState (fst r) = COOLDOWN /\ cooldownTimer (fst r) = 3 + 1.5.
Proof.
  cbv zeta.
  apply (pulse_gives_one_cycle 6 10 (controllerIn IDLE 0 0) (feed 0.5 1)
           [feed 0.4 2; feed 0.2 2.5] (feed 0.1 3));
    try reflexivity.
  intros i Hi.
  repeat (destruct Hi as [<- | Hi]; [vm_compute; discriminate|]).
  contradiction.
Defined.

(** X5: on a run whose timestamps never decrease, cycles are reported at
    most once every 2.5 s of video: consecutive cycles end more than
    2.5 s apart (1.5 s of cooldown and more than 1 s of minimum
    duration). *)
Theorem cycle_rate_bound sens takt c ins :
  nondecreasing (map in_time ins) ->
  forall n a b,
    nth_error (cyclesOf (snd (runLogic sens takt c ins))) n = Some a ->
    nth_error (cyclesOf (snd (runLogic sens takt c ins))) (S n) = Some b ->
    endTime a + 2.5 < endTime b.
Proof.
  intros Hnd n a b Ha Hb.
  assert (Hsp : spaced (cyclesOf (snd (runLogic sens takt c ins)))).
  { destruct ins as [|i rest]; [exact I|].
    apply (runLogic_spaced sens takt (i :: rest) c (in_time i) Hnd).
    apply nondecreasing_map_cons in Hnd as [Hhead _].
    intros j [<- | Hj]; [apply Qle_refl | now apply Hhead]. }
  destruct (spaced_nth _ Hsp n a b Ha Hb) as [_ Hgap].
  apply nth_error_In in Hb.
  apply runLogic_emitted in Hb as (c1 & i & _ & Hb).
  apply processLogic_emits in Hb as (_ & _ & Hd & -> & _).
  cbn [startTime endTime] in *. unfold CV_CONFIG.MIN_CYCLE_TIME in Hd. lra.
Qed.

Lemma cycle_rate_bound_witness :
  exists a b,
    nth_error (cyclesOf (snd (runLogic 6 10 (controllerIn IDLE 0 0) twoCycles))) 0
      = Some a /\
    nth_error (cyclesOf (snd (runLogic 6 10 (controllerIn IDLE 0 0) twoCycles))) 1
      = Some b /\
    endTime a + 2.5 < endTime b.
Proof.
  eexists. eexists. split; [reflexivity|]. split; [reflexivity|].
  apply (cycle_rate_bound 6 10 (controllerIn IDLE 0 0) twoCycles
           twoCycles_nondecreasing 0%nat); reflexivity.
Defined.

(** ** The animation loop *)

Lemma processFrameBody_lastProcessTime blurPx sens takt st f :
  lastProcessTime (engine (fst (processFrameBody blurPx sens takt st f))) = now f.
Proof.
  unfold processFrameBody.
  destruct (startRefMat (engine st)); [|reflexivity].
  destruct (nth_error (triggerSteps (ui st)) 0); [|reflexivity].
  match goal with
  | |- context [negb (isTrackingLost ?t)] => destruct (isTrackingLost t)
  end; cbn [negb]; [reflexivity|].
  match goal with
  | |- context [processLogic ?a ?b ?c ?d ?e ?g ?h] =>
      destruct (processLogic a b c d e g h)
  end.
  reflexivity.
Qed.

Lemma processFrameBody_ui blurPx sens takt st f :
  ui (fst (processFrameBody blurPx sens takt st f)) = ui st.
Proof.
  unfold processFrameBody.
  destruct (startRefMat (engine st)); [|reflexivity].
  destruct (nth_error (triggerSteps (ui st)) 0); [|reflexivity].
  match goal with
  | |- context [negb (isTrackingLost ?t)] => destruct (isTrackingLost t)
  end; cbn [negb]; [reflexivity|].
  match goal with
  | |- context [processLogic ?a ?b ?c ?d ?e ?g ?h] =>
      destruct (processLogic a b c d e g h)
  end.
  reflexivity.
Qed.

(** X6: the engine runs at most once every 50 ms: a frame that arrives
    less than 50 ms after a processed one is dropped whole, with no
    tracking, no scoring, no controller step and no event. *)
Theorem throttle_drops_early_frame blurPx sens takt st f1 f2 :
  processed st f1 = true ->
  now f2 - now f1 < 50 ->
  processFrame blurPx sens takt (fst (processFrame blurPx sens takt st f1)) f2
    = (fst (processFrame blurPx sens takt st f1), []).
Proof.
  intros Hp Hearly.
  assert (H1 : processFrame blurPx sens takt st f1
               = processFrameBody blurPx sens takt st f1)
    by (unfold processFrame; now rewrite Hp).
  rewrite H1. unfold processFrame, processed.
  rewrite processFrameBody_lastProcessTime.
  destruct (Qltb_spec (now f2 - now f1) 50) as [_ | Hge]; [|exfalso; lra].
  now rewrite orb_true_r.
Qed.

Lemma throttle_drops_early_frame_witness :
  let st := armed (trackerAt 0 0 false) in
  let f1 := frameAt 1000 1 (flat 480 640 200) goodMatch in
  let f2 := frameAt 1049 1.049 (flat 480 640 0) weakMatch in
  processFrame noBlur 10 10 (fst (processFrame noBlur 10 10 st f1)) f2
    = (fst (processFrame noBlur 10 10 st f1), []).
Proof.
  cbv zeta.
  apply (throttle_drops_early_frame noBlur 10 10 (armed (trackerAt 0 0 false))
           (frameAt 1000 1 (flat 480 640 200) goodMatch)
           (frameAt 1049 1.049 (flat 480 640 0) weakMatch)); reflexivity.
Defined.

(** The raw score is a fraction. *)
Lemma calculateChangeScore_unit blurPx g refMat r offset :
  0 <= calculateChangeScore blurPx g refMat r offset /\
  calculateChangeScore blurPx g refMat r offset <= 1.
Proof.
  unfold calculateChangeScore.
  destruct refMat as [ref|]; [|split; discriminate].
  destruct (isDeleted ref); [split; discriminate|].
  destruct (extractRoiMat (adjustRect r offset) g) as [roi|] eqn:Hroi;
    [|split; discriminate].
  destruct (absdiff (GaussianBlur blurPx roi CV_CONFIG.BLUR_SIZE) ref) as [diff|] eqn:Hdiff;
    [|split; discriminate].
  apply extractRoiMat_Some in Hroi. cbn [width height adjustRect] in Hroi.
  destruct Hroi as (Hc1 & Hc2 & Hr1 & Hr2).
  assert (Hdims : rows diff = rows roi /\ cols diff = cols roi).
  { unfold absdiff in Hdiff.
    destruct ((rows (GaussianBlur blurPx roi CV_CONFIG.BLUR_SIZE) =? rows ref)
              && (cols (GaussianBlur blurPx roi CV_CONFIG.BLUR_SIZE) =? cols ref))%Z;
      [|discriminate].
    injection Hdiff as <-. split; reflexivity. }
  destruct Hdims as [Hrows Hcols].
  pose proof (countNonZero_bounds (threshold diff CV_CONFIG.DIFF_THRESHOLD 255)) as Hn.
  cbn [rows cols threshold] in Hn. rewrite Hrows, Hcols in Hn.
  destruct (fraction_in_unit _ (cols roi) (rows roi) (width r) (height r) Hn Hc1 Hr1)
    as (Hpos & Hlo & Hhi).
  { apply Qle_trans with (inject_Z (Qfloor (width r))); [|apply Qfloor_le].
    now rewrite <- Zle_Qle. }
  { apply Qle_trans with (inject_Z (Qfloor (height r))); [|apply Qfloor_le].
    now rewrite <- Zle_Qle. }
  destruct (Qltb_spec 0 (width r * height r)) as [_ | Hle]; [|exfalso; lra].
  split; assumption.
Qed.

Lemma processFrame_unitSignal blurPx sens takt st f :
  unitSignal (signalState (engine st)) ->
  unitSignal (signalState (engine (fst (processFrame blurPx sens takt st f)))).
Proof.
  intros Hu. unfold processFrame, processFrameBody.
  destruct (processed st f); [|exact Hu].
  destruct (startRefMat (engine st)) as [ref|] eqn:Href; [|exact Hu].
  destruct (nth_error (triggerSteps (ui st)) 0) as [step0|]; [|exact Hu].
  match goal with
  | |- context [negb (isTrackingLost ?t)] => destruct (isTrackingLost t)
  end; cbn [negb]; [exact Hu|].
  match goal with
  | |- context [processLogic ?a ?b ?c ?d ?e ?g ?h] =>
      destruct (processLogic a b c d e g h)
  end.
  cbn [fst engine signalState]. unfold unitSignal in *.
  cbn [raw smooth prevSmooth].
  match goal with
  | |- context [calculateChangeScore ?b ?g ?r ?z ?o] =>
      pose proof (calculateChangeScore_unit b g r z o) as [Hlo Hhi];
      set (rawScore := calculateChangeScore b g r z o) in *
  end.
  destruct Hu as (_ & _ & Hp0 & Hp1).
  unfold CV_CONFIG.EMA_ALPHA.
  repeat split; try assumption; lra.
Qed.

(** The smoothed change score never leaves [0,1]: over any run of
    frames, if the signal state starts with its three scores in [0,1]
    (as the initial and the reset state do), it keeps them there. *)
Theorem smoothed_score_in_unit blurPx sens takt fs : forall st,
  unitSignal (signalState (engine st)) ->
  unitSignal (signalState (engine (fst (runFrames blurPx sens takt st fs)))).
Proof.
  induction fs as [|f rest IH]; intros st Hu; [exact Hu|].
  cbn [runFrames].
  pose proof (processFrame_unitSignal blurPx sens takt st f Hu) as Hstep.
  destruct (processFrame blurPx sens takt st f) as [st1 evs1]. cbn [fst] in Hstep.
  specialize (IH st1 Hstep).
  destruct (runFrames blurPx sens takt st1 rest) as [st2 evs2]. exact IH.
Qed.

Lemma unitSignal_zero : unitSignal {| raw := 0; smooth := 0; prevSmooth := 0 |}.
Proof. repeat split; discriminate. Defined.

Lemma smoothed_score_in_unit_witness :
  unitSignal (signalState (engine (fst
    (runFrames noBlur 10 10 (armed (trackerAt 0 0 false))
       [frameAt 1000 1 (flat 480 640 200) goodMatch;
        frameAt 1100 1.1 halfLit None])))).
Proof.
  apply smoothed_score_in_unit. exact unitSignal_zero.
Defined.

(** ** Sessions *)

Lemma session_cons hypot blurPx sens takt st a rest :
  session hypot blurPx sens takt st (a :: rest) =
    let p := step hypot blurPx sens takt st a in
    let q := session hypot blurPx sens takt (fst p) rest in
    (fst q, snd p ++ snd q).
Proof.
  cbn [session]. destruct (step hypot blurPx sens takt st a) as [st1 evs1].
  cbn. now destruct (session hypot blurPx sens takt st1 rest).
Qed.

(** An invariant of single actions is an invariant of sessions. *)
Lemma session_invariant hypot blurPx sens takt (P : Analyzer -> Prop) :
  (forall st a, P st -> P (fst (step hypot blurPx sens takt st a))) ->
  forall acts st, P st -> P (fst (session hypot blurPx sens takt st acts)).
Proof.
  intros Hstep. induction acts as [|a rest IH]; intros st HP; [exact HP|].
  rewrite session_cons. cbv zeta. cbn [fst]. apply IH, Hstep, HP.
Qed.

Ltac break_match :=
  repeat match goal with
         | |- context [match ?x with _ => _ end] => destruct x eqn:?
         end.

Lemma captureReference_cycles blurPx t st read :
  cyclesOf (snd (captureReference blurPx t st read)) = [].
Proof.
  unfold captureReference, captureFrom. break_match; reflexivity.
Qed.

(** Only an animation frame can complete a cycle. *)
Lemma step_emitted hypot blurPx sens takt st a cy :
  In cy (cyclesOf (snd (step hypot blurPx sens takt st a))) ->
  exists f, a = Tick f /\
    In cy (cyclesOf (snd (processFrame blurPx sens takt st f))).
Proof.
  destruct a; cbn [step].
  1: intros H; eexists; split; [reflexivity | exact H].
  all: try (cbn; contradiction).
  all: unfold onArmClick, resetOnVideoSrc;
       break_match; rewrite ?captureReference_cycles; cbn; contradiction.
Qed.

Lemma session_emitted hypot blurPx sens takt acts : forall st cy,
  In cy (cyclesOf (snd (session hypot blurPx sens takt st acts))) ->
  exists st1 f, In (Tick f) acts /\
    In cy (cyclesOf (snd (processFrame blurPx sens takt st1 f))).
Proof.
  induction acts as [|a rest IH]; intros st cy Hin; [contradiction|].
  rewrite session_cons in Hin. cbv zeta in Hin. cbn [snd] in Hin.
  rewrite cyclesOf_app in Hin. apply in_app_or in Hin as [Hin | Hin].
  - apply step_emitted in Hin as (f & -> & Hin).
    exists st, f. split; [now left | exact Hin].
  - apply IH in Hin as (st1 & f & Hf & Hin).
    exists st1, f. split; [now right | exact Hin].
Qed.

(** X7: whatever the user does during a session (frames, pose results,
    mouse gestures, captures, arming, stopping, changing the video),
    every cycle the component reports lasts more than MIN_CYCLE_TIME,
    ends after it starts, has duration = endTime - startTime, status ok
    or over and label Operation or Transport. *)
Theorem session_cycles_wellformed hypot blurPx sens takt st acts cy :
  In cy (cyclesOf (snd (session hypot blurPx sens takt st acts))) ->
  CV_CONFIG.MIN_CYCLE_TIME < duration cy /\
  duration cy = endTime cy - startTime cy /\
  startTime cy < endTime cy /\
  (status cy = ok \/ status cy = over) /\
  (aiLabel cy = Some Operation \/ aiLabel cy = Some Transport).
Proof.
  intros Hin.
  apply session_emitted in Hin as (st1 & f & _ & Hin).
  apply processFrame_emitted in Hin as (s & Hin).
  apply processLogic_emits in Hin as (_ & _ & Hd & -> & _).
  cbn [duration status aiLabel startTime endTime].
  split; [exact Hd|]. split; [reflexivity|]. split.
  - unfold CV_CONFIG.MIN_CYCLE_TIME in Hd. lra.
  - split.
    + destruct (_ >? takt); auto.
    + destruct (currentAction (aiState (engine st1))); cbn; auto.
Qed.

Example oneWorkCycle_emits :
  cyclesOf (snd (session hypotOnAxis noBlur 10 10 armedPlain oneWorkCycle))
    = [theWorkCycle].
Proof. vm_compute. reflexivity. Qed.

Lemma session_cycles_wellformed_witness :
  CV_CONFIG.MIN_CYCLE_TIME < duration theWorkCycle /\
  duration theWorkCycle = endTime theWorkCycle - startTime theWorkCycle /\
  startTime theWorkCycle < endTime theWorkCycle /\
  (status theWorkCycle = ok \/ status theWorkCycle = over) /\
  (aiLabel theWorkCycle = Some Operation \/ aiLabel theWorkCycle = Some Transport).
Proof.
  apply (session_cycles_wellformed hypotOnAxis noBlur 10 10 armedPlain oneWorkCycle).
  vm_compute. left. reflexivity.
Defined.

(** The signal state is written by scored frames and by the reset only. *)
Lemma step_unitSignal hypot blurPx sens takt st a :
  unitSignal (signalState (engine st)) ->
  unitSignal (signalState (engine (fst (step hypot blurPx sens takt st a)))).
Proof.
  intros Hu. destruct a; cbn [step fst].
  - now apply processFrame_unitSignal.
  - exact Hu.
  - now rewrite handleMouseDown_engine.
  - now rewrite handleMouseMove_engine.
  - unfold handleMouseUp. break_match; exact Hu.
  - unfold captureReference, captureFrom. break_match; exact Hu.
  - break_match; exact Hu.
  - unfold onArmClick. break_match; exact Hu.
  - exact Hu.
  - cbn. exact unitSignal_zero.
Qed.

(** X8: over a whole session the three scores of the signal state stay
    in [0,1], whatever the frames show and whatever the user does. *)
Theorem session_scores_in_unit hypot blurPx sens takt acts st :
  unitSignal (signalState (engine st)) ->
  unitSignal (signalState (engine (fst (session hypot blurPx sens takt st acts)))).
Proof.
  revert st.
  apply (session_invariant hypot blurPx sens takt
           (fun st => unitSignal (signalState (engine st)))).
  intros st a. apply step_unitSignal.
Qed.

Lemma session_scores_in_unit_witness :
  unitSignal (signalState (engine (fst
    (session hypotOnAxis noBlur 10 10 armedPlain oneWorkCycle)))).
Proof.
  apply session_scores_in_unit. exact unitSignal_zero.
Defined.

(** ** The lost flag without an anchor *)

Lemma step_lostForGood hypot blurPx sens takt st a :
  isAnchorCapture a = false ->
  lostForGood st ->
  lostForGood (fst (step hypot blurPx sens takt st a)) /\
  cyclesOf (snd (step hypot blurPx sens takt st a)) = [].
Proof.
  unfold lostForGood. intros Ha [Hanchor Hlost].
  destruct a; cbn [step fst snd cyclesOf].
  - unfold processFrame, processFrameBody. rewrite Hanchor, Hlost. cbn [negb].
    break_match; cbn; rewrite ?Hanchor, ?Hlost; auto.
  - cbn. auto.
  - rewrite handleMouseDown_engine. auto.
  - rewrite handleMouseMove_engine. auto.
  - unfold handleMouseUp. break_match; cbn; auto.
  - destruct t; try discriminate;
      rewrite ?captureReference_cycles;
      (split; [|break_match; rewrite ?captureReference_cycles; reflexivity]);
      unfold captureReference, captureFrom; break_match; cbn; auto.
  - break_match; cbn; auto.
  - unfold onArmClick. break_match; cbn; auto.
  - cbn. auto.
  - unfold resetOnVideoSrc. cbn. split; [auto|]. destruct (truthy videoSrc); reflexivity.
Qed.

(** X9: the lost flag is cleared by a good template match only, and a
    match needs an anchor template.  So once tracking is lost and the
    template is gone (the anchor was redrawn, or the video source
    changed: the reset drops the template but keeps the flag), no frame is
    scored and no cycle is reported, whatever else happens, until an
    anchor is captured again. *)
Theorem lost_without_anchor_is_silent hypot blurPx sens takt acts : forall st,
  anchorMat (engine st) = None ->
  isTrackingLost (tracker (engine st)) = true ->
  forallb (fun a => negb (isAnchorCapture a)) acts = true ->
  cyclesOf (snd (session hypot blurPx sens takt st acts)) = [] /\
  anchorMat (engine (fst (session hypot blurPx sens takt st acts))) = None /\
  isTrackingLost (tracker (engine (fst (session hypot blurPx sens takt st acts)))) = true.
Proof.
  induction acts as [|a rest IH]; intros st Hanchor Hlost Hacts.
  - cbn. auto.
  - cbn [forallb] in Hacts. apply andb_true_iff in Hacts as [Ha Hrest].
    apply negb_true_iff in Ha.
    destruct (step_lostForGood hypot blurPx sens takt st a Ha (conj Hanchor Hlost))
      as [[Hanchor1 Hlost1] Hcy].
    rewrite session_cons. cbv zeta. cbn [fst snd].
    rewrite cyclesOf_app, Hcy.
    apply (IH _ Hanchor1 Hlost1 Hrest).
Qed.

Lemma lost_without_anchor_is_silent_witness :
  cyclesOf (snd (session hypotOnAxis noBlur 10 10 lostThenReset reconfigure)) = [] /\
  anchorMat (engine (fst (session hypotOnAxis noBlur 10 10 lostThenReset reconfigure)))
    = None /\
  isTrackingLost (tracker (engine (fst
    (session hypotOnAxis noBlur 10 10 lostThenReset reconfigure)))) = true.
Proof.
  apply lost_without_anchor_is_silent; vm_compute; reflexivity.
Defined.

(** The same reconfiguration on an analyzer whose tracking was not lost
    does report the cycle. *)
Example reconfigure_without_lost_flag :
  map (fun cy => (startTime cy, endTime cy))
      (cyclesOf (snd (session hypotOnAxis noBlur 10 10
                        (fst (resetOnVideoSrc (Some "b.mp4"%string)
                                              (armed (trackerAt 0 0 false))))
                        reconfigure)))
    = [(1, 6)] /\
  mode (ui (fst (session hypotOnAxis noBlur 10 10 lostThenReset reconfigure))) = running.
Proof. split; vm_compute; reflexivity. Qed.

(** ** Arming *)

Lemma step_thumbnailBacked hypot blurPx sens takt st a :
  thumbnailBacked st -> thumbnailBacked (fst (step hypot blurPx sens takt st a)).
Proof.
  unfold thumbnailBacked. intros Hb.
  destruct a; cbn [step fst].
  - unfold processFrame, processFrameBody. break_match; cbn; exact Hb.
  - exact Hb.
  - rewrite handleMouseDown_engine. unfold handleMouseDown.
    break_match; cbn; try exact Hb; discriminate.
  - rewrite handleMouseMove_engine. unfold handleMouseMove.
    break_match; cbn; exact Hb.
  - unfold handleMouseUp. break_match; cbn; try exact Hb; discriminate.
  - unfold captureReference, captureFrom. break_match; cbn; try exact Hb.
    intros _. eexists. split; reflexivity.
  - break_match; cbn; exact Hb.
  - unfold onArmClick. break_match; cbn; exact Hb.
  - exact Hb.
  - cbn. discriminate.
Qed.

(** X10: in any session that starts from the freshly mounted component,
    the ARM SYSTEM button switches to running mode only when a zone
    exists and a live reference matrix is stored: the thumbnail it checks
    is never set without the matrix. *)
Theorem arming_needs_zone_and_reference hypot blurPx sens takt steps acts :
  let st := fst (session hypot blurPx sens takt (initialAnalyzer steps) acts) in
  mode (ui st) = setup ->
  mode (ui (fst (onArmClick st))) = running ->
  triggerSteps (ui st) <> [] /\
  exists m, startRefMat (engine st) = Some m /\ isDeleted m = false.
Proof.
  cbv zeta.
  assert (Hb : thumbnailBacked
                 (fst (session hypot blurPx sens takt (initialAnalyzer steps) acts))).
  { apply (session_invariant hypot blurPx sens takt thumbnailBacked).
    - intros st a. apply step_thumbnailBacked.
    - unfold thumbnailBacked. cbn. discriminate. }
  set (st := fst (session hypot blurPx sens takt (initialAnalyzer steps) acts)) in *.
  intros Hsetup Harm. unfold onArmClick in Harm. rewrite Hsetup in Harm.
  destruct (triggerSteps (ui st)) as [|s0 rest] eqn:Hsteps;
    [cbn in Harm; congruence|].
  destruct (truthy (ref_start (refImages (ui st)))) eqn:Hthumb;
    cbn [negb fst ui] in Harm; [|congruence].
  split; [discriminate | exact (Hb Hthumb)].
Qed.

Lemma arming_needs_zone_and_reference_witness :
  let st := fst (session hypotOnAxis noBlur 10 10 (initialAnalyzer [])
                   [CvLoaded; SubModeClick start_roi;
                    MouseDown {| x := 10; y := 10 |}; MouseMove {| x := 30; y := 30 |};
                    MouseUp;
                    CaptureClick target_start (FrameOk (frameAt 0 0 (flat 480 640 0) None))]) in
  triggerSteps (ui st) <> [] /\
  exists m, startRefMat (engine st) = Some m /\ isDeleted m = false.
Proof.
  cbv zeta.
  apply (arming_needs_zone_and_reference hypotOnAxis noBlur 10 10 []
           [CvLoaded; SubModeClick start_roi;
            MouseDown {| x := 10; y := 10 |}; MouseMove {| x := 30; y := 30 |};
            MouseUp;
            CaptureClick target_start (FrameOk (frameAt 0 0 (flat 480 640 0) None))]);
    vm_compute; reflexivity.
Defined.

(** X11: pressing the mouse on a zone in setup mode makes the next ARM
    SYSTEM click fail: the analyzer stays in setup mode and asks for the
    reference to be captured again. *)
Theorem drag_blocks_arming st pt s :
  setupSubMode (ui st) = none ->
  mode (ui st) = setup ->
  find (fun z => isPointInRect pt (rect z)) (triggerSteps (ui st)) = Some s ->
  onArmClick (handleMouseDown st pt)
    = (handleMouseDown st pt, [Alert "Please capture Empty State Reference"]).
Proof.
  intros Hsub Hmode Hfind.
  assert (Hne : triggerSteps (ui st) <> []).
  { destruct (triggerSteps (ui st)); [discriminate Hfind | discriminate]. }
  unfold handleMouseDown. rewrite Hsub, Hmode, Hfind.
  unfold onArmClick. cbn.
  destruct (triggerSteps (ui st)); [congruence | reflexivity].
Qed.

Lemma drag_blocks_arming_witness :
  onArmClick (handleMouseDown referenceCaptured {| x := 12; y := 12 |})
    = (handleMouseDown referenceCaptured {| x := 12; y := 12 |},
       [Alert "Please capture Empty State Reference"]).
Proof.
  apply (drag_blocks_arming referenceCaptured {| x := 12; y := 12 |} zoneStep);
    reflexivity.
Defined.

(** STOP & EDIT always brings the controller back to IDLE and the
    analyzer to setup mode, keeps everything else of the engine (signal,
    tracker, reference, timers) and reports nothing; a cycle that was
    being timed is dropped. *)
Theorem stop_resets_controller st :
  mode (ui st) = running ->
  let st' := fst (onArmClick st) in
  snd (onArmClick st) = [] /\
  mode (ui st') = setup /\
  logicState (controller (engine st')) = IDLE /\
  cycleStartTime (controller (engine st')) = cycleStartTime (controller (engine st)) /\
  cooldownTimer (controller (engine st')) = cooldownTimer (controller (engine st)) /\
  signalState (engine st') = signalState (engine st) /\
  tracker (engine st') = tracker (engine st) /\
  startRefMat (engine st') = startRefMat (engine st) /\
  triggerSteps (ui st') = triggerSteps (ui st) /\
  refImages (ui st') = refImages (ui st).
Proof.
  intros Hmode. unfold onArmClick. rewrite Hmode. cbn. repeat split.
Qed.

Lemma stop_resets_controller_witness :
  let st := fst (session hypotOnAxis noBlur 10 10 armedPlain
                   [Tick (frameAt 1000 1 (flat 480 640 200) None)]) in
  logicState (controller (engine st)) = TRIGGERED /\
  logicState (controller (engine (fst (onArmClick st)))) = IDLE /\
  mode (ui (fst (onArmClick st))) = setup.
Proof.
  cbv zeta. split; [vm_compute; reflexivity|].
  pose proof (stop_resets_controller
                (fst (session hypotOnAxis noBlur 10 10 armedPlain
                        [Tick (frameAt 1000 1 (flat 480 640 200) None)])))
    as H.
  cbv zeta in H. destruct H as (_ & Hm & Hl & _); [vm_compute; reflexivity|].
  split; assumption.
Defined.

(** ** Capturing and scoring *)

(** X12: capturing a reference is idempotent: a second capture of the
    same target on the same frame fires the same callbacks and leaves
    the state the first capture produced (same matrix, same thumbnail). *)
Theorem capture_is_idempotent blurPx t st read :
  captureReference blurPx t (fst (captureReference blurPx t st read)) read
    = captureReference blurPx t st read.
Proof.
  destruct read as [f | message]; [|reflexivity].
  unfold captureReference, captureFrom. destruct t.
  - destruct (nth_error (triggerSteps (ui st)) 0) as [s0|] eqn:Hs;
      cbn [fst]; rewrite ?Hs; [|reflexivity].
    destruct (extractRoiMat (rect s0) (gray f)) as [roi|] eqn:Hroi;
      cbn [fst ui engine set_refImages triggerSteps]; rewrite Hs, ?Hroi; reflexivity.
  - destruct (nth_error (triggerSteps (ui st)) 1) as [s1|] eqn:Hs;
      cbn [fst]; rewrite ?Hs; [|reflexivity].
    destruct (extractRoiMat (rect s1) (gray f)) as [roi|] eqn:Hroi;
      cbn [fst]; rewrite Hs, ?Hroi; reflexivity.
  - destruct (anchorRect (ui st)) as [ar|] eqn:Har;
      cbn [fst]; rewrite ?Har; [|reflexivity].
    destruct (extractRoiMat ar (gray f)) as [roi|] eqn:Hroi;
      cbn [fst ui engine set_refImages anchorRect]; rewrite Har, ?Hroi; reflexivity.
Qed.

Lemma sum_upto_zero (f : Z -> Z) (n : nat) :
  (forall k, f k = 0%Z) -> sum_upto n f = 0%Z.
Proof.
  intros Hf. induction n as [|n IH]; [reflexivity|].
  cbn [sum_upto]. rewrite IH, Hf. reflexivity.
Qed.

Lemma extractRoiMat_plus_zero (r : Rect) (src : Mat) :
  extractRoiMat (adjustRect r {| x := 0; y := 0 |}) src = extractRoiMat r src.
Proof.
  unfold extractRoiMat, adjustRect. cbn [rect_x rect_y width height x y].
  assert (Hx : Qfloor (rect_x r + 0) = Qfloor (rect_x r))
    by (apply Qfloor_comp; ring).
  assert (Hy : Qfloor (rect_y r + 0) = Qfloor (rect_y r))
    by (apply Qfloor_comp; ring).
  now rewrite Hx, Hy.
Qed.

(** X13: a frame scored against the reference that was just captured
    from it scores 0: with the zone where it was captured and no
    tracking offset, no pixel differs, whatever the blur computes.  (When
    no patch can be extracted the capture fails and the score is 0 as
    well.) *)
Theorem fresh_reference_scores_zero blurPx st f step0 :
  nth_error (triggerSteps (ui st)) 0 = Some step0 ->
  let st1 := fst (captureReference blurPx target_start st (FrameOk f)) in
  calculateChangeScore blurPx (gray f) (startRefMat (engine st1)) (rect step0)
                       {| x := 0; y := 0 |} == 0.
Proof.
  intros Hs. cbv zeta.
  unfold captureReference, captureFrom. rewrite Hs.
  destruct (extractRoiMat (rect step0) (gray f)) as [roi|] eqn:Hext.
  2: { cbn [fst]. unfold calculateChangeScore.
       destruct (startRefMat (engine st)) as [ref|]; [|reflexivity].
       destruct (isDeleted ref); [reflexivity|].
       rewrite extractRoiMat_plus_zero, Hext. reflexivity. }
  cbn [fst engine set_startRefMat startRefMat].
  unfold calculateChangeScore. cbn [isDeleted GaussianBlur].
  rewrite extractRoiMat_plus_zero, Hext.
  unfold absdiff. cbn [rows cols GaussianBlur]. rewrite !Z.eqb_refl. cbn [andb].
  assert (Hcount : countNonZero
            (threshold
               {| rows := rows roi; cols := cols roi;
                  px := fun r c =>
                          Z.abs (px (GaussianBlur blurPx roi CV_CONFIG.BLUR_SIZE) r c
                                 - px (GaussianBlur blurPx roi CV_CONFIG.BLUR_SIZE) r c);
                  isDeleted := false |} CV_CONFIG.DIFF_THRESHOLD 255) = 0%Z).
  { unfold countNonZero. apply sum_upto_zero. intros r.
    apply sum_upto_zero. intros c. cbn [px threshold].
    now rewrite Z.sub_diag. }
  cbn [GaussianBlur px] in Hcount |- *. rewrite Hcount.
  destruct (_ >? 0); [|reflexivity].
  unfold Qdiv. ring.
Qed.

Lemma fresh_reference_scores_zero_witness :
  calculateChangeScore noBlur halfLit
    (startRefMat (engine (fst (captureReference noBlur target_start zoneDrawn
                                                (FrameOk (frameAt 0 0 halfLit None))))))
    (rect zoneStep) {| x := 0; y := 0 |} == 0.
Proof.
  apply (fresh_reference_scores_zero noBlur zoneDrawn (frameAt 0 0 halfLit None) zoneStep).
  reflexivity.
Defined.

(** X14: the patch [extractRoiMat] returns is the part of the floored
    rectangle that lies inside the source matrix: it starts at
    (max 0 floor(x), max 0 floor(y)), ends inside the matrix, copies the
    source pixels there, is more than one pixel wide and high, and is a
    live matrix. *)
Theorem extractRoiMat_in_bounds (r : Rect) (src roi : Mat) :
  extractRoiMat r src = Some roi ->
  let x0 := Z.max 0 (Qfloor (rect_x r)) in
  let y0 := Z.max 0 (Qfloor (rect_y r)) in
  (0 <= x0 /\ x0 + cols roi <= cols src /\
   0 <= y0 /\ y0 + rows roi <= rows src /\
   1 < cols roi /\ 1 < rows roi)%Z /\
  (forall i j, px roi i j = px src (y0 + i)%Z (x0 + j)%Z) /\
  isDeleted roi = false.
Proof.
  unfold extractRoiMat. cbv zeta.
  destruct (Z.ltb_spec (Qfloor (rect_x r)) 0) as [Hx | Hx];
  destruct (Z.ltb_spec (Qfloor (rect_y r)) 0) as [Hy | Hy];
  repeat match goal with
         | |- context [(?a >? ?b)%Z] => destruct (Z.gtb_spec a b)
         end;
  match goal with
  | |- context [((?a <=? 1) || (?b <=? 1))%Z] =>
      destruct (Z.leb_spec a 1); destruct (Z.leb_spec b 1)
  end; cbn [orb]; intros Hroi; try discriminate;
  injection Hroi as <-; cbn [rows cols px isDeleted roi_clone];
  rewrite ?(Z.max_l 0 (Qfloor (rect_x r))) by lia;
  rewrite ?(Z.max_r 0 (Qfloor (rect_x r))) by lia;
  rewrite ?(Z.max_l 0 (Qfloor (rect_y r))) by lia;
  rewrite ?(Z.max_r 0 (Qfloor (rect_y r))) by lia;
  (split; [lia|]); split; reflexivity.
Qed.

Lemma extractRoiMat_in_bounds_witness :
  let r := {| rect_x := -3.5; rect_y := 40.2; width := 10; height := 20 |} in
  let roi := roi_clone halfLit 0 40 6 8 in
  (0 <= 0 /\ 0 + cols roi <= cols halfLit /\
   0 <= 40 /\ 40 + rows roi <= rows halfLit /\
   1 < cols roi /\ 1 < rows roi)%Z /\
  (forall i j, px roi i j = px halfLit (40 + i)%Z (0 + j)%Z) /\
  isDeleted roi = false.
Proof.
  cbv zeta.
  apply (extractRoiMat_in_bounds
           {| rect_x := -3.5; rect_y := 40.2; width := 10; height := 20 |} halfLit
           (roi_clone halfLit 0 40 6 8)).
  reflexivity.
Defined.

Lemma Qfloor_below_two (q : Q) : q < 2 -> (Qfloor q <= 1)%Z.
Proof.
  intros Hq. destruct (Z_le_gt_dec (Qfloor q) 1) as [Hle | Hgt]; [exact Hle|].
  exfalso. pose proof (Qfloor_le q) as Hfl.
  assert (H2 : inject_Z 2 <= inject_Z (Qfloor q)) by (rewrite <- Zle_Qle; lia).
  change (inject_Z 2) with 2 in H2. lra.
Qed.

Lemma extractRoiMat_thin (r : Rect) (src : Mat) :
  width r < 2 \/ height r < 2 -> extractRoiMat r src = None.
Proof.
  intros Hthin.
  assert (Hfl : (Qfloor (width r) <= 1 \/ Qfloor (height r) <= 1)%Z)
    by (destruct Hthin as [H | H]; [left | right]; now apply Qfloor_below_two).
  unfold extractRoiMat. cbv zeta.
  destruct (Z.ltb_spec (Qfloor (rect_x r)) 0) as [Hx | Hx];
  destruct (Z.ltb_spec (Qfloor (rect_y r)) 0) as [Hy | Hy];
  repeat match goal with
         | |- context [(?a >? ?b)%Z] => destruct (Z.gtb_spec a b)
         end;
  match goal with
  | |- context [((?a <=? 1) || (?b <=? 1))%Z] =>
      destruct (Z.leb_spec a 1); destruct (Z.leb_spec b 1)
  end; cbn [orb]; try reflexivity; exfalso; lia.
Qed.

(** X15: a zone less than 2 px wide or high is never captured: the
    capture button leaves the state as it is.  When the frame could be
    read the failure is silent, no callback is fired, neither a status
    nor an alert; when reading the frame threw, the only callback is the
    alert "Capture failed: ..." with the error's message. *)
Theorem thin_zone_is_never_captured blurPx st read step0 :
  nth_error (triggerSteps (ui st)) 0 = Some step0 ->
  width (rect step0) < 2 \/ height (rect step0) < 2 ->
  captureReference blurPx target_start st read =
    (st, match read with
         | FrameOk _ => []
         | FrameError message => [Alert ("Capture failed: " ++ message)]
         end).
Proof.
  intros Hs Hthin. destruct read as [f | message]; [|reflexivity].
  unfold captureReference, captureFrom. rewrite Hs.
  now rewrite extractRoiMat_thin.
Qed.

Lemma thin_zone_is_never_captured_witness :
  triggerSteps (ui flatZoneDrawn) = [flatStep] /\
  captureReference noBlur target_start flatZoneDrawn (FrameOk (frameAt 0 0 halfLit None))
    = (flatZoneDrawn, []) /\
  captureReference noBlur target_start flatZoneDrawn (FrameError "Frame read failed")
    = (flatZoneDrawn, [Alert "Capture failed: Frame read failed"]) /\
  snd (onArmClick flatZoneDrawn) = [Alert "Please capture Empty State Reference"].
Proof.
  split; [reflexivity|]. split; [|split; [|reflexivity]].
  - apply (thin_zone_is_never_captured noBlur flatZoneDrawn
             (FrameOk (frameAt 0 0 halfLit None)) flatStep); [reflexivity|].
    right. reflexivity.
  - apply (thin_zone_is_never_captured noBlur flatZoneDrawn
             (FrameError "Frame read failed") flatStep); [reflexivity|].
    right. reflexivity.
Defined.

(** ** Mouse gestures *)

Lemma moveStep_id did pt off z : step_id (moveStep did pt off z) = step_id z.
Proof. unfold moveStep. now destruct (String.eqb (step_id z) did). Qed.

Lemma moveStep_twice did q1 q2 off z :
  moveStep did q2 off (moveStep did q1 off z) = moveStep did q2 off z.
Proof.
  unfold moveStep. destruct (String.eqb (step_id z) did) eqn:E; cbn; now rewrite E.
Qed.

Lemma truthy_Some (s : string) : s <> EmptyString -> truthy (Some s) = true.
Proof. destruct s; [congruence | reflexivity]. Qed.

Lemma find_In {A} (f : A -> bool) (l : list A) (a : A) :
  find f l = Some a -> In a l /\ f a = true.
Proof. apply find_some. Qed.

Lemma handleMouseDown_hit st p s :
  setupSubMode (ui st) = none ->
  mode (ui st) = setup ->
  find (fun z => isPointInRect p (rect z)) (triggerSteps (ui st)) = Some s ->
  draggingStepId (ui (handleMouseDown st p)) = Some (step_id s) /\
  dragOffset (ui (handleMouseDown st p)) = grip p s /\
  triggerSteps (ui (handleMouseDown st p)) = triggerSteps (ui st) /\
  ref_start (refImages (ui (handleMouseDown st p))) = None.
Proof.
  intros Hsub Hmode Hfind. unfold handleMouseDown.
  rewrite Hsub, Hmode, Hfind. cbn. repeat split.
Qed.

Lemma handleMouseMove_dragging st did q :
  draggingStepId (ui st) = Some did -> did <> EmptyString ->
  handleMouseMove st q =
    {| ui := set_triggerSteps (ui st)
               (map (moveStep did q (dragOffset (ui st))) (triggerSteps (ui st)));
       engine := engine st |}.
Proof.
  intros Hd Hne. unfold handleMouseMove. rewrite Hd, (truthy_Some _ Hne). reflexivity.
Qed.

(** X16: dragging a zone.  After the mouse is pressed inside a zone (in
    setup mode, no drawing tool selected) and moved, the pressed zone is
    translated by exactly the pointer's displacement and keeps its size;
    every zone keeps its place in the list, its id and its size, and the
    zones with another id do not move at all. *)
Theorem drag_translates_zone st p q s :
  setupSubMode (ui st) = none ->
  mode (ui st) = setup ->
  find (fun z => isPointInRect p (rect z)) (triggerSteps (ui st)) = Some s ->
  step_id s <> EmptyString ->
  let st' := handleMouseMove (handleMouseDown st p) q in
  List.length (triggerSteps (ui st')) = List.length (triggerSteps (ui st)) /\
  forall n z, nth_error (triggerSteps (ui st)) n = Some z ->
    exists z', nth_error (triggerSteps (ui st')) n = Some z' /\
      step_id z' = step_id z /\
      width (rect z') = width (rect z) /\ height (rect z') = height (rect z) /\
      (step_id z <> step_id s -> z' = z) /\
      (z = s ->
         rect_x (rect z') == rect_x (rect s) + (x q - x p) /\
         rect_y (rect z') == rect_y (rect s) + (y q - y p)).
Proof.
  intros Hsub Hmode Hfind Hne. cbv zeta.
  destruct (handleMouseDown_hit st p s Hsub Hmode Hfind) as (Hd & Hoff & Hsteps & _).
  rewrite (handleMouseMove_dragging _ _ q Hd Hne). cbn [ui triggerSteps set_triggerSteps].
  rewrite Hoff, Hsteps. split; [apply length_map|].
  intros n z Hz. exists (moveStep (step_id s) q (grip p s) z).
  split; [now rewrite nth_error_map, Hz|].
  unfold moveStep.
  destruct (String.eqb_spec (step_id z) (step_id s)) as [Heq | Hneq];
    cbn [step_id rect width height rect_x rect_y grip x y].
  - split; [reflexivity|]. split; [reflexivity|]. split; [reflexivity|].
    split; [congruence|]. intros ->. split; ring.
  - split; [reflexivity|]. split; [reflexivity|]. split; [reflexivity|].
    split; [reflexivity|]. intros ->. congruence.
Qed.

Lemma drag_translates_zone_witness :
  let st' := handleMouseMove (handleMouseDown referenceCaptured {| x := 12; y := 12 |})
                             {| x := 20; y := 15 |} in
  exists z', nth_error (triggerSteps (ui st')) 0 = Some z' /\
    step_id z' = step_id zoneStep /\
    width (rect z') = width zone /\ height (rect z') = height zone /\
    rect_x (rect z') == rect_x zone + (20 - 12) /\
    rect_y (rect z') == rect_y zone + (15 - 12).
Proof.
  cbv zeta.
  destruct (drag_translates_zone referenceCaptured {| x := 12; y := 12 |}
              {| x := 20; y := 15 |} zoneStep eq_refl eq_refl eq_refl)
    as [_ H]; [discriminate|].
  destruct (H 0%nat zoneStep eq_refl) as (z' & Hn & Hid & Hw & Hh & _ & Hmove).
  exists z'. repeat split; try assumption; now apply Hmove.
Defined.

(** X17: a drag does not accumulate: while a zone is dragged, moving the
    pointer to q1 and then to q2 leaves exactly the state of moving it to
    q2 at once, and releasing the button keeps the zones where they are
    and ends the drag. *)
Theorem drag_is_path_independent st p q1 q2 s :
  setupSubMode (ui st) = none ->
  mode (ui st) = setup ->
  find (fun z => isPointInRect p (rect z)) (triggerSteps (ui st)) = Some s ->
  step_id s <> EmptyString ->
  let pressed := handleMouseDown st p in
  handleMouseMove (handleMouseMove pressed q1) q2 = handleMouseMove pressed q2 /\
  triggerSteps (ui (handleMouseUp (handleMouseMove pressed q2)))
    = triggerSteps (ui (handleMouseMove pressed q2)) /\
  draggingStepId (ui (handleMouseUp (handleMouseMove pressed q2))) = None.
Proof.
  intros Hsub Hmode Hfind Hne. cbv zeta.
  destruct (handleMouseDown_hit st p s Hsub Hmode Hfind) as (Hd & Hoff & Hsteps & _).
  rewrite !(handleMouseMove_dragging (handleMouseDown st p) _ _ Hd Hne).
  split.
  - rewrite (handleMouseMove_dragging _ (step_id s) q2) by (cbn; assumption).
    unfold set_triggerSteps. cbn.
    rewrite map_map.
    rewrite (map_ext _ _ (fun z => moveStep_twice (step_id s) q1 q2
                                     (dragOffset (ui (handleMouseDown st p))) z)).
    reflexivity.
  - unfold handleMouseUp. cbn [ui set_triggerSteps draggingStepId].
    rewrite Hd, (truthy_Some _ Hne). cbn. split; reflexivity.
Qed.

Lemma drag_is_path_independent_witness :
  let pressed := handleMouseDown referenceCaptured {| x := 12; y := 12 |} in
  handleMouseMove (handleMouseMove pressed {| x := 50; y := 3 |}) {| x := 20; y := 15 |}
    = handleMouseMove pressed {| x := 20; y := 15 |} /\
  triggerSteps (ui (handleMouseUp (handleMouseMove pressed {| x := 20; y := 15 |})))
    = triggerSteps (ui (handleMouseMove pressed {| x := 20; y := 15 |})) /\
  draggingStepId (ui (handleMouseUp (handleMouseMove pressed {| x := 20; y := 15 |})))
    = None.
Proof.
  cbv zeta.
  apply (drag_is_path_independent referenceCaptured {| x := 12; y := 12 |}
           {| x := 50; y := 3 |} {| x := 20; y := 15 |} zoneStep);
    reflexivity || discriminate.
Defined.

Lemma Qleb_true (a b : Q) : a <= b -> Qleb a b = true.
Proof. intros H. now apply Qle_bool_iff. Qed.

Lemma spanned_contains (p q : Point) :
  isPointInRect p (spanned p q) = true /\ isPointInRect q (spanned p q) = true.
Proof.
  unfold isPointInRect, spanned. cbn [rect_x rect_y width height].
  destruct (Q.min_spec (x q) (x p)) as [[Hx Ex] | [Hx Ex]];
  destruct (Q.min_spec (y q) (y p)) as [[Hy Ey] | [Hy Ey]];
  pose proof (Qabs_nonneg (x q - x p)) as Hax;
  pose proof (Qabs_nonneg (y q - y p)) as Hay;
  pose proof (Qle_Qabs (x q - x p)) as Hbx;
  pose proof (Qle_Qabs (y q - y p)) as Hby;
  assert (Hcx : - (x q - x p) <= Qabs (x q - x p))
    by (rewrite <- Qabs_opp; apply Qle_Qabs);
  assert (Hcy : - (y q - y p) <= Qabs (y q - y p))
    by (rewrite <- Qabs_opp; apply Qle_Qabs);
  split; rewrite !Qleb_true; try reflexivity; lra.
Qed.

Lemma draw_gesture st p q :
  setupSubMode (ui st) <> none ->
  truthy (draggingStepId (ui st)) = false ->
  let moved := handleMouseMove (handleMouseDown st p) q in
  dragStart (ui moved) = Some p /\
  drawingRect (ui moved) = Some (spanned p q) /\
  setupSubMode (ui moved) = setupSubMode (ui st) /\
  draggingStepId (ui moved) = draggingStepId (ui st) /\
  triggerSteps (ui moved) = triggerSteps (ui st) /\
  refImages (ui moved) = refImages (ui st) /\
  anchorRect (ui moved) = anchorRect (ui st) /\
  engine moved = engine st.
Proof.
  intros Hsub Htr. cbv zeta. unfold handleMouseDown.
  destruct (setupSubMode (ui st)) eqn:E; try congruence.
  all: unfold handleMouseMove; cbn [ui draggingStepId dragStart]; rewrite Htr.
  all: cbn; repeat split.
Qed.

(** A gesture made with a tool selected while a zone drag is still in
    progress drags that zone: the zones with the dragged id follow the
    pointer with the old grip, nothing is drawn, and the release ends both
    the drag and the tool. *)
Lemma gesture_during_drag st p q did :
  setupSubMode (ui st) <> none ->
  draggingStepId (ui st) = Some did ->
  did <> EmptyString ->
  let st' := handleMouseUp (handleMouseMove (handleMouseDown st p) q) in
  triggerSteps (ui st') = map (moveStep did q (dragOffset (ui st))) (triggerSteps (ui st)) /\
  draggingStepId (ui st') = None /\
  refImages (ui st') = refImages (ui st) /\
  anchorRect (ui st') = anchorRect (ui st) /\
  setupSubMode (ui st') = none /\ dragStart (ui st') = None /\
  drawingRect (ui st') = None /\
  engine st' = engine st.
Proof.
  intros Hsub Hd Hne. cbv zeta.
  assert (Hpressed : draggingStepId (ui (handleMouseDown st p)) = Some did /\
                     dragOffset (ui (handleMouseDown st p)) = dragOffset (ui st) /\
                     triggerSteps (ui (handleMouseDown st p)) = triggerSteps (ui st) /\
                     refImages (ui (handleMouseDown st p)) = refImages (ui st) /\
                     anchorRect (ui (handleMouseDown st p)) = anchorRect (ui st)).
  { unfold handleMouseDown.
    destruct (setupSubMode (ui st)); try congruence; cbn; repeat split; exact Hd. }
  destruct Hpressed as (Hd1 & Hoff & Hsteps & Hri & Har).
  rewrite (handleMouseMove_dragging _ _ q Hd1 Hne).
  unfold handleMouseUp. cbn [ui set_triggerSteps draggingStepId].
  rewrite Hd1, (truthy_Some _ Hne).
  cbn [ui engine endDrag triggerSteps draggingStepId refImages anchorRect
       setupSubMode dragStart drawingRect set_triggerSteps].
  rewrite Hoff, Hsteps, Hri, Har, handleMouseDown_engine.
  repeat split.
Qed.

(** X18: drawing a zone.  With the zone tool selected, pressing at p,
    moving to q and releasing always ends the gesture (tool deselected,
    no drawing rectangle) without touching the engine.  When no zone drag
    is in progress: if the pointer moved more than 10 px horizontally the
    zone list becomes the single zone "start" spanned by p and q, which
    contains both points, and the reference thumbnail is cleared;
    otherwise zones and thumbnails stay as they were; the height of the
    gesture plays no part.  When a zone drag is still in progress (the
    button was released outside the canvas) no zone is drawn: the dragged
    zone follows the pointer, the thumbnails are kept and the drag ends. *)
Theorem draw_zone_gesture st p q :
  setupSubMode (ui st) = start_roi ->
  let st' := handleMouseUp (handleMouseMove (handleMouseDown st p) q) in
  (setupSubMode (ui st') = none /\ dragStart (ui st') = None /\
   drawingRect (ui st') = None /\ engine st' = engine st) /\
  (truthy (draggingStepId (ui st)) = false ->
     (10 < Qabs (x q - x p) ->
        triggerSteps (ui st') =
          [{| step_id := "start"; name := "Work Zone"; rect := spanned p q;
              isActive := false; hitCount := 0 |}] /\
        ref_start (refImages (ui st')) = None /\
        isPointInRect p (spanned p q) = true /\
        isPointInRect q (spanned p q) = true) /\
     (Qabs (x q - x p) <= 10 ->
        triggerSteps (ui st') = triggerSteps (ui st) /\
        refImages (ui st') = refImages (ui st))) /\
  (forall did, draggingStepId (ui st) = Some did -> did <> EmptyString ->
     triggerSteps (ui st') =
       map (moveStep did q (dragOffset (ui st))) (triggerSteps (ui st)) /\
     refImages (ui st') = refImages (ui st) /\
     draggingStepId (ui st') = None).
Proof.
  intros Hsub. cbv zeta.
  assert (Hne : setupSubMode (ui st) <> none) by congruence.
  assert (Hfree : truthy (draggingStepId (ui st)) = false ->
            (setupSubMode (ui (handleMouseUp (handleMouseMove (handleMouseDown st p) q)))
               = none /\
             dragStart (ui (handleMouseUp (handleMouseMove (handleMouseDown st p) q)))
               = None /\
             drawingRect (ui (handleMouseUp (handleMouseMove (handleMouseDown st p) q)))
               = None /\
             engine (handleMouseUp (handleMouseMove (handleMouseDown st p) q))
               = engine st) /\
            (10 < Qabs (x q - x p) ->
               triggerSteps (ui (handleMouseUp (handleMouseMove (handleMouseDown st p) q))) =
                 [{| step_id := "start"; name := "Work Zone"; rect := spanned p q;
                     isActive := false; hitCount := 0 |}] /\
               ref_start (refImages
                 (ui (handleMouseUp (handleMouseMove (handleMouseDown st p) q)))) = None /\
               isPointInRect p (spanned p q) = true /\
               isPointInRect q (spanned p q) = true) /\
            (Qabs (x q - x p) <= 10 ->
               triggerSteps (ui (handleMouseUp (handleMouseMove (handleMouseDown st p) q)))
                 = triggerSteps (ui st) /\
               refImages (ui (handleMouseUp (handleMouseMove (handleMouseDown st p) q)))
                 = refImages (ui st))).
  { intros Htr.
    destruct (draw_gesture st p q Hne Htr)
      as (Hds & Hdr & Hsm & Hdi & Hts & Hri & Har & Hen).
    unfold handleMouseUp. rewrite Hdi, Htr, Hds, Hdr, Hsm, Hsub.
    cbn [width spanned].
    destruct (Qltb_spec 10 (Qabs (x q - x p))) as [Hw | Hw];
      cbn -[Qabs spanned isPointInRect Qlt Qle].
    - split; [repeat split; exact Hen|]. split.
      + intros _. split; [reflexivity|]. split; [reflexivity|]. apply spanned_contains.
      + intros Hle. exfalso. lra.
    - split; [repeat split; exact Hen|]. split.
      + intros Hlt. exfalso. lra.
      + intros _. split; assumption. }
  split; [|split].
  - destruct (truthy (draggingStepId (ui st))) eqn:Htr.
    + destruct (draggingStepId (ui st)) as [did|] eqn:Hd; [|discriminate].
      assert (Hdid : did <> EmptyString) by (destruct did; [discriminate | discriminate]).
      destruct (gesture_during_drag st p q did Hne Hd Hdid)
        as (_ & _ & _ & _ & H1 & H2 & H3 & H4).
      repeat split; assumption.
    + apply (Hfree eq_refl).
  - intros Htr. destruct (Hfree Htr) as (_ & Hwide & Hnarrow). split; assumption.
  - intros did Hd Hdid.
    destruct (gesture_during_drag st p q did Hne Hd Hdid) as (H1 & H2 & H3 & _).
    repeat split; assumption.
Qed.

Lemma draw_zone_gesture_witness :
  let st := {| ui := set_setupSubMode (initialUI []) start_roi; engine := initialEngine |} in
  let p := {| x := 10; y := 10 |} in
  let q := {| x := 40; y := 10 |} in
  let st' := handleMouseUp (handleMouseMove (handleMouseDown st p) q) in
  let stuck := handleMouseUp (handleMouseMove (handleMouseDown (stuckDrag start_roi)
                                                 {| x := 100; y := 90 |})
                                              {| x := 200; y := 180 |}) in
  (triggerSteps (ui st') =
     [{| step_id := "start"; name := "Work Zone"; rect := spanned p q;
         isActive := false; hitCount := 0 |}] /\
   ref_start (refImages (ui st')) = None /\
   isPointInRect p (spanned p q) = true /\
   isPointInRect q (spanned p q) = true) /\
  (triggerSteps (ui stuck) =
     map (moveStep "start" {| x := 200; y := 180 |} (dragOffset (ui (stuckDrag start_roi))))
         (triggerSteps (ui (stuckDrag start_roi))) /\
   refImages (ui stuck) = refImages (ui (stuckDrag start_roi)) /\
   draggingStepId (ui stuck) = None).
Proof.
  cbv zeta. split.
  - apply (proj1 (proj1 (proj2 (draw_zone_gesture
             {| ui := set_setupSubMode (initialUI []) start_roi; engine := initialEngine |}
             {| x := 10; y := 10 |} {| x := 40; y := 10 |} eq_refl)) eq_refl)).
    reflexivity.
  - apply (proj2 (proj2 (draw_zone_gesture (stuckDrag start_roi)
             {| x := 100; y := 90 |} {| x := 200; y := 180 |} eq_refl))
             "start"%string eq_refl).
    discriminate.
Defined.

Example stuck_drag_moves_zone :
  map (fun z => (rect_x (rect z), rect_y (rect z), width (rect z), height (rect z)))
      (triggerSteps (ui (handleMouseUp (handleMouseMove
         (handleMouseDown (stuckDrag start_roi) {| x := 100; y := 90 |})
         {| x := 200; y := 180 |}))))
    = [(200 - (12 - 10), 180 - (12 - 10), 4, 4)].
Proof. reflexivity. Qed.

(** X19: drawing the anchor.  With the anchor tool selected and no zone
    drag in progress, a gesture more than 10 px wide replaces the anchor
    rectangle by the spanned one and drops the anchor template, so no
    template matching runs until the anchor is captured again; zones,
    thumbnails, reference model, tracking offset and lost flag are kept
    as they are; a gesture at most 10 px wide changes neither the anchor
    nor the engine nor the zones.  When a zone drag is still in progress
    the anchor and the engine are not touched: the dragged zone follows
    the pointer and the drag ends. *)
Theorem draw_anchor_gesture st p q :
  setupSubMode (ui st) = anchor ->
  let st' := handleMouseUp (handleMouseMove (handleMouseDown st p) q) in
  (truthy (draggingStepId (ui st)) = false -> 10 < Qabs (x q - x p) ->
     anchorRect (ui st') = Some (spanned p q) /\
     anchorMat (engine st') = None /\
     tracker (engine st') = tracker (engine st) /\
     startRefMat (engine st') = startRefMat (engine st) /\
     triggerSteps (ui st') = triggerSteps (ui st) /\
     refImages (ui st') = refImages (ui st) /\
     setupSubMode (ui st') = none) /\
  (truthy (draggingStepId (ui st)) = false -> Qabs (x q - x p) <= 10 ->
     anchorRect (ui st') = anchorRect (ui st) /\
     engine st' = engine st /\
     triggerSteps (ui st') = triggerSteps (ui st) /\
     setupSubMode (ui st') = none) /\
  (forall did, draggingStepId (ui st) = Some did -> did <> EmptyString ->
     anchorRect (ui st') = anchorRect (ui st) /\
     engine st' = engine st /\
     triggerSteps (ui st') =
       map (moveStep did q (dragOffset (ui st))) (triggerSteps (ui st)) /\
     draggingStepId (ui st') = None /\
     setupSubMode (ui st') = none).
Proof.
  intros Hsub. cbv zeta.
  assert (Hne : setupSubMode (ui st) <> none) by congruence.
  split; [|split].
  - intros Htr Hw.
    destruct (draw_gesture st p q Hne Htr)
      as (Hds & Hdr & Hsm & Hdi & Hts & Hri & Har & Hen).
    unfold handleMouseUp. rewrite Hdi, Htr, Hds, Hdr, Hsm, Hsub.
    cbn [width spanned].
    destruct (Qltb_spec 10 (Qabs (x q - x p))) as [_ | Hle]; [|exfalso; lra].
    cbn -[Qabs spanned]. rewrite Hen. repeat split; assumption.
  - intros Htr Hw.
    destruct (draw_gesture st p q Hne Htr)
      as (Hds & Hdr & Hsm & Hdi & Hts & Hri & Har & Hen).
    unfold handleMouseUp. rewrite Hdi, Htr, Hds, Hdr, Hsm, Hsub.
    cbn [width spanned].
    destruct (Qltb_spec 10 (Qabs (x q - x p))) as [Hlt | _]; [exfalso; lra|].
    cbn -[Qabs spanned]. repeat split; assumption.
  - intros did Hd Hdid.
    destruct (gesture_during_drag st p q did Hne Hd Hdid)
      as (H1 & H2 & _ & H4 & H5 & _ & _ & H8).
    repeat split; assumption.
Qed.

Lemma draw_anchor_gesture_witness :
  let st := {| ui := set_setupSubMode (ui (armed (trackerAt 6 (-4) true))) anchor;
               engine := engine (armed (trackerAt 6 (-4) true)) |} in
  let st' := handleMouseUp (handleMouseMove (handleMouseDown st {| x := 5; y := 5 |})
                                            {| x := 25; y := 30 |}) in
  let stuck := handleMouseUp (handleMouseMove (handleMouseDown (stuckDrag anchor)
                                                 {| x := 100; y := 90 |})
                                              {| x := 200; y := 180 |}) in
  (anchorRect (ui st') = Some (spanned {| x := 5; y := 5 |} {| x := 25; y := 30 |}) /\
   anchorMat (engine st') = None /\
   tracker (engine st') = trackerAt 6 (-4) true) /\
  (anchorRect (ui stuck) = anchorRect (ui (stuckDrag anchor)) /\
   engine stuck = engine (stuckDrag anchor) /\
   draggingStepId (ui stuck) = None).
Proof.
  cbv zeta. split.
  - destruct (proj1 (draw_anchor_gesture
                {| ui := set_setupSubMode (ui (armed (trackerAt 6 (-4) true))) anchor;
                   engine := engine (armed (trackerAt 6 (-4) true)) |}
                {| x := 5; y := 5 |} {| x := 25; y := 30 |} eq_refl) eq_refl)
      as (H1 & H2 & H3 & _); [reflexivity|].
    split; [exact H1|]. split; [exact H2 | exact H3].
  - destruct (proj2 (proj2 (draw_anchor_gesture (stuckDrag anchor)
                {| x := 100; y := 90 |} {| x := 200; y := 180 |} eq_refl))
                "start"%string eq_refl)
      as (H1 & H2 & _ & H4 & _); [discriminate|].
    split; [exact H1|]. split; [exact H2 | exact H4].
Defined.

(** ** The search window of the tracker *)

(** X20: the window in which the anchor is searched starts inside the
    frame, never extends past its right or bottom edge, is at most the
    anchor's size plus 100 px, and, when the anchor's last known position
    lies inside the frame, covers that position entirely. *)
Theorem searchWindow_covers_anchor (ar : Rect) (offset : Point) (f : Frame) :
  let w := searchWindow ar offset f in
  let last := lastKnown ar offset in
  (0 <= rect_x w /\ 0 <= rect_y w /\
   rect_x w + width w <= inject_Z (cols (gray f)) /\
   rect_y w + height w <= inject_Z (rows (gray f)) /\
   width w <= width ar + 100 /\ height w <= height ar + 100) /\
  (0 <= x last -> x last + width ar <= inject_Z (cols (gray f)) ->
   0 <= y last -> y last + height ar <= inject_Z (rows (gray f)) ->
   rect_x w <= x last /\ x last + width ar <= rect_x w + width w /\
   rect_y w <= y last /\ y last + height ar <= rect_y w + height w).
Proof.
  cbv zeta. unfold searchWindow, lastKnown. cbn [rect_x rect_y width height x y].
  set (lastX := rect_x ar + x offset). set (lastY := rect_y ar + y offset).
  destruct (Q.max_spec 0 (lastX - 50)) as [[Hx Ex] | [Hx Ex]];
  destruct (Q.max_spec 0 (lastY - 50)) as [[Hy Ey] | [Hy Ey]];
  set (sx := Qmax 0 (lastX - 50)) in *; set (sy := Qmax 0 (lastY - 50)) in *;
  destruct (Q.min_spec (inject_Z (cols (gray f)) - sx) (width ar + 50 * 2))
    as [[Hw Ew] | [Hw Ew]];
  destruct (Q.min_spec (inject_Z (rows (gray f)) - sy) (height ar + 50 * 2))
    as [[Hh Eh] | [Hh Eh]];
  set (sw := Qmin (inject_Z (cols (gray f)) - sx) (width ar + 50 * 2)) in *;
  set (sh := Qmin (inject_Z (rows (gray f)) - sy) (height ar + 50 * 2)) in *;
  (split; [repeat split; lra | intros; repeat split; lra]).
Qed.

Lemma searchWindow_covers_anchor_witness :
  let f := frameWith 1 (flat 480 640 0) weakMatch in
  let w := searchWindow anchorBox {| x := 3; y := -2 |} f in
  rect_x w <= 103 /\ 103 + 20 <= rect_x w + width w /\
  rect_y w <= 78 /\ 78 + 20 <= rect_y w + height w.
Proof.
  cbv zeta.
  pose proof (proj2 (searchWindow_covers_anchor anchorBox {| x := 3; y := -2 |}
                       (frameWith 1 (flat 480 640 0) weakMatch))) as H.
  cbv zeta in H.
  destruct H as (H1 & H2 & H3 & H4); try (vm_compute; discriminate).
  repeat split.
  - apply (Qle_trans _ _ _ H1). vm_compute. discriminate.
  - refine (Qle_trans _ _ _ _ H2). vm_compute. discriminate.
  - apply (Qle_trans _ _ _ H3). vm_compute. discriminate.
  - refine (Qle_trans _ _ _ _ H4). vm_compute. discriminate.
Defined.

(** ** Screen to video coordinates *)

Lemma displayBox_cases (v : VideoElement) :
  positiveSize v ->
  let '(dw, dh, ox, oy) := displayBox v in
  0 < dw /\ 0 < dh /\
  dw <= el_width v /\ dh <= el_height v /\
  dw * videoHeight v == dh * videoWidth v /\
  ox == (el_width v - dw) / 2 /\ oy == (el_height v - dh) / 2 /\
  (dw == el_width v \/ dh == el_height v).
Proof.
  intros (Hew & Heh & Hvw & Hvh). unfold displayBox.
  set (ew := el_width v) in *. set (eh := el_height v) in *.
  set (vw := videoWidth v) in *. set (vh := videoHeight v) in *.
  assert (Hvr : (vw / vh) * vh == vw) by (field; lra).
  assert (Her : (ew / eh) * eh == ew) by (field; lra).
  assert (Hvr0 : 0 < vw / vh) by (apply Qlt_shift_div_l; lra).
  destruct (Qltb_spec (vw / vh) (ew / eh)) as [Hlt | Hge].
  - assert (Hdw : eh * (vw / vh) < ew) by nra.
    assert (Hpos : 0 < eh * (vw / vh)) by nra.
    repeat split; try lra; try nra; try (unfold Qdiv; ring);
      try (right; reflexivity).
  - assert (Hinv : (ew / (vw / vh)) * (vw / vh) == ew) by (field; split; lra).
    assert (Hdh : ew / (vw / vh) <= eh) by nra.
    assert (Hpos : 0 < ew / (vw / vh)) by (apply Qlt_shift_div_l; lra).
    repeat split; try lra; try nra; try (unfold Qdiv; ring);
      try (left; reflexivity).
Qed.

(** X21: the displayed video box that [mapScreenToVideo] computes is the
    "object-fit: contain" box: it has the aspect ratio of the video, fits
    inside the element, touches it in one direction and is centred in the
    other (for an element and a video of positive size). *)
Theorem displayBox_is_contain_fit (v : VideoElement) :
  positiveSize v ->
  let dw := fst (fst (fst (displayBox v))) in
  let dh := snd (fst (fst (displayBox v))) in
  let ox := snd (fst (displayBox v)) in
  let oy := snd (displayBox v) in
  dw * videoHeight v == dh * videoWidth v /\
  0 < dw /\ dw <= el_width v /\ 0 < dh /\ dh <= el_height v /\
  (dw == el_width v \/ dh == el_height v) /\
  ox == (el_width v - dw) / 2 /\ oy == (el_height v - dh) / 2.
Proof.
  intros Hpos. pose proof (displayBox_cases v Hpos) as H.
  destruct (displayBox v) as [[[dw dh] ox] oy]. cbn [fst snd].
  destruct H as (H1 & H2 & H3 & H4 & H5 & H6 & H7 & H8).
  repeat split; assumption.
Qed.

Lemma letterboxed_positive : positiveSize letterboxed.
Proof. repeat split. Defined.

Lemma displayBox_is_contain_fit_witness :
  let dw := fst (fst (fst (displayBox letterboxed))) in
  let dh := snd (fst (fst (displayBox letterboxed))) in
  dw * 720 == dh * 1280 /\ dw == 800 /\ dh == 450 /\
  snd (displayBox letterboxed) == 75.
Proof.
  cbv zeta.
  destruct (displayBox_is_contain_fit letterboxed letterboxed_positive)
    as (Hr & _).
  split; [exact Hr|]. repeat split.
Defined.

(** [mapScreenToVideo] always answers a point of the video, 0 <= x
    <= videoWidth and 0 <= y <= videoHeight, wherever the pointer is (for
    an element and a video of positive size). *)
Theorem mapScreenToVideo_in_video (screenX screenY : Q) (v : VideoElement) :
  positiveSize v ->
  let pt := mapScreenToVideo screenX screenY v in
  0 <= x pt /\ x pt <= videoWidth v /\ 0 <= y pt /\ y pt <= videoHeight v.
Proof.
  intros (_ & _ & Hw & Hh). apply Qlt_le_weak in Hw, Hh.
  cbv zeta. unfold mapScreenToVideo.
  destruct (displayBox v) as [[[dw dh] ox] oy]. cbn [x y].
  repeat split;
    try apply Q.le_max_l;
    (apply Q.max_lub; [assumption | apply Q.le_min_l]).
Qed.

Lemma mapScreenToVideo_in_video_witness :
  let pt := mapScreenToVideo 5000 (-20) letterboxed in
  0 <= x pt /\ x pt <= 1280 /\ 0 <= y pt /\ y pt <= 720.
Proof.
  cbv zeta.
  apply (mapScreenToVideo_in_video 5000 (-20) letterboxed letterboxed_positive).
Defined.

(** X22: [mapScreenToVideo] inverts the way the video is drawn: the
    screen position at which the video pixel (vx, vy) is displayed maps
    back to (vx, vy), for every pixel of the video. *)
Theorem mapScreenToVideo_round_trip (v : VideoElement) (vx vy : Q) :
  positiveSize v ->
  0 <= vx -> vx <= videoWidth v ->
  0 <= vy -> vy <= videoHeight v ->
  let pt := mapScreenToVideo (fst (screenOf v vx vy)) (snd (screenOf v vx vy)) v in
  x pt == vx /\ y pt == vy.
Proof.
  intros Hpos Hx0 Hx1 Hy0 Hy1. cbv zeta.
  pose proof (displayBox_cases v Hpos) as H.
  unfold mapScreenToVideo, screenOf.
  destruct (displayBox v) as [[[dw dh] ox] oy]. cbn [fst snd x y].
  destruct H as (Hdw & Hdh & _).
  destruct Hpos as (_ & _ & Hvw & Hvh).
  assert (Ex : (el_left v + ox + vx * dw / videoWidth v - el_left v - ox)
               * (videoWidth v / dw) == vx) by (field; split; lra).
  assert (Ey : (el_top v + oy + vy * dh / videoHeight v - el_top v - oy)
               * (videoHeight v / dh) == vy) by (field; split; lra).
  rewrite Ex, Ey.
  rewrite (Q.min_r (videoWidth v) vx) by exact Hx1.
  rewrite (Q.min_r (videoHeight v) vy) by exact Hy1.
  rewrite (Q.max_r 0 vx) by exact Hx0.
  rewrite (Q.max_r 0 vy) by exact Hy0.
  split; reflexivity.
Qed.

Lemma mapScreenToVideo_round_trip_witness :
  let pt := mapScreenToVideo (fst (screenOf letterboxed 640 180))
                             (snd (screenOf letterboxed 640 180)) letterboxed in
  x pt == 640 /\ y pt == 180.
Proof.
  cbv zeta.
  apply (mapScreenToVideo_round_trip letterboxed 640 180 letterboxed_positive);
    vm_compute; discriminate.
Defined.

Example screenOf_letterboxed :
  fst (screenOf letterboxed 640 180) == 500 /\
  snd (screenOf letterboxed 640 180) == 237.5.
Proof. split; reflexivity. Qed.

(** ** The motion classifier over time *)

Lemma hypotOnAxis_like : hypotLike hypotOnAxis.
Proof.
  split.
  - intros a b. unfold hypotOnAxis.
    pose proof (Qabs_nonneg a). pose proof (Qabs_nonneg b). lra.
  - intros a b Ha Hb. unfold hypotOnAxis. rewrite Ha, Hb. reflexivity.
Defined.

(** X23: the classifier keeps its numbers sane: for any pose result
    (with landmarks, without, or with too few of them) hand velocities
    that were non-negative stay non-negative and the confidence stays in
    [0,1]. *)
Theorem classifier_stays_sane (hypot : Q -> Q -> Q) (ai : AiState)
    (poseLandmarks : option (list Landmark)) :
  (forall a b, 0 <= hypot a b) ->
  saneAi ai ->
  saneAi (onPoseResults hypot ai poseLandmarks).
Proof.
  intros Hh (Hl & Hr & Hc0 & Hc1). unfold saneAi, onPoseResults.
  destruct poseLandmarks as [lm|]; [|auto].
  destruct (nth_error lm POSE_LM.LEFT_WRIST) as [lw|]; [|cbn; auto].
  destruct (nth_error lm POSE_LM.RIGHT_WRIST) as [rw|]; [|cbn; auto].
  assert (Hlv : 0 <= match lastPos ai with
                     | Some lp => hypot (lm_x lw - lx lp) (lm_y lw - ly lp)
                     | None => 0
                     end) by (destruct (lastPos ai); [apply Hh | apply Qle_refl]).
  assert (Hrv : 0 <= match lastPos ai with
                     | Some lp => hypot (lm_x rw - rx lp) (lm_y rw - ry lp)
                     | None => 0
                     end) by (destruct (lastPos ai); [apply Hh | apply Qle_refl]).
  set (lVel := match lastPos ai with
               | Some lp => hypot (lm_x lw - lx lp) (lm_y lw - ly lp)
               | None => 0
               end) in *.
  set (rVel := match lastPos ai with
               | Some lp => hypot (lm_x rw - rx lp) (lm_y rw - ry lp)
               | None => 0
               end) in *.
  destruct (nth_error lm POSE_LM.NOSE) as [nose|];
    cbn [leftHandVel rightHandVel confidence].
  - split; [lra|]. split; [lra|]. split.
    + apply Q.min_glb; [lra|].
      assert (0 <= (leftHandVel ai * 0.7 + lVel * 0.3
                    + (rightHandVel ai * 0.7 + rVel * 0.3)) / 2)
        by (apply Qle_shift_div_l; lra).
      lra.
    + apply Qle_trans with 1.0; [apply Q.le_min_l | discriminate].
  - repeat split; try assumption; lra.
Qed.

Lemma classifier_stays_sane_witness :
  saneAi (onPoseResults hypotOnAxis (aiAfter 0.15 0.85) (Some (poseWith 0.05 0.95))).
Proof.
  apply classifier_stays_sane.
  - exact (proj1 hypotOnAxis_like).
  - repeat split; discriminate.
Defined.

Lemma onPoseResults_still (hypot : Q -> Q -> Q) (ai : AiState) (lm : list Landmark)
    (lw rw nose : Landmark) (lp : LastPos) :
  (forall a b, a == 0 -> b == 0 -> hypot a b == 0) ->
  nth_error lm POSE_LM.LEFT_WRIST = Some lw ->
  nth_error lm POSE_LM.RIGHT_WRIST = Some rw ->
  nth_error lm POSE_LM.NOSE = Some nose ->
  lastPos ai = Some lp ->
  lx lp == lm_x lw -> ly lp == lm_y lw -> rx lp == lm_x rw -> ry lp == lm_y rw ->
  let ai' := onPoseResults hypot ai (Some lm) in
  leftHandVel ai' == 0.7 * leftHandVel ai /\
  rightHandVel ai' == 0.7 * rightHandVel ai /\
  lastPos ai' = Some {| lx := lm_x lw; ly := lm_y lw; rx := lm_x rw; ry := lm_y rw |}.
Proof.
  intros Hz Hl Hr Hn Hp E1 E2 E3 E4. cbv zeta.
  unfold onPoseResults. rewrite Hl, Hr, Hn, Hp.
  cbn [leftHandVel rightHandVel lastPos].
  rewrite (Hz (lm_x lw - lx lp) (lm_y lw - ly lp)) by (rewrite ?E1, ?E2; ring).
  rewrite (Hz (lm_x rw - rx lp) (lm_y rw - ry lp)) by (rewrite ?E3, ?E4; ring).
  split; [ring|]. split; [ring | reflexivity].
Qed.

Lemma onPoseResults_idle (hypot : Q -> Q -> Q) (ai : AiState) (lm : list Landmark)
    (lw rw nose : Landmark) :
  nth_error lm POSE_LM.LEFT_WRIST = Some lw ->
  nth_error lm POSE_LM.RIGHT_WRIST = Some rw ->
  nth_error lm POSE_LM.NOSE = Some nose ->
  let ai' := onPoseResults hypot ai (Some lm) in
  (leftHandVel ai' + rightHandVel ai') / 2 < 0.005 ->
  currentAction ai' = AIAction.IDLE.
Proof.
  intros Hl Hr Hn. cbv zeta. unfold onPoseResults. rewrite Hl, Hr, Hn.
  cbn [leftHandVel rightHandVel currentAction].
  apply classify_cases.
Qed.

(** X24: a still pose decays geometrically: when the same landmarks are
    reported again and again, each further result multiplies both
    smoothed hand velocities by 0.7, so after n more results they are
    0.7^n times what they were; and as soon as their average is below
    0.005 the action is IDLE. *)
Theorem still_pose_decays (hypot : Q -> Q -> Q) (lm : list Landmark)
    (lw rw nose : Landmark) (n : nat) (ai : AiState) :
  (forall a b, a == 0 -> b == 0 -> hypot a b == 0) ->
  nth_error lm POSE_LM.LEFT_WRIST = Some lw ->
  nth_error lm POSE_LM.RIGHT_WRIST = Some rw ->
  nth_error lm POSE_LM.NOSE = Some nose ->
  let first := onPoseResults hypot ai (Some lm) in
  let final := repeatPose hypot n lm first in
  leftHandVel final == 0.7 ^ Z.of_nat n * leftHandVel first /\
  rightHandVel final == 0.7 ^ Z.of_nat n * rightHandVel first /\
  ((0 < n)%nat -> (leftHandVel final + rightHandVel final) / 2 < 0.005 ->
   currentAction final = AIAction.IDLE).
Proof.
  intros Hz Hl Hr Hn. cbv zeta.
  assert (Hfirst : lastPos (onPoseResults hypot ai (Some lm))
                   = Some {| lx := lm_x lw; ly := lm_y lw; rx := lm_x rw; ry := lm_y rw |}).
  { unfold onPoseResults. rewrite Hl, Hr, Hn. reflexivity. }
  generalize dependent (onPoseResults hypot ai (Some lm)). intros a0 Hlast.
  revert a0 Hlast. induction n as [|n IH]; intros a0 Hlast.
  - cbn [repeatPose]. split; [cbn; ring|]. split; [cbn; ring|]. intros H; inversion H.
  - cbn [repeatPose].
    destruct (onPoseResults_still hypot a0 lm lw rw nose _ Hz Hl Hr Hn Hlast)
      as (Hlv & Hrv & Hlast'); try reflexivity.
    cbv zeta in Hlv, Hrv, Hlast'.
    destruct (IH _ Hlast') as (IHl & IHr & IHa).
    rewrite Nat2Z.inj_succ, <- Z.add_1_r.
    rewrite Qpower_plus by discriminate.
    split; [rewrite IHl, Hlv; cbn; ring|].
    split; [rewrite IHr, Hrv; cbn; ring|].
    intros _ Havg. destruct n as [|n'].
    + cbn [repeatPose] in *.
      apply (onPoseResults_idle hypot a0 lm lw rw nose Hl Hr Hn). exact Havg.
    + apply IHa; [lia | exact Havg].
Qed.

Lemma still_pose_decays_witness :
  let first := onPoseResults hypotOnAxis (aiAfter 0.15 0.85) (Some (poseWith 0.05 0.95)) in
  let final := repeatPose hypotOnAxis 6 (poseWith 0.05 0.95) first in
  leftHandVel final == 0.7 ^ 6 * leftHandVel first /\
  rightHandVel final == 0.7 ^ 6 * rightHandVel first /\
  currentAction first = AIAction.TRANSPORT /\
  currentAction final = AIAction.IDLE.
Proof.
  cbv zeta.
  destruct (still_pose_decays hypotOnAxis (poseWith 0.05 0.95)
              (landmark 0.05 0.5) (landmark 0.95 0.5) (landmark 0.5 0.5) 6
              (aiAfter 0.15 0.85) (proj2 hypotOnAxis_like) eq_refl eq_refl eq_refl)
    as (Hl & Hr & Hidle).
  split; [exact Hl|]. split; [exact Hr|]. split; [reflexivity|].
  apply Hidle; [apply Nat.lt_0_succ | vm_compute; reflexivity].
Defined.

(** ** Ergonomic risk score *)

Lemma neckScoreOf_range (a : Q) :
  (neckScoreOf a = 1 \/ neckScoreOf a = 2 \/ neckScoreOf a = 3)%Z.
Proof. unfold neckScoreOf. break_match; auto. Qed.

Lemma trunkScoreOf_range (a : Q) :
  (trunkScoreOf a = 1 \/ trunkScoreOf a = 2 \/ trunkScoreOf a = 3 \/ trunkScoreOf a = 4)%Z.
Proof. unfold trunkScoreOf. break_match; auto. Qed.

Lemma armScoreOf_range (a : Q) :
  (armScoreOf a = 1 \/ armScoreOf a = 2 \/ armScoreOf a = 3 \/ armScoreOf a = 4)%Z.
Proof. unfold armScoreOf. break_match; auto. Qed.

(** X25: the risk score is always between 4 and 7, so the level is never
    Low: it is Medium exactly for a score of 4, High for 5 or 6 and Very
    High for 7.  (The lowest sub-scores give round(1.5 + 1 + 1.2) = 4.) *)
Theorem risk_score_range (neck trunk upperArm : Q) :
  let r := calculateRiskScore neck trunk upperArm in
  (4 <= fst r <= 7)%Z /\
  snd r <> Low /\
  (snd r = Medium <-> fst r = 4%Z) /\
  (snd r = High <-> (fst r = 5 \/ fst r = 6)%Z) /\
  (snd r = VeryHigh <-> fst r = 7%Z).
Proof.
  cbv zeta. unfold calculateRiskScore. cbn [fst snd].
  destruct (neckScoreOf_range neck) as [-> | [-> | ->]];
  destruct (trunkScoreOf_range trunk) as [-> | [-> | [-> | ->]]];
  destruct (armScoreOf_range upperArm) as [-> | [-> | [-> | ->]]];
  vm_compute; repeat split; intros; try discriminate; try lia; auto;
  try (match goal with H : _ \/ _ |- _ => destruct H; discriminate end).
Qed.

Example risk_score_upright : calculateRiskScore 0 0 0 = (4%Z, Medium).
Proof. reflexivity. Qed.

Lemma Qleb_spec (a b : Q) : BoolSpec (a <= b) (b < a) (Qleb a b).
Proof.
  unfold Qleb. destruct (Qle_bool a b) eqn:E; constructor.
  - now apply Qle_bool_iff.
  - apply Qnot_le_lt. intros H. apply Qle_bool_iff in H. congruence.
Qed.

Ltac compare_all :=
  repeat match goal with
         | |- context [?a <? ?b] => destruct (Qltb_spec a b)
         | |- context [Qleb ?a ?b] => destruct (Qleb_spec a b)
         end.

Lemma neckScoreOf_mono (a b : Q) : a <= b -> (neckScoreOf a <= neckScoreOf b)%Z.
Proof.
  intros H. unfold neckScoreOf. compare_all; cbn [andb]; try lia; exfalso; lra.
Qed.

Lemma trunkScoreOf_mono (a b : Q) : a <= b -> (trunkScoreOf a <= trunkScoreOf b)%Z.
Proof.
  intros H. unfold trunkScoreOf. compare_all; cbn [andb]; try lia; exfalso; lra.
Qed.

Lemma armScoreOf_mono (a b : Q) : a <= b -> (armScoreOf a <= armScoreOf b)%Z.
Proof.
  intros H. unfold armScoreOf. compare_all; cbn [andb]; try lia; exfalso; lra.
Qed.

(** X26: the risk score is monotone: a posture whose neck, trunk and
    upper-arm angles are all at least as large never gets a smaller
    score. *)
Theorem risk_score_monotone (neck trunk upperArm neck' trunk' upperArm' : Q) :
  neck <= neck' -> trunk <= trunk' -> upperArm <= upperArm' ->
  (fst (calculateRiskScore neck trunk upperArm)
   <= fst (calculateRiskScore neck' trunk' upperArm'))%Z.
Proof.
  intros Hn Ht Ha. unfold calculateRiskScore. cbn [fst].
  apply neckScoreOf_mono in Hn. apply trunkScoreOf_mono in Ht.
  apply armScoreOf_mono in Ha.
  apply Z.min_le_compat_l. unfold Math_round. apply Qfloor_resp_le.
  rewrite Zle_Qle in Hn, Ht, Ha. lra.
Qed.

Lemma risk_score_monotone_witness :
  (fst (calculateRiskScore 5 10 30) <= fst (calculateRiskScore 25 10 95))%Z.
Proof.
  apply risk_score_monotone; vm_compute; discriminate.
Defined.

(** ** Sampling of the ergonomic history *)

Lemma gapped_snoc (l : list ErgoFrame) (a : ErgoFrame) :
  gapped l ->
  (l = [] \/ 0.2 <= Qabs (timestamp (last l a) - timestamp a)) ->
  gapped (l ++ [a]).
Proof.
  induction l as [|b rest IH]; intros Hg Hlast.
  - cbn. auto.
  - destruct Hg as [Hhead Hrest]. destruct rest as [|c rest'].
    + cbn. destruct Hlast as [Hnil | Hgap]; [discriminate|].
      cbn in Hgap. auto.
    + change ((b :: c :: rest') ++ [a]) with (b :: (c :: rest') ++ [a]).
      cbn [gapped]. split.
      * exact Hhead.
      * apply IH; [exact Hrest|]. right.
        destruct Hlast as [Hnil | Hgap]; [discriminate | exact Hgap].
Qed.

Lemma recordSample_gapped (prev : list ErgoFrame) (fd : ErgoFrame) :
  gapped prev -> gapped (recordSample prev fd).
Proof.
  intros Hg. unfold recordSample. destruct prev as [|a rest].
  - cbn. auto.
  - destruct (Qltb_spec (Qabs (timestamp (last (a :: rest) fd) - timestamp fd)) 0.2)
      as [_ | Hge]; [exact Hg|].
    apply gapped_snoc; [exact Hg | now right].
Qed.

(** X27: the recorded ergonomic history is thinned: whatever frames the
    pose model delivers, two consecutive recorded samples are at least
    0.2 s of video apart, the first delivered frame is always recorded,
    and the history never shrinks. *)
Theorem ergo_history_is_thinned (frames : list ErgoFrame) : forall prev,
  gapped prev ->
  let history := fold_left recordSample frames prev in
  gapped history /\
  (List.length prev <= List.length history)%nat /\
  (prev = [] -> hd_error history = hd_error frames).
Proof.
  induction frames as [|fd rest IH]; intros prev Hg; cbv zeta.
  - cbn. split; [exact Hg|]. split; [lia|]. now intros ->.
  - cbn [fold_left].
    destruct (IH (recordSample prev fd) (recordSample_gapped prev fd Hg))
      as (Hg' & Hlen & Hhd).
    split; [exact Hg'|]. split.
    + apply Nat.le_trans with (List.length (recordSample prev fd)); [|exact Hlen].
      unfold recordSample. destruct prev; [cbn; lia|].
      destruct (_ <? _); [lia | rewrite length_app; cbn; lia].
    + intros ->. cbn [recordSample app] in *.
      clear IH Hhd Hg'. cbn [hd_error].
      assert (Hkeep : forall fs l, hd_error (fold_left recordSample fs (fd :: l))
                                   = Some fd).
      { induction fs as [|g fs IHf]; intros l; [reflexivity|].
        cbn [fold_left]. unfold recordSample at 2.
        destruct (_ <? _); [apply IHf|].
        change ((fd :: l) ++ [g]) with (fd :: (l ++ [g])). apply IHf. }
      apply Hkeep.
Qed.

Lemma ergo_history_is_thinned_witness :
  let history := fold_left recordSample
                   [sampleAt 1; sampleAt 1.1; sampleAt 1.25; sampleAt 1.3; sampleAt 1.5] [] in
  gapped history /\ (0 <= List.length history)%nat /\
  hd_error history = Some (sampleAt 1).
Proof.
  cbv zeta.
  destruct (ergo_history_is_thinned
              [sampleAt 1; sampleAt 1.1; sampleAt 1.25; sampleAt 1.3; sampleAt 1.5] [] I)
    as (Hg & Hl & Hh).
  split; [exact Hg|]. split; [exact Hl|]. now apply Hh.
Defined.

Example ergo_history_example :
  map timestamp (fold_left recordSample
                   [sampleAt 1; sampleAt 1.1; sampleAt 1.25; sampleAt 1.3; sampleAt 1.5] [])
    = [1; 1.25; 1.5].
Proof. reflexivity. Qed.

(** ** The application's cycle handler *)

Lemma sliceLast_length {A} (n : nat) (l : list A) :
  List.length (sliceLast n l) = Nat.min n (List.length l).
Proof. unfold sliceLast. rewrite length_skipn. lia. Qed.

Lemma sliceLast_short {A} (n : nat) (l : list A) :
  (List.length l <= n)%nat -> sliceLast n l = l.
Proof.
  intros H. unfold sliceLast.
  replace (List.length l - n)%nat with 0%nat by lia. reflexivity.
Qed.

Lemma sliceLast_snoc {A} (n : nat) (l : list A) (a : A) :
  (0 < n)%nat ->
  sliceLast n (sliceLast n l ++ [a]) = sliceLast n (l ++ [a]).
Proof.
  intros Hn. destruct (Nat.le_gt_cases (List.length l) n) as [Hle | Hgt].
  - now rewrite (sliceLast_short n l Hle).
  - unfold sliceLast at 1 3. rewrite !length_app, sliceLast_length. cbn [List.length].
    replace (Nat.min n (List.length l) + 1 - n)%nat with 1%nat by lia.
    unfold sliceLast.
    replace (List.length l + 1 - n)%nat with (1 + (List.length l - n))%nat by lia.
    rewrite <- skipn_skipn.
    rewrite (skipn_app (List.length l - n) l [a]).
    replace (List.length l - n - List.length l)%nat with 0%nat by lia.
    cbn [skipn].
    destruct (skipn (List.length l - n) l) as [|b rest] eqn:E.
    + exfalso. apply (f_equal (@List.length A)) in E.
      rewrite length_skipn in E. cbn in E. lia.
    + reflexivity.
Qed.

Lemma sliceLast_In {A} (n : nat) (l : list A) (a : A) :
  In a (sliceLast n l) -> In a l.
Proof.
  unfold sliceLast. intros H.
  rewrite <- (firstn_skipn (List.length l - n) l). apply in_or_app. now right.
Qed.

Lemma filter_present_all {A} (l : list (option A)) :
  (forall r, In r l -> present r = true) -> filter present l = l.
Proof.
  induction l as [|a l IH]; intros H; [reflexivity|].
  cbn. rewrite (H a (or_introl eq_refl)). f_equal. apply IH.
  intros r Hr. apply H. now right.
Qed.

Lemma filter_present_ok {A} (l : list (option A)) r :
  In r (filter present l) -> present r = true.
Proof. intros H. now apply filter_In in H. Qed.

Lemma nth_error_replaceAt_same {A} (l : list A) : forall i v a,
  nth_error l i = Some a -> nth_error (replaceAt i v l) i = Some v.
Proof.
  induction l as [|b l IH]; intros [|i] v a H; try discriminate.
  - reflexivity.
  - cbn in *. now apply (IH i v a).
Qed.

Lemma nth_error_replaceAt_other {A} (l : list A) : forall i j v,
  i <> j -> nth_error (replaceAt i v l) j = nth_error l j.
Proof.
  induction l as [|b l IH]; intros [|i] [|j] v H; try reflexivity; try congruence.
  cbn. apply IH. congruence.
Qed.

Lemma length_replaceAt {A} (l : list A) : forall i v,
  List.length (replaceAt i v l) = List.length l.
Proof.
  induction l as [|b l IH]; intros [|i] v; try reflexivity.
  cbn. now rewrite IH.
Qed.

Lemma last_snoc {A} (l : list A) (a d : A) : last (l ++ [a]) d = a.
Proof. apply last_last. Qed.

Lemma sliceLast_last {A} (n : nat) (l : list A) (a d : A) :
  (0 < n)%nat -> last (sliceLast n (l ++ [a])) d = a.
Proof.
  intros Hn. unfold sliceLast. rewrite length_app. cbn [List.length].
  rewrite skipn_app.
  replace (List.length l + 1 - n - List.length l)%nat with 0%nat by lia.
  cbn [skipn]. apply last_last.
Qed.

(** X28: what a completed cycle does to the application.  The cycle is
    appended to the cycle log.  The task selected as station mapping gets
    a new last round built from the cycle (hand time and total equal to
    its duration), its null rounds are dropped and only the 20 most
    recent rounds are kept; the other tasks, and the number of tasks, are
    unchanged.  When the mapping selects no task, the tasks are
    untouched. *)
Theorem cycle_complete_updates_task (app : AppState) (cycle : Cycle) :
  let app' := handleCycleComplete app cycle in
  cycles app' = cycles app ++ [cycle] /\
  List.length (workStudyTasks app') = List.length (workStudyTasks app) /\
  (forall j, j <> activeStationMapping app ->
     nth_error (workStudyTasks app') j = nth_error (workStudyTasks app) j) /\
  (nth_error (workStudyTasks app) (activeStationMapping app) = None ->
     workStudyTasks app' = workStudyTasks app) /\
  (forall task, nth_error (workStudyTasks app) (activeStationMapping app) = Some task ->
     exists task', nth_error (workStudyTasks app') (activeStationMapping app) = Some task' /\
       task_id task' = task_id task /\ task_name task' = task_name task /\
       (List.length (rounds task') <= 20)%nat /\
       (forall r, In r (rounds task') -> present r = true) /\
       last (rounds task') None = Some (roundOfCycle cycle) /\
       ht (roundOfCycle cycle) = duration cycle /\
       total (roundOfCycle cycle) = duration cycle).
Proof.
  cbv zeta. unfold handleCycleComplete. cbn [cycles workStudyTasks].
  split; [reflexivity|].
  destruct (nth_error (workStudyTasks app) (activeStationMapping app)) as [task|] eqn:Ht.
  - split; [apply length_replaceAt|].
    split; [intros j Hj; apply nth_error_replaceAt_other; congruence|].
    split; [discriminate|].
    intros task0 Heq. injection Heq as <-.
    eexists. split; [apply (nth_error_replaceAt_same _ _ _ _ Ht)|].
    cbn [task_id task_name rounds].
    split; [reflexivity|]. split; [reflexivity|]. split.
    + rewrite sliceLast_length. lia.
    + split.
      * intros r Hr. apply sliceLast_In in Hr. apply in_app_or in Hr as [Hr | [<- | []]].
        -- now apply filter_present_ok in Hr.
        -- reflexivity.
      * split; [apply sliceLast_last; lia|]. split; reflexivity.
  - split; [reflexivity|]. split; [reflexivity|]. split; [reflexivity|]. discriminate.
Qed.

Lemma cycle_complete_updates_task_witness :
  let app := {| cycles := []; workStudyTasks := [taskWith [None]; taskWith []];
                activeStationMapping := 0 |} in
  exists task',
    nth_error (workStudyTasks (handleCycleComplete app (cycleOf 1 3))) 0 = Some task' /\
    (List.length (rounds task') <= 20)%nat /\
    last (rounds task') None = Some (roundOfCycle (cycleOf 1 3)).
Proof.
  cbv zeta.
  destruct (cycle_complete_updates_task
              {| cycles := []; workStudyTasks := [taskWith [None]; taskWith []];
                 activeStationMapping := 0 |} (cycleOf 1 3))
    as (_ & _ & _ & _ & H).
  destruct (H (taskWith [None]) eq_refl) as (task' & Hn & _ & _ & Hlen & _ & Hlast & _).
  exists task'. repeat split; assumption.
Defined.

Lemma handleCycleComplete_mapping app cycle :
  activeStationMapping (handleCycleComplete app cycle) = activeStationMapping app.
Proof. reflexivity. Qed.

Lemma deliverCycles_snoc app cs c :
  deliverCycles app (cs ++ [c]) = handleCycleComplete (deliverCycles app cs) c.
Proof. unfold deliverCycles. now rewrite fold_left_app. Qed.

Lemma deliverCycles_mapping app cs :
  activeStationMapping (deliverCycles app cs) = activeStationMapping app.
Proof.
  induction cs as [|c cs IH] using rev_ind; [reflexivity|].
  now rewrite deliverCycles_snoc, handleCycleComplete_mapping.
Qed.

(** X29: the task mapped to the analyzer holds a sliding window of the
    last 20 rounds: after any non-empty sequence of completed cycles its
    rounds are the 20 most recent of the rounds it had (nulls dropped)
    followed by one round per cycle, in order of completion; the cycle
    log is the old log followed by all the cycles. *)
Theorem delivered_cycles_window (app : AppState) (task : WorkStudyTask)
    (cs : list Cycle) :
  nth_error (workStudyTasks app) (activeStationMapping app) = Some task ->
  cs <> [] ->
  cycles (deliverCycles app cs) = cycles app ++ cs /\
  exists task',
    nth_error (workStudyTasks (deliverCycles app cs)) (activeStationMapping app)
      = Some task' /\
    rounds task' = sliceLast 20 (filter present (rounds task) ++ roundsOf cs).
Proof.
  intros Ht. induction cs as [|c cs IH] using rev_ind; [congruence|]. intros _.
  rewrite deliverCycles_snoc.
  destruct cs as [|c0 cs'].
  - cbn [List.app deliverCycles fold_left]. unfold handleCycleComplete.
    cbn [cycles workStudyTasks]. rewrite Ht.
    split; [reflexivity|].
    eexists. split; [apply (nth_error_replaceAt_same _ _ _ _ Ht)|]. reflexivity.
  - destruct IH as (Hc & task1 & Ht1 & Hr1); [discriminate|].
    set (mid := deliverCycles app (c0 :: cs')) in *.
    assert (Hm : activeStationMapping mid = activeStationMapping app)
      by apply deliverCycles_mapping.
    unfold handleCycleComplete. cbn [cycles workStudyTasks]. rewrite Hm, Ht1, Hc.
    split; [now rewrite <- app_assoc|].
    eexists. split; [apply (nth_error_replaceAt_same _ _ _ _ Ht1)|].
    cbn [rounds]. rewrite Hr1.
    rewrite filter_present_all.
    + unfold roundsOf. rewrite map_app, app_assoc. cbn [map].
      apply sliceLast_snoc. lia.
    + intros r Hr. apply sliceLast_In in Hr. apply in_app_or in Hr as [Hr | Hr].
      * now apply filter_present_ok in Hr.
      * unfold roundsOf in Hr. apply in_map_iff in Hr as (c1 & <- & _). reflexivity.
Qed.

Lemma delivered_cycles_window_witness :
  let app := {| cycles := []; workStudyTasks := [taskWith [None]];
                activeStationMapping := 0 |} in
  let cs := map (fun n => cycleOf (inject_Z (Z.of_nat n)) (inject_Z (Z.of_nat n) + 2))
                (seq 0 25) in
  exists task',
    nth_error (workStudyTasks (deliverCycles app cs)) 0 = Some task' /\
    rounds task' = sliceLast 20 (filter present [None] ++ roundsOf cs) /\
    List.length (rounds task') = 20%nat /\
    List.length (cycles (deliverCycles app cs)) = 25%nat.
Proof.
  cbv zeta.
  destruct (delivered_cycles_window
              {| cycles := []; workStudyTasks := [taskWith [None]];
                 activeStationMapping := 0 |} (taskWith [None])
              (map (fun n => cycleOf (inject_Z (Z.of_nat n)) (inject_Z (Z.of_nat n) + 2))
                   (seq 0 25)) eq_refl)
    as (Hc & task' & Hn & Hr); [discriminate|].
  exists task'. split; [exact Hn|]. split; [exact Hr|]. split.
  - rewrite Hr. reflexivity.
  - rewrite Hc. reflexivity.
Defined.
